(** * Watch Party: the client-side session-synchronisation engine

    A shallow embedding of the [WatchParty] React component of
    [src/App.js]: the snapshot handler registered on ['session:state'],
    [computeTargetTime], [applySnapshot], the YouTube player life cycle
    ([useEffect] on [currentVideoId], [initPlayer], [onReady]) and the local
    control handlers ([handleVideoSubmit], [handlePlay], [handlePause],
    [handleSeek], [handleSyncToSession]).

    Modelling choices.
    - JavaScript numbers that carry times are IEEE 754 binary64 values, so
      they are Rocq's primitive floats: [+], [-], [/], [abs] and [<?] are the
      very operations the engine runs.  Snapshot versions are integers
      (the coordinator numbers its snapshots) and are modelled in [Z].
    - Refs ([useRef]) and React state ([useState]) are fields of one [World]
      record.  No handler reads a state variable after writing it, so a state
      setter is modelled as an immediate write; the one place where a stale
      render value matters, the [currentVideoId] closed over by the
      ['session:state'] handler, is the field [handlerVideoId].
    - Handlers run in a state-and-exception monad [M] in which, as in
      JavaScript, the writes made before an exception is thrown persist.
    - The Playback Surface (the YouTube player) is external: every call made
      to it is appended to [trace], what [getCurrentTime] answers and which
      calls throw is given by the [surface] oracle of the world.
    - [setTimeout] appends a [Timer] to [timers]; the event [EvTimer] fires
      one.  Wall-clock time is not modelled: a timer keeps its delay as data.
    - The viewer counter and the text of the URL field are display state
      that no handler of the engine reads; they have no field. *)

From Stdlib Require Import ZArith List String Bool Lia.
From Stdlib Require Import Floats.PrimFloat.
Import ListNotations.

Set Warnings "-inexact-float".
Local Open Scope string_scope.
Local Open Scope list_scope.
Local Open Scope Z_scope.

(** ** Data model *)

(** The snapshot broadcast by the server on ['session:state']. *)
Record Snapshot : Type := mkSnapshot {
  version : Z;
  videoId : option string;
  isPlaying : bool;
  playbackTimeAtLastEvent : float;
  lastEventAt : float;
  serverTime : float }.

(** Calls made to the YouTube IFrame player. *)
Inductive SurfaceCall : Type :=
| GetCurrentTime
| SeekTo (seconds : float) (allowSeekAhead : bool)
| PlayVideo
| PauseVideo
| Destroy
| Construct (vid : string).

(** Outbound socket events. *)
Inductive Intent : Type :=
| IPlay (currentTime : float)
| IPause (currentTime : float)
| ISeek (currentTime : float)
| IRequestSessionState
| IChangeVideo (url : string) (currentTime : float) (isPlaying : bool).

(** [toast.*] and [logError]. *)
Inductive Notice : Type :=
| ToastSuccess (msg : string)
| ToastError (msg : string)
| LogError (msg : string).

Inductive Effect : Type :=
| Call (c : SurfaceCall)
| Emit (i : Intent)
| Note (n : Notice).

(** The callbacks handed to [setTimeout]. [InitPlayer] carries the
    [currentVideoId] its closure was created with. *)
Inductive Callback : Type :=
| ClearApplyingServerUpdate
| ClearLocalAction
| InitPlayer (vid : string).

Record Timer : Type := mkTimer {
  t_id : nat;
  t_delay : Z;
  t_callback : Callback }.

Record Socket : Type := mkSocket { connected : bool }.

Record Player : Type := mkPlayer { pl_videoId : string }.

(** What the external player answers: the position it reports and the
    calls on which it throws. *)
Record Surface : Type := mkSurface {
  sf_time : float;
  sf_throws : SurfaceCall -> bool }.

Record World : Type := mkWorld {
  (* React state *)
  socket : option Socket;
  currentVideoId : string;
  ui_isPlaying : bool;                     (* the state variable [isPlaying] *)
  isLoading : bool;
  playerReadyUI : bool;
  needsUserInteraction : bool;
  isYouTubeAPIReady : bool;
  (* refs *)
  YT : bool;                               (* [YT.current] is set *)
  playerRef : option Player;
  isPlayerReady : bool;
  latestSessionState : option Snapshot;
  lastVersionRef : Z;
  isLocalAction : bool;
  applyingServerUpdate : bool;
  isRequestingSync : bool;
  hasInteracted : bool;
  (* closures and effect dependencies *)
  handlerVideoId : string;                 (* [currentVideoId] seen by the socket handlers *)
  socketEffectDep : bool;                  (* [isYouTubeAPIReady] at the last commit *)
  playerEffectDep : string;                (* [currentVideoId] at the last commit *)
  playerEffectTimer : option nat;          (* the timer the effect's cleanup clears *)
  (* environment *)
  surface : Surface;
  playerDiv : bool;                        (* [document.getElementById('youtube-player')] *)
  (* event loop *)
  timers : list Timer;
  nextTimerId : nat;
  trace : list Effect }.

(** Field updates. *)
Definition set_socket (v : _) (w : World) : World :=
  {| socket := v; currentVideoId := currentVideoId w; ui_isPlaying := ui_isPlaying w;
     isLoading := isLoading w; playerReadyUI := playerReadyUI w;
     needsUserInteraction := needsUserInteraction w; isYouTubeAPIReady := isYouTubeAPIReady w;
     YT := YT w; playerRef := playerRef w; isPlayerReady := isPlayerReady w;
     latestSessionState := latestSessionState w; lastVersionRef := lastVersionRef w;
     isLocalAction := isLocalAction w; applyingServerUpdate := applyingServerUpdate w;
     isRequestingSync := isRequestingSync w; hasInteracted := hasInteracted w;
     handlerVideoId := handlerVideoId w; socketEffectDep := socketEffectDep w;
     playerEffectDep := playerEffectDep w; playerEffectTimer := playerEffectTimer w;
     surface := surface w; playerDiv := playerDiv w; timers := timers w;
     nextTimerId := nextTimerId w; trace := trace w |}.
Definition set_currentVideoId (v : _) (w : World) : World :=
  {| socket := socket w; currentVideoId := v; ui_isPlaying := ui_isPlaying w;
     isLoading := isLoading w; playerReadyUI := playerReadyUI w;
     needsUserInteraction := needsUserInteraction w; isYouTubeAPIReady := isYouTubeAPIReady w;
     YT := YT w; playerRef := playerRef w; isPlayerReady := isPlayerReady w;
     latestSessionState := latestSessionState w; lastVersionRef := lastVersionRef w;
     isLocalAction := isLocalAction w; applyingServerUpdate := applyingServerUpdate w;
     isRequestingSync := isRequestingSync w; hasInteracted := hasInteracted w;
     handlerVideoId := handlerVideoId w; socketEffectDep := socketEffectDep w;
     playerEffectDep := playerEffectDep w; playerEffectTimer := playerEffectTimer w;
     surface := surface w; playerDiv := playerDiv w; timers := timers w;
     nextTimerId := nextTimerId w; trace := trace w |}.
Definition set_ui_isPlaying (v : _) (w : World) : World :=
  {| socket := socket w; currentVideoId := currentVideoId w; ui_isPlaying := v;
     isLoading := isLoading w; playerReadyUI := playerReadyUI w;
     needsUserInteraction := needsUserInteraction w; isYouTubeAPIReady := isYouTubeAPIReady w;
     YT := YT w; playerRef := playerRef w; isPlayerReady := isPlayerReady w;
     latestSessionState := latestSessionState w; lastVersionRef := lastVersionRef w;
     isLocalAction := isLocalAction w; applyingServerUpdate := applyingServerUpdate w;
     isRequestingSync := isRequestingSync w; hasInteracted := hasInteracted w;
     handlerVideoId := handlerVideoId w; socketEffectDep := socketEffectDep w;
     playerEffectDep := playerEffectDep w; playerEffectTimer := playerEffectTimer w;
     surface := surface w; playerDiv := playerDiv w; timers := timers w;
     nextTimerId := nextTimerId w; trace := trace w |}.
Definition set_isLoading (v : _) (w : World) : World :=
  {| socket := socket w; currentVideoId := currentVideoId w; ui_isPlaying := ui_isPlaying w;
     isLoading := v; playerReadyUI := playerReadyUI w;
     needsUserInteraction := needsUserInteraction w; isYouTubeAPIReady := isYouTubeAPIReady w;
     YT := YT w; playerRef := playerRef w; isPlayerReady := isPlayerReady w;
     latestSessionState := latestSessionState w; lastVersionRef := lastVersionRef w;
     isLocalAction := isLocalAction w; applyingServerUpdate := applyingServerUpdate w;
     isRequestingSync := isRequestingSync w; hasInteracted := hasInteracted w;
     handlerVideoId := handlerVideoId w; socketEffectDep := socketEffectDep w;
     playerEffectDep := playerEffectDep w; playerEffectTimer := playerEffectTimer w;
     surface := surface w; playerDiv := playerDiv w; timers := timers w;
     nextTimerId := nextTimerId w; trace := trace w |}.
Definition set_playerReadyUI (v : _) (w : World) : World :=
  {| socket := socket w; currentVideoId := currentVideoId w; ui_isPlaying := ui_isPlaying w;
     isLoading := isLoading w; playerReadyUI := v; needsUserInteraction := needsUserInteraction w;
     isYouTubeAPIReady := isYouTubeAPIReady w; YT := YT w; playerRef := playerRef w;
     isPlayerReady := isPlayerReady w; latestSessionState := latestSessionState w;
     lastVersionRef := lastVersionRef w; isLocalAction := isLocalAction w;
     applyingServerUpdate := applyingServerUpdate w; isRequestingSync := isRequestingSync w;
     hasInteracted := hasInteracted w; handlerVideoId := handlerVideoId w;
     socketEffectDep := socketEffectDep w; playerEffectDep := playerEffectDep w;
     playerEffectTimer := playerEffectTimer w; surface := surface w; playerDiv := playerDiv w;
     timers := timers w; nextTimerId := nextTimerId w; trace := trace w |}.
Definition set_needsUserInteraction (v : _) (w : World) : World :=
  {| socket := socket w; currentVideoId := currentVideoId w; ui_isPlaying := ui_isPlaying w;
     isLoading := isLoading w; playerReadyUI := playerReadyUI w; needsUserInteraction := v;
     isYouTubeAPIReady := isYouTubeAPIReady w; YT := YT w; playerRef := playerRef w;
     isPlayerReady := isPlayerReady w; latestSessionState := latestSessionState w;
     lastVersionRef := lastVersionRef w; isLocalAction := isLocalAction w;
     applyingServerUpdate := applyingServerUpdate w; isRequestingSync := isRequestingSync w;
     hasInteracted := hasInteracted w; handlerVideoId := handlerVideoId w;
     socketEffectDep := socketEffectDep w; playerEffectDep := playerEffectDep w;
     playerEffectTimer := playerEffectTimer w; surface := surface w; playerDiv := playerDiv w;
     timers := timers w; nextTimerId := nextTimerId w; trace := trace w |}.
Definition set_isYouTubeAPIReady (v : _) (w : World) : World :=
  {| socket := socket w; currentVideoId := currentVideoId w; ui_isPlaying := ui_isPlaying w;
     isLoading := isLoading w; playerReadyUI := playerReadyUI w;
     needsUserInteraction := needsUserInteraction w; isYouTubeAPIReady := v; YT := YT w;
     playerRef := playerRef w; isPlayerReady := isPlayerReady w;
     latestSessionState := latestSessionState w; lastVersionRef := lastVersionRef w;
     isLocalAction := isLocalAction w; applyingServerUpdate := applyingServerUpdate w;
     isRequestingSync := isRequestingSync w; hasInteracted := hasInteracted w;
     handlerVideoId := handlerVideoId w; socketEffectDep := socketEffectDep w;
     playerEffectDep := playerEffectDep w; playerEffectTimer := playerEffectTimer w;
     surface := surface w; playerDiv := playerDiv w; timers := timers w;
     nextTimerId := nextTimerId w; trace := trace w |}.
Definition set_YT (v : _) (w : World) : World :=
  {| socket := socket w; currentVideoId := currentVideoId w; ui_isPlaying := ui_isPlaying w;
     isLoading := isLoading w; playerReadyUI := playerReadyUI w;
     needsUserInteraction := needsUserInteraction w; isYouTubeAPIReady := isYouTubeAPIReady w;
     YT := v; playerRef := playerRef w; isPlayerReady := isPlayerReady w;
     latestSessionState := latestSessionState w; lastVersionRef := lastVersionRef w;
     isLocalAction := isLocalAction w; applyingServerUpdate := applyingServerUpdate w;
     isRequestingSync := isRequestingSync w; hasInteracted := hasInteracted w;
     handlerVideoId := handlerVideoId w; socketEffectDep := socketEffectDep w;
     playerEffectDep := playerEffectDep w; playerEffectTimer := playerEffectTimer w;
     surface := surface w; playerDiv := playerDiv w; timers := timers w;
     nextTimerId := nextTimerId w; trace := trace w |}.
Definition set_playerRef (v : _) (w : World) : World :=
  {| socket := socket w; currentVideoId := currentVideoId w; ui_isPlaying := ui_isPlaying w;
     isLoading := isLoading w; playerReadyUI := playerReadyUI w;
     needsUserInteraction := needsUserInteraction w; isYouTubeAPIReady := isYouTubeAPIReady w;
     YT := YT w; playerRef := v; isPlayerReady := isPlayerReady w;
     latestSessionState := latestSessionState w; lastVersionRef := lastVersionRef w;
     isLocalAction := isLocalAction w; applyingServerUpdate := applyingServerUpdate w;
     isRequestingSync := isRequestingSync w; hasInteracted := hasInteracted w;
     handlerVideoId := handlerVideoId w; socketEffectDep := socketEffectDep w;
     playerEffectDep := playerEffectDep w; playerEffectTimer := playerEffectTimer w;
     surface := surface w; playerDiv := playerDiv w; timers := timers w;
     nextTimerId := nextTimerId w; trace := trace w |}.
Definition set_isPlayerReady (v : _) (w : World) : World :=
  {| socket := socket w; currentVideoId := currentVideoId w; ui_isPlaying := ui_isPlaying w;
     isLoading := isLoading w; playerReadyUI := playerReadyUI w;
     needsUserInteraction := needsUserInteraction w; isYouTubeAPIReady := isYouTubeAPIReady w;
     YT := YT w; playerRef := playerRef w; isPlayerReady := v;
     latestSessionState := latestSessionState w; lastVersionRef := lastVersionRef w;
     isLocalAction := isLocalAction w; applyingServerUpdate := applyingServerUpdate w;
     isRequestingSync := isRequestingSync w; hasInteracted := hasInteracted w;
     handlerVideoId := handlerVideoId w; socketEffectDep := socketEffectDep w;
     playerEffectDep := playerEffectDep w; playerEffectTimer := playerEffectTimer w;
     surface := surface w; playerDiv := playerDiv w; timers := timers w;
     nextTimerId := nextTimerId w; trace := trace w |}.
Definition set_latestSessionState (v : _) (w : World) : World :=
  {| socket := socket w; currentVideoId := currentVideoId w; ui_isPlaying := ui_isPlaying w;
     isLoading := isLoading w; playerReadyUI := playerReadyUI w;
     needsUserInteraction := needsUserInteraction w; isYouTubeAPIReady := isYouTubeAPIReady w;
     YT := YT w; playerRef := playerRef w; isPlayerReady := isPlayerReady w;
     latestSessionState := v; lastVersionRef := lastVersionRef w; isLocalAction := isLocalAction w;
     applyingServerUpdate := applyingServerUpdate w; isRequestingSync := isRequestingSync w;
     hasInteracted := hasInteracted w; handlerVideoId := handlerVideoId w;
     socketEffectDep := socketEffectDep w; playerEffectDep := playerEffectDep w;
     playerEffectTimer := playerEffectTimer w; surface := surface w; playerDiv := playerDiv w;
     timers := timers w; nextTimerId := nextTimerId w; trace := trace w |}.
Definition set_lastVersionRef (v : _) (w : World) : World :=
  {| socket := socket w; currentVideoId := currentVideoId w; ui_isPlaying := ui_isPlaying w;
     isLoading := isLoading w; playerReadyUI := playerReadyUI w;
     needsUserInteraction := needsUserInteraction w; isYouTubeAPIReady := isYouTubeAPIReady w;
     YT := YT w; playerRef := playerRef w; isPlayerReady := isPlayerReady w;
     latestSessionState := latestSessionState w; lastVersionRef := v;
     isLocalAction := isLocalAction w; applyingServerUpdate := applyingServerUpdate w;
     isRequestingSync := isRequestingSync w; hasInteracted := hasInteracted w;
     handlerVideoId := handlerVideoId w; socketEffectDep := socketEffectDep w;
     playerEffectDep := playerEffectDep w; playerEffectTimer := playerEffectTimer w;
     surface := surface w; playerDiv := playerDiv w; timers := timers w;
     nextTimerId := nextTimerId w; trace := trace w |}.
Definition set_isLocalAction (v : _) (w : World) : World :=
  {| socket := socket w; currentVideoId := currentVideoId w; ui_isPlaying := ui_isPlaying w;
     isLoading := isLoading w; playerReadyUI := playerReadyUI w;
     needsUserInteraction := needsUserInteraction w; isYouTubeAPIReady := isYouTubeAPIReady w;
     YT := YT w; playerRef := playerRef w; isPlayerReady := isPlayerReady w;
     latestSessionState := latestSessionState w; lastVersionRef := lastVersionRef w;
     isLocalAction := v; applyingServerUpdate := applyingServerUpdate w;
     isRequestingSync := isRequestingSync w; hasInteracted := hasInteracted w;
     handlerVideoId := handlerVideoId w; socketEffectDep := socketEffectDep w;
     playerEffectDep := playerEffectDep w; playerEffectTimer := playerEffectTimer w;
     surface := surface w; playerDiv := playerDiv w; timers := timers w;
     nextTimerId := nextTimerId w; trace := trace w |}.
Definition set_applyingServerUpdate (v : _) (w : World) : World :=
  {| socket := socket w; currentVideoId := currentVideoId w; ui_isPlaying := ui_isPlaying w;
     isLoading := isLoading w; playerReadyUI := playerReadyUI w;
     needsUserInteraction := needsUserInteraction w; isYouTubeAPIReady := isYouTubeAPIReady w;
     YT := YT w; playerRef := playerRef w; isPlayerReady := isPlayerReady w;
     latestSessionState := latestSessionState w; lastVersionRef := lastVersionRef w;
     isLocalAction := isLocalAction w; applyingServerUpdate := v;
     isRequestingSync := isRequestingSync w; hasInteracted := hasInteracted w;
     handlerVideoId := handlerVideoId w; socketEffectDep := socketEffectDep w;
     playerEffectDep := playerEffectDep w; playerEffectTimer := playerEffectTimer w;
     surface := surface w; playerDiv := playerDiv w; timers := timers w;
     nextTimerId := nextTimerId w; trace := trace w |}.
Definition set_isRequestingSync (v : _) (w : World) : World :=
  {| socket := socket w; currentVideoId := currentVideoId w; ui_isPlaying := ui_isPlaying w;
     isLoading := isLoading w; playerReadyUI := playerReadyUI w;
     needsUserInteraction := needsUserInteraction w; isYouTubeAPIReady := isYouTubeAPIReady w;
     YT := YT w; playerRef := playerRef w; isPlayerReady := isPlayerReady w;
     latestSessionState := latestSessionState w; lastVersionRef := lastVersionRef w;
     isLocalAction := isLocalAction w; applyingServerUpdate := applyingServerUpdate w;
     isRequestingSync := v; hasInteracted := hasInteracted w; handlerVideoId := handlerVideoId w;
     socketEffectDep := socketEffectDep w; playerEffectDep := playerEffectDep w;
     playerEffectTimer := playerEffectTimer w; surface := surface w; playerDiv := playerDiv w;
     timers := timers w; nextTimerId := nextTimerId w; trace := trace w |}.
Definition set_hasInteracted (v : _) (w : World) : World :=
  {| socket := socket w; currentVideoId := currentVideoId w; ui_isPlaying := ui_isPlaying w;
     isLoading := isLoading w; playerReadyUI := playerReadyUI w;
     needsUserInteraction := needsUserInteraction w; isYouTubeAPIReady := isYouTubeAPIReady w;
     YT := YT w; playerRef := playerRef w; isPlayerReady := isPlayerReady w;
     latestSessionState := latestSessionState w; lastVersionRef := lastVersionRef w;
     isLocalAction := isLocalAction w; applyingServerUpdate := applyingServerUpdate w;
     isRequestingSync := isRequestingSync w; hasInteracted := v;
     handlerVideoId := handlerVideoId w; socketEffectDep := socketEffectDep w;
     playerEffectDep := playerEffectDep w; playerEffectTimer := playerEffectTimer w;
     surface := surface w; playerDiv := playerDiv w; timers := timers w;
     nextTimerId := nextTimerId w; trace := trace w |}.
Definition set_handlerVideoId (v : _) (w : World) : World :=
  {| socket := socket w; currentVideoId := currentVideoId w; ui_isPlaying := ui_isPlaying w;
     isLoading := isLoading w; playerReadyUI := playerReadyUI w;
     needsUserInteraction := needsUserInteraction w; isYouTubeAPIReady := isYouTubeAPIReady w;
     YT := YT w; playerRef := playerRef w; isPlayerReady := isPlayerReady w;
     latestSessionState := latestSessionState w; lastVersionRef := lastVersionRef w;
     isLocalAction := isLocalAction w; applyingServerUpdate := applyingServerUpdate w;
     isRequestingSync := isRequestingSync w; hasInteracted := hasInteracted w; handlerVideoId := v;
     socketEffectDep := socketEffectDep w; playerEffectDep := playerEffectDep w;
     playerEffectTimer := playerEffectTimer w; surface := surface w; playerDiv := playerDiv w;
     timers := timers w; nextTimerId := nextTimerId w; trace := trace w |}.
Definition set_socketEffectDep (v : _) (w : World) : World :=
  {| socket := socket w; currentVideoId := currentVideoId w; ui_isPlaying := ui_isPlaying w;
     isLoading := isLoading w; playerReadyUI := playerReadyUI w;
     needsUserInteraction := needsUserInteraction w; isYouTubeAPIReady := isYouTubeAPIReady w;
     YT := YT w; playerRef := playerRef w; isPlayerReady := isPlayerReady w;
     latestSessionState := latestSessionState w; lastVersionRef := lastVersionRef w;
     isLocalAction := isLocalAction w; applyingServerUpdate := applyingServerUpdate w;
     isRequestingSync := isRequestingSync w; hasInteracted := hasInteracted w;
     handlerVideoId := handlerVideoId w; socketEffectDep := v;
     playerEffectDep := playerEffectDep w; playerEffectTimer := playerEffectTimer w;
     surface := surface w; playerDiv := playerDiv w; timers := timers w;
     nextTimerId := nextTimerId w; trace := trace w |}.
Definition set_playerEffectDep (v : _) (w : World) : World :=
  {| socket := socket w; currentVideoId := currentVideoId w; ui_isPlaying := ui_isPlaying w;
     isLoading := isLoading w; playerReadyUI := playerReadyUI w;
     needsUserInteraction := needsUserInteraction w; isYouTubeAPIReady := isYouTubeAPIReady w;
     YT := YT w; playerRef := playerRef w; isPlayerReady := isPlayerReady w;
     latestSessionState := latestSessionState w; lastVersionRef := lastVersionRef w;
     isLocalAction := isLocalAction w; applyingServerUpdate := applyingServerUpdate w;
     isRequestingSync := isRequestingSync w; hasInteracted := hasInteracted w;
     handlerVideoId := handlerVideoId w; socketEffectDep := socketEffectDep w;
     playerEffectDep := v; playerEffectTimer := playerEffectTimer w; surface := surface w;
     playerDiv := playerDiv w; timers := timers w; nextTimerId := nextTimerId w;
     trace := trace w |}.
Definition set_playerEffectTimer (v : _) (w : World) : World :=
  {| socket := socket w; currentVideoId := currentVideoId w; ui_isPlaying := ui_isPlaying w;
     isLoading := isLoading w; playerReadyUI := playerReadyUI w;
     needsUserInteraction := needsUserInteraction w; isYouTubeAPIReady := isYouTubeAPIReady w;
     YT := YT w; playerRef := playerRef w; isPlayerReady := isPlayerReady w;
     latestSessionState := latestSessionState w; lastVersionRef := lastVersionRef w;
     isLocalAction := isLocalAction w; applyingServerUpdate := applyingServerUpdate w;
     isRequestingSync := isRequestingSync w; hasInteracted := hasInteracted w;
     handlerVideoId := handlerVideoId w; socketEffectDep := socketEffectDep w;
     playerEffectDep := playerEffectDep w; playerEffectTimer := v; surface := surface w;
     playerDiv := playerDiv w; timers := timers w; nextTimerId := nextTimerId w;
     trace := trace w |}.
Definition set_surface (v : _) (w : World) : World :=
  {| socket := socket w; currentVideoId := currentVideoId w; ui_isPlaying := ui_isPlaying w;
     isLoading := isLoading w; playerReadyUI := playerReadyUI w;
     needsUserInteraction := needsUserInteraction w; isYouTubeAPIReady := isYouTubeAPIReady w;
     YT := YT w; playerRef := playerRef w; isPlayerReady := isPlayerReady w;
     latestSessionState := latestSessionState w; lastVersionRef := lastVersionRef w;
     isLocalAction := isLocalAction w; applyingServerUpdate := applyingServerUpdate w;
     isRequestingSync := isRequestingSync w; hasInteracted := hasInteracted w;
     handlerVideoId := handlerVideoId w; socketEffectDep := socketEffectDep w;
     playerEffectDep := playerEffectDep w; playerEffectTimer := playerEffectTimer w; surface := v;
     playerDiv := playerDiv w; timers := timers w; nextTimerId := nextTimerId w;
     trace := trace w |}.
Definition set_playerDiv (v : _) (w : World) : World :=
  {| socket := socket w; currentVideoId := currentVideoId w; ui_isPlaying := ui_isPlaying w;
     isLoading := isLoading w; playerReadyUI := playerReadyUI w;
     needsUserInteraction := needsUserInteraction w; isYouTubeAPIReady := isYouTubeAPIReady w;
     YT := YT w; playerRef := playerRef w; isPlayerReady := isPlayerReady w;
     latestSessionState := latestSessionState w; lastVersionRef := lastVersionRef w;
     isLocalAction := isLocalAction w; applyingServerUpdate := applyingServerUpdate w;
     isRequestingSync := isRequestingSync w; hasInteracted := hasInteracted w;
     handlerVideoId := handlerVideoId w; socketEffectDep := socketEffectDep w;
     playerEffectDep := playerEffectDep w; playerEffectTimer := playerEffectTimer w;
     surface := surface w; playerDiv := v; timers := timers w; nextTimerId := nextTimerId w;
     trace := trace w |}.
Definition set_timers (v : _) (w : World) : World :=
  {| socket := socket w; currentVideoId := currentVideoId w; ui_isPlaying := ui_isPlaying w;
     isLoading := isLoading w; playerReadyUI := playerReadyUI w;
     needsUserInteraction := needsUserInteraction w; isYouTubeAPIReady := isYouTubeAPIReady w;
     YT := YT w; playerRef := playerRef w; isPlayerReady := isPlayerReady w;
     latestSessionState := latestSessionState w; lastVersionRef := lastVersionRef w;
     isLocalAction := isLocalAction w; applyingServerUpdate := applyingServerUpdate w;
     isRequestingSync := isRequestingSync w; hasInteracted := hasInteracted w;
     handlerVideoId := handlerVideoId w; socketEffectDep := socketEffectDep w;
     playerEffectDep := playerEffectDep w; playerEffectTimer := playerEffectTimer w;
     surface := surface w; playerDiv := playerDiv w; timers := v; nextTimerId := nextTimerId w;
     trace := trace w |}.
Definition set_nextTimerId (v : _) (w : World) : World :=
  {| socket := socket w; currentVideoId := currentVideoId w; ui_isPlaying := ui_isPlaying w;
     isLoading := isLoading w; playerReadyUI := playerReadyUI w;
     needsUserInteraction := needsUserInteraction w; isYouTubeAPIReady := isYouTubeAPIReady w;
     YT := YT w; playerRef := playerRef w; isPlayerReady := isPlayerReady w;
     latestSessionState := latestSessionState w; lastVersionRef := lastVersionRef w;
     isLocalAction := isLocalAction w; applyingServerUpdate := applyingServerUpdate w;
     isRequestingSync := isRequestingSync w; hasInteracted := hasInteracted w;
     handlerVideoId := handlerVideoId w; socketEffectDep := socketEffectDep w;
     playerEffectDep := playerEffectDep w; playerEffectTimer := playerEffectTimer w;
     surface := surface w; playerDiv := playerDiv w; timers := timers w; nextTimerId := v;
     trace := trace w |}.
Definition set_trace (v : _) (w : World) : World :=
  {| socket := socket w; currentVideoId := currentVideoId w; ui_isPlaying := ui_isPlaying w;
     isLoading := isLoading w; playerReadyUI := playerReadyUI w;
     needsUserInteraction := needsUserInteraction w; isYouTubeAPIReady := isYouTubeAPIReady w;
     YT := YT w; playerRef := playerRef w; isPlayerReady := isPlayerReady w;
     latestSessionState := latestSessionState w; lastVersionRef := lastVersionRef w;
     isLocalAction := isLocalAction w; applyingServerUpdate := applyingServerUpdate w;
     isRequestingSync := isRequestingSync w; hasInteracted := hasInteracted w;
     handlerVideoId := handlerVideoId w; socketEffectDep := socketEffectDep w;
     playerEffectDep := playerEffectDep w; playerEffectTimer := playerEffectTimer w;
     surface := surface w; playerDiv := playerDiv w; timers := timers w;
     nextTimerId := nextTimerId w; trace := v |}.

(** ** The handler monad *)

(** A handler either completes with a value or lets an exception escape;
    in both cases the world it has reached is kept. *)
Inductive Outcome (A : Type) : Type :=
| Ok (a : A)
| Thrown.
Arguments Ok {A} a.
Arguments Thrown {A}.

Definition M (A : Type) : Type := World -> Outcome A * World.

Definition ret {A : Type} (a : A) : M A := fun w => (Ok a, w).

Definition bind {A B : Type} (m : M A) (k : A -> M B) : M B :=
  fun w =>
    match m w with
    | (Ok a, w') => k a w'
    | (Thrown, w') => (Thrown, w')
    end.

Definition throw {A : Type} : M A := fun w => (Thrown, w).

(** [try { body } catch (e) { handler }] *)
Definition try_catch (body handler : M unit) : M unit :=
  fun w =>
    match body w with
    | (Ok a, w') => (Ok a, w')
    | (Thrown, w') => handler w'
    end.

Definition get {A : Type} (f : World -> A) : M A := fun w => (Ok (f w), w).

Definition modify (f : World -> World) : M unit := fun w => (Ok tt, f w).

Declare Scope js_scope.
Delimit Scope js_scope with js.
Notation "x <- m ;; k" := (bind m (fun x => k))
  (at level 61, m at next level, right associativity) : js_scope.
Notation "m ;; k" := (bind m (fun _ => k))
  (at level 61, right associativity) : js_scope.
Local Open Scope js_scope.

Definition when (b : bool) (m : M unit) : M unit := if b then m else ret tt.

Definition isSome {A : Type} (o : option A) : bool :=
  match o with Some _ => true | None => false end.

(** ** Primitive effects *)

Definition record (e : Effect) : M unit :=
  modify (fun w => set_trace (trace w ++ [e]) w).

(** [playerRef.current.method(...)]: the call is made on the current player
    (a [TypeError] when there is none) and may throw. *)
Definition call (c : SurfaceCall) : M unit :=
  p <- get playerRef ;;
  match p with
  | None => throw
  | Some _ =>
      record (Call c) ;;
      s <- get surface ;;
      if sf_throws s c then throw else ret tt
  end.

Definition getCurrentTime : M float :=
  call GetCurrentTime ;;
  s <- get surface ;;
  ret (sf_time s).

Definition seekTo (seconds : float) (allowSeekAhead : bool) : M unit :=
  call (SeekTo seconds allowSeekAhead).
Definition playVideo : M unit := call PlayVideo.
Definition pauseVideo : M unit := call PauseVideo.

(** [socket.emit(...)] *)
Definition emit (i : Intent) : M unit := record (Emit i).

Definition logError (msg : string) : M unit := record (Note (LogError msg)).
Definition toastError (msg : string) : M unit := record (Note (ToastError msg)).
Definition toastSuccess (msg : string) : M unit := record (Note (ToastSuccess msg)).

Definition setTimeout (cb : Callback) (delay : Z) : M nat :=
  fun w =>
    let id := nextTimerId w in
    (Ok id,
     set_nextTimerId (S id)
       (set_timers (timers w ++ [mkTimer id delay cb]) w)).

Definition clearTimeout (id : nat) : M unit :=
  modify (fun w =>
    set_timers (filter (fun t => negb (Nat.eqb (t_id t) id)) (timers w)) w).

(** React state setters. *)
Definition setCurrentVideoId (v : string) : M unit := modify (set_currentVideoId v).
Definition setIsPlaying (b : bool) : M unit := modify (set_ui_isPlaying b).
Definition setIsLoading (b : bool) : M unit := modify (set_isLoading b).
Definition setPlayerReadyUI (b : bool) : M unit := modify (set_playerReadyUI b).
Definition setNeedsUserInteraction (b : bool) : M unit :=
  modify (set_needsUserInteraction b).
Definition setIsYouTubeAPIReady (b : bool) : M unit := modify (set_isYouTubeAPIReady b).
Definition setSocket (s : Socket) : M unit := modify (set_socket (Some s)).

(** ** Helper functions (App.js 90-145) *)

(** [computeTargetTime] *)
Definition computeTargetTime (snapshot : Snapshot) : float :=
  if negb (isPlaying snapshot) then playbackTimeAtLastEvent snapshot
  else
    let elapsedMs := (serverTime snapshot - lastEventAt snapshot)%float in
    (playbackTimeAtLastEvent snapshot + elapsedMs / 1000)%float.

(** [applySnapshot] *)
Definition applySnapshot (snapshot : Snapshot) : M unit :=
  p <- get playerRef ;;
  r <- get isPlayerReady ;;
  if negb (isSome p) || negb r then
    modify (set_latestSessionState (Some snapshot))
  else
    modify (set_applyingServerUpdate true) ;;
    let targetTime := computeTargetTime snapshot in
    currentTime <- getCurrentTime ;;
    let drift := abs (targetTime - currentTime)%float in
    when (0.35 <? drift)%float (seekTo targetTime true) ;;
    (if isPlaying snapshot
     then playVideo ;; setIsPlaying true
     else pauseVideo ;; setIsPlaying false) ;;
    _ <- setTimeout ClearApplyingServerUpdate 200 ;;
    ret tt.

(** ** The ['session:state'] listener (App.js 252-320) *)

(** [snapshot.videoId && snapshot.videoId !== currentVideoId], with the
    [currentVideoId] of the listener's closure. *)
Definition videoChanged (snapshot : Snapshot) (captured : string) : bool :=
  match videoId snapshot with
  | None => false
  | Some v => negb (String.eqb v "") && negb (String.eqb v captured)
  end.

(** Lines 288-319: the four cases. *)
Definition disposition (snapshot : Snapshot) : M unit :=
  sync <- get isRequestingSync ;;
  p <- get playerRef ;;
  r <- get isPlayerReady ;;
  interacted <- get hasInteracted ;;
  applying <- get applyingServerUpdate ;;
  localAct <- get isLocalAction ;;
  if sync && isSome p && r then
    applySnapshot snapshot ;;
    modify (set_isRequestingSync false)
  else if isPlaying snapshot && negb interacted then
    setNeedsUserInteraction true ;;
    modify (set_latestSessionState (Some snapshot))
  else if isSome p && r && negb applying && negb localAct then
    applySnapshot snapshot
  else
    ret tt.

(** Lines 268-319: what runs once the version filter has let the snapshot
    through. *)
Definition handleFreshSnapshot (snapshot : Snapshot) : M unit :=
  captured <- get handlerVideoId ;;
  (if videoChanged snapshot captured then
     match videoId snapshot with
     | Some v => setCurrentVideoId v
     | None => ret tt
     end ;;
     interacted <- get hasInteracted ;;
     when (isPlaying snapshot && negb interacted) (setNeedsUserInteraction true)
   else ret tt) ;;
  r <- get isPlayerReady ;;
  if negb r then
    modify (set_latestSessionState (Some snapshot))
  else
    disposition snapshot.

(** The listener.  Its debug [log] calls have no effect on the engine. *)
Definition onSessionState (snapshot : Snapshot) : M unit :=
  last <- get lastVersionRef ;;
  if version snapshot <=? last then ret tt
  else
    modify (set_lastVersionRef (version snapshot)) ;;
    handleFreshSnapshot snapshot.

(** The other listeners of the socket effect (lines 218-238). *)
Definition setConnected (b : bool) : M unit :=
  modify (fun w =>
    match socket w with
    | Some _ => set_socket (Some (mkSocket b)) w
    | None => w
    end).

Definition onConnect : M unit :=
  setConnected true ;; toastSuccess "Connected to watch party!".

Definition onConnectError : M unit :=
  logError "Socket connection error:" ;;
  toastError "Failed to connect to server. Retrying...".

Definition onDisconnect (serverInitiated : bool) : M unit :=
  setConnected false ;;
  if serverInitiated then ret tt       (* [newSocket.connect()] *)
  else toastError "Disconnected from server".

(** ** Player life cycle (App.js 352-437) *)

(** [new YT.current.Player('youtube-player', {videoId, ...})] assigned to
    [playerRef.current]; the assignment is skipped when the constructor
    throws. *)
Definition construct (vid : string) : M unit :=
  record (Call (Construct vid)) ;;
  s <- get surface ;;
  if sf_throws s (Construct vid) then throw
  else modify (set_playerRef (Some (mkPlayer vid))).

(** [initPlayer], closed over the effect's [currentVideoId]. *)
Definition initPlayer (vid : string) : M unit :=
  found <- get playerDiv ;;
  if negb found then
    logError "Player div not found! Retrying..." ;;
    _ <- setTimeout (InitPlayer vid) 500 ;;
    ret tt
  else
    p <- get playerRef ;;
    when (isSome p)
      (try_catch (call Destroy) (logError "Error destroying old player:")) ;;
    try_catch (construct vid)
      (logError "Failed to create player:" ;;
       toastError "Failed to initialize video player").

(** The [onReady] callback of the player. *)
Definition onReady : M unit :=
  modify (set_isPlayerReady true) ;;
  setPlayerReadyUI true ;;
  queued <- get latestSessionState ;;
  match queued with
  | Some snapshot =>
      applySnapshot snapshot ;;
      modify (set_latestSessionState None)
  | None => ret tt
  end.

(** The [onError] callback of the player. *)
Definition onPlayerError : M unit :=
  logError "YouTube player error:" ;;
  toastError "Video failed to load".

(** [onPlayerStateChange] *)
Definition onPlayerStateChange (data : Z) : M unit :=
  if data =? 1 then setIsPlaying true
  else if data =? 2 then setIsPlaying false
  else if data =? 3 then setIsLoading true
  else ret tt.

(** The body of [useEffect(..., [currentVideoId])]. *)
Definition playerEffect : M unit :=
  vid <- get currentVideoId ;;
  yt <- get YT ;;
  if String.eqb vid "" || negb yt then
    modify (set_playerEffectTimer None)
  else
    modify (set_isPlayerReady false) ;;
    setPlayerReadyUI false ;;
    timer <- setTimeout (InitPlayer vid) 100 ;;
    modify (set_playerEffectTimer (Some timer)).

(** Its cleanup: [clearTimeout(timer)]. *)
Definition playerEffectCleanup : M unit :=
  t <- get playerEffectTimer ;;
  match t with
  | Some id => clearTimeout id
  | None => ret tt
  end.

(** The body of [useEffect(..., [isYouTubeAPIReady])]: the socket is created
    and its listeners close over the [currentVideoId] of this render. *)
Definition socketEffect : M unit :=
  ready <- get isYouTubeAPIReady ;;
  if negb ready then ret tt
  else
    vid <- get currentVideoId ;;
    modify (set_handlerVideoId vid) ;;
    setSocket (mkSocket false).

(** [window.onYouTubeIframeAPIReady] *)
Definition onYouTubeIframeAPIReady : M unit :=
  modify (set_YT true) ;;
  setIsYouTubeAPIReady true.

(** A React commit: the JSX renders the player container exactly when
    [currentVideoId] is non-empty, then every effect whose dependency
    changed runs, in declaration order. *)
Definition commit : M unit :=
  vid <- get currentVideoId ;;
  modify (set_playerDiv (negb (String.eqb vid ""))) ;;
  api <- get isYouTubeAPIReady ;;
  apiDep <- get socketEffectDep ;;
  when (negb (Bool.eqb api apiDep))
    (modify (set_socketEffectDep api) ;; socketEffect) ;;
  vidDep <- get playerEffectDep ;;
  when (negb (String.eqb vid vidDep))
    (modify (set_playerEffectDep vid) ;; playerEffectCleanup ;; playerEffect).

(** ** Event handlers of the controls (App.js 447-541) *)

Definition socketConnected (w : World) : bool :=
  match socket w with
  | Some s => connected s
  | None => false
  end.

(** [!playerRef.current || !socket || !socket.connected] *)
Definition controlsUnavailable (w : World) : bool :=
  negb (isSome (playerRef w)) || negb (isSome (socket w)) || negb (socketConnected w).

(** [x || 0] on a number: zero and NaN are falsy. *)
Definition orZero (x : float) : float :=
  if is_zero x || is_nan x then 0%float else x.

(** [handleVideoSubmit], given the content of the URL field. *)
Definition handleVideoSubmit (videoUrl : string) : M unit :=
  online <- get socketConnected ;;
  if negb online then
    toastError "Not connected to server. Please wait..."
  else if negb (String.eqb videoUrl "") then
    p <- get playerRef ;;
    currentTime <- match p with
                   | Some _ => t <- getCurrentTime ;; ret (orZero t)
                   | None => ret 0%float
                   end ;;
    playing <- get ui_isPlaying ;;
    emit (IChangeVideo videoUrl currentTime playing)
  else ret tt.

Definition handlePlay : M unit :=
  blocked <- get controlsUnavailable ;;
  if blocked then ret tt
  else
    modify (set_isLocalAction true) ;;
    modify (set_hasInteracted true) ;;
    setNeedsUserInteraction false ;;
    currentTime <- getCurrentTime ;;
    playVideo ;;
    emit (IPlay currentTime) ;;
    setIsPlaying true ;;
    _ <- setTimeout ClearLocalAction 100 ;;
    ret tt.

Definition handleSyncToSession : M unit :=
  modify (set_hasInteracted true) ;;
  setNeedsUserInteraction false ;;
  modify (set_isRequestingSync true) ;;
  online <- get socketConnected ;;
  when online (emit IRequestSessionState) ;;
  queued <- get latestSessionState ;;
  p <- get playerRef ;;
  r <- get isPlayerReady ;;
  match queued with
  | Some snapshot =>
      if isSome p && r then
        applySnapshot snapshot ;;
        modify (set_isRequestingSync false)
      else ret tt
  | None => ret tt
  end.

Definition handlePause : M unit :=
  blocked <- get controlsUnavailable ;;
  if blocked then ret tt
  else
    modify (set_isLocalAction true) ;;
    currentTime <- getCurrentTime ;;
    pauseVideo ;;
    emit (IPause currentTime) ;;
    setIsPlaying false ;;
    _ <- setTimeout ClearLocalAction 100 ;;
    ret tt.

Definition handleSeek (seconds : float) : M unit :=
  blocked <- get controlsUnavailable ;;
  if blocked then ret tt
  else
    modify (set_isLocalAction true) ;;
    now <- getCurrentTime ;;
    let currentTime := (now + seconds)%float in
    seekTo currentTime true ;;
    emit (ISeek currentTime) ;;
    _ <- setTimeout ClearLocalAction 100 ;;
    ret tt.

(** ** The event loop *)

Definition runCallback (cb : Callback) : M unit :=
  match cb with
  | ClearApplyingServerUpdate => modify (set_applyingServerUpdate false)
  | ClearLocalAction => modify (set_isLocalAction false)
  | InitPlayer vid => initPlayer vid
  end.

(** A pending timer fires: it leaves the timer table, its callback runs. *)
Definition fireTimer (id : nat) : M unit :=
  ts <- get timers ;;
  match find (fun t => Nat.eqb (t_id t) id) ts with
  | Some t => clearTimeout id ;; runCallback (t_callback t)
  | None => ret tt
  end.

Inductive Event : Type :=
| EvYouTubeAPIReady
| EvCommit
| EvConnect
| EvConnectError
| EvDisconnect (serverInitiated : bool)
| EvSessionState (snapshot : Snapshot)
| EvPlayerReady
| EvPlayerError
| EvPlayerStateChange (data : Z)
| EvTimer (id : nat)
| EvVideoSubmit (videoUrl : string)
| EvPlay
| EvPause
| EvSeek (seconds : float)
| EvSyncToSession
| EvSurface (s : Surface)       (* the player's position or health changes *)
| EvDom (present : bool).       (* the container is added or removed from outside *)

(** Socket listeners exist once the socket does, player callbacks once a
    player has been constructed. *)
Definition handler (e : Event) : M unit :=
  match e with
  | EvYouTubeAPIReady => onYouTubeIframeAPIReady
  | EvCommit => commit
  | EvConnect => s <- get socket ;; when (isSome s) onConnect
  | EvConnectError => s <- get socket ;; when (isSome s) onConnectError
  | EvDisconnect b => s <- get socket ;; when (isSome s) (onDisconnect b)
  | EvSessionState snapshot => s <- get socket ;; when (isSome s) (onSessionState snapshot)
  | EvPlayerReady => p <- get playerRef ;; when (isSome p) onReady
  | EvPlayerError => p <- get playerRef ;; when (isSome p) onPlayerError
  | EvPlayerStateChange d => p <- get playerRef ;; when (isSome p) (onPlayerStateChange d)
  | EvTimer id => fireTimer id
  | EvVideoSubmit videoUrl => handleVideoSubmit videoUrl
  | EvPlay => handlePlay
  | EvPause => handlePause
  | EvSeek seconds => handleSeek seconds
  | EvSyncToSession => handleSyncToSession
  | EvSurface s => modify (set_surface s)
  | EvDom b => modify (set_playerDiv b)
  end.

(** An exception that escapes a handler is reported by the runtime and the
    event loop goes on from the world the handler reached. *)
Definition step (e : Event) (w : World) : World := snd (handler e w).

Definition run (es : list Event) (w : World) : World :=
  fold_left (fun w e => step e w) es w.

Definition healthySurface : Surface := mkSurface 0 (fun _ => false).

(** The component right after its first render. *)
Definition init : World :=
  {| socket := None; currentVideoId := ""; ui_isPlaying := false; isLoading := false;
     playerReadyUI := false; needsUserInteraction := false; isYouTubeAPIReady := false;
     YT := false; playerRef := None; isPlayerReady := false; latestSessionState := None;
     lastVersionRef := 0; isLocalAction := false; applyingServerUpdate := false;
     isRequestingSync := false; hasInteracted := false; handlerVideoId := "";
     socketEffectDep := false; playerEffectDep := ""; playerEffectTimer := None;
     surface := healthySurface; playerDiv := false; timers := []; nextTimerId := 0%nat;
     trace := [] |}.

Definition reachable (w : World) : Prop := exists es, run es init = w.

(** * Vocabulary of the statements *)

(** ** Effects, outcomes and worlds to compare with *)

(** Every call the surface receives returns normally. *)
Definition healthy (w : World) : Prop := forall c, sf_throws (surface w) c = false.

(** The effects a computation adds to the trace. *)
Definition emitted {A : Type} (m : M A) (w : World) : list Effect :=
  skipn (List.length (trace w)) (trace (snd (m w))).

Definition isSeek (e : Effect) : bool :=
  match e with Call (SeekTo _ _) => true | _ => false end.

Definition isPlayOrPause (e : Effect) : bool :=
  match e with Call PlayVideo | Call PauseVideo => true | _ => false end.

(** The calls [applySnapshot] makes when the player reports position [now]. *)
Definition applyCalls (s : Snapshot) (now : float) : list Effect :=
  let target := computeTargetTime s in
  Call GetCurrentTime ::
  (if (0.35 <? abs (target - now))%float then [Call (SeekTo target true)] else []) ++
  [Call (if isPlaying s then PlayVideo else PauseVideo)].

(** The world [applySnapshot] leaves when every call succeeds. *)
Definition applied (s : Snapshot) (w : World) : World :=
  set_nextTimerId (S (nextTimerId w))
    (set_timers (timers w ++ [mkTimer (nextTimerId w) 200 ClearApplyingServerUpdate])
       (set_ui_isPlaying (isPlaying s)
          (set_trace (trace w ++ applyCalls s (sf_time (surface w)))
             (set_applyingServerUpdate true w)))).

(** The three local controls. *)
Inductive Control : Type :=
| CPlay
| CPause
| CSeek (seconds : float).

Definition handle (c : Control) : M unit :=
  match c with
  | CPlay => handlePlay
  | CPause => handlePause
  | CSeek seconds => handleSeek seconds
  end.

(** The surface command and the intent of a control, at position [now]. *)
Definition controlEffects (c : Control) (now : float) : list Effect :=
  match c with
  | CPlay => [Call GetCurrentTime; Call PlayVideo; Emit (IPlay now)]
  | CPause => [Call GetCurrentTime; Call PauseVideo; Emit (IPause now)]
  | CSeek seconds =>
      [Call GetCurrentTime; Call (SeekTo (now + seconds)%float true);
       Emit (ISeek (now + seconds)%float)]
  end.

(** The fields a successful control writes besides the flag, the trace and
    the timer. *)
Definition controlState (c : Control) (w : World) : World :=
  match c with
  | CPlay =>
      set_ui_isPlaying true
        (set_needsUserInteraction false (set_hasInteracted true w))
  | CPause => set_ui_isPlaying false w
  | CSeek _ => w
  end.

(** The world a control leaves when every call succeeds. *)
Definition controlled (c : Control) (w : World) : World :=
  set_nextTimerId (S (nextTimerId w))
    (set_timers (timers w ++ [mkTimer (nextTimerId w) 100 ClearLocalAction])
       (set_trace (trace w ++ controlEffects c (sf_time (surface w)))
          (controlState c (set_isLocalAction true w)))).

(** ** The construction retry *)

Definition retryNotice : Effect := Note (LogError "Player div not found! Retrying...").

(** Timer identifiers already handed out are below [nextTimerId]. *)
Definition timersFresh (w : World) : Prop :=
  forall t, In t (timers w) -> (t_id t < nextTimerId w)%nat.

(** The world after [k + 1] attempts that all found the container missing;
    [ts] are the other pending timers and [n] is [nextTimerId] before the
    first attempt. *)
Definition retrying (vid : string) (ts : list Timer) (n : nat) (k : nat) (w : World) : World :=
  set_nextTimerId (S (n + k))
    (set_timers (ts ++ [mkTimer (n + k) 500 (InitPlayer vid)])
       (set_trace (trace w ++ repeat retryNotice (S k)) w)).

(** The pending construction timer [id] fires, then [k] retries fire, one
    after the other. *)
Definition retries (id : nat) (k : nat) (w : World) : World :=
  run (EvTimer id :: map EvTimer (seq (nextTimerId w) k)) w.

(** ** The flush on readiness, as the specification words it *)

(** The queued snapshot goes through the listener's disposition, and the
    queue is then cleared. *)
Definition onReady_spec_disposition : M unit :=
  modify (set_isPlayerReady true) ;;
  setPlayerReadyUI true ;;
  queued <- get latestSessionState ;;
  match queued with
  | Some snapshot =>
      disposition snapshot ;;
      modify (set_latestSessionState None)
  | None => ret tt
  end.

(** The same, with the version filter of a freshly arrived snapshot in
    front of the disposition. *)
Definition onReady_spec_listener : M unit :=
  modify (set_isPlayerReady true) ;;
  setPlayerReadyUI true ;;
  queued <- get latestSessionState ;;
  match queued with
  | Some snapshot =>
      onSessionState snapshot ;;
      modify (set_latestSessionState None)
  | None => ret tt
  end.

(** ** Relations between the start and the end of a handler *)

Definition respects (R : World -> World -> Prop) {A : Type} (m : M A) : Prop :=
  forall w, R w (snd (m w)).

Definition versionGrows (w w' : World) : Prop :=
  lastVersionRef w <= lastVersionRef w'.

Definition sameVersion (w w' : World) : Prop := lastVersionRef w' = lastVersionRef w.

Definition keepsFresh (w w' : World) : Prop := timersFresh w -> timersFresh w'.

(** ** Scenarios *)

Definition snapshotV1 : Snapshot := mkSnapshot 1 (Some "dQw4w9WgXcQ") true 10 1000 1200.
Definition pausedV1 : Snapshot := mkSnapshot 1 (Some "dQw4w9WgXcQ") false 0 1000 1000.
Definition playingV2 : Snapshot := mkSnapshot 2 None true 0 2000 2000.
(** Version 2 names another video. *)
Definition switchV2 : Snapshot := mkSnapshot 2 (Some "9bZkp7q19f0") false 50 2000 2000.
Definition pausedV3 : Snapshot := mkSnapshot 3 None false 60 3000 3000.

(** The API has loaded and the socket is connected. *)
Definition boot : list Event := [EvYouTubeAPIReady; EvCommit; EvConnect].

(** A new joiner of a paused session: the player has been constructed and
    the first snapshot waits for [onReady]. *)
Definition joiningPaused : World :=
  run (boot ++ [EvSessionState pausedV1; EvCommit; EvTimer 0]) init.

(** A new joiner of a playing session. *)
Definition joiningPlaying : World :=
  run (boot ++ [EvSessionState snapshotV1; EvCommit; EvTimer 0]) init.

(** The player became ready for the paused session and the timer that
    clears [applyingServerUpdate] has fired. *)
Definition readyWorld : World := run [EvPlayerReady; EvTimer 1] joiningPaused.

(** The same player, before the socket has connected. *)
Definition offlineWorld : World :=
  run [EvYouTubeAPIReady; EvCommit; EvSessionState pausedV1; EvCommit; EvTimer 0;
       EvPlayerReady; EvTimer 1] init.

(** A media switch: the new player has been constructed, version 3 waits
    for [onReady], and the timer that clears [applyingServerUpdate] has not
    fired yet. *)
Definition switching : World :=
  run [EvSessionState switchV2; EvCommit; EvTimer 3; EvSessionState pausedV3] readyWorld.

(** A player whose [playVideo] throws. *)
Definition brokenPlay : Surface :=
  mkSurface 0 (fun c => match c with PlayVideo => true | _ => false end).

Definition brokenWorld : World := step (EvSurface brokenPlay) readyWorld.

(** The construction timer is pending and the container has been removed. *)
Definition containerMissing : World :=
  run (boot ++ [EvSessionState snapshotV1; EvCommit; EvDom false]) init.

(** ** A flag nothing is left to clear *)

Definition isControl (e : Event) : bool :=
  match e with EvPlay | EvPause | EvSeek _ => true | _ => false end.

(** [isLocalAction] is up and no pending timer would lower it. *)
Definition localStuck (w : World) : Prop :=
  isLocalAction w = true /\
  forall t, In t (timers w) -> t_callback t <> ClearLocalAction.

Definition keepsStuck (w w' : World) : Prop := localStuck w -> localStuck w'.
(** * Surface calls that throw *)

(** The call behind effect [e] throws on the surface of [w]. *)
Definition throwsOn (w : World) (e : Effect) : bool :=
  match e with
  | Call c => sf_throws (surface w) c
  | _ => false
  end.

(** One of the effects [es] is a call that throws. *)
Definition anyThrows (w : World) (es : list Effect) : bool := existsb (throwsOn w) es.

(** What happens of the effects [es], issued in this order, when a call
    that throws ends the handler: the effects up to and including the first
    call that throws. *)
Fixpoint attempted (w : World) (es : list Effect) : list Effect :=
  match es with
  | [] => []
  | e :: rest => e :: (if throwsOn w e then [] else attempted w rest)
  end.

(** The world [applySnapshot] leaves when one of its calls throws. *)
Definition interrupted (s : Snapshot) (w : World) : World :=
  set_trace (trace w ++ attempted w (applyCalls s (sf_time (surface w))))
    (set_applyingServerUpdate true w).

(** The fields a control writes before its first surface call. *)
Definition controlRaised (c : Control) (w : World) : World :=
  match c with
  | CPlay =>
      set_needsUserInteraction false
        (set_hasInteracted true (set_isLocalAction true w))
  | CPause | CSeek _ => set_isLocalAction true w
  end.

(** The world a control leaves when one of its calls throws. *)
Definition controlInterrupted (c : Control) (w : World) : World :=
  set_trace (trace w ++ attempted w (controlEffects c (sf_time (surface w))))
    (controlRaised c w).

(** The playback calls: the ones the handlers make outside a [try]. *)
Definition isPlayback (c : SurfaceCall) : bool :=
  match c with
  | GetCurrentTime | SeekTo _ _ | PlayVideo | PauseVideo => true
  | Destroy | Construct _ => false
  end.

(** Every playback call returns normally; [destroy] and the constructor
    may throw. *)
Definition playbackHealthy (w : World) : Prop :=
  forall c, isPlayback c = true -> sf_throws (surface w) c = false.

(** Players with one failing method each. *)
Definition brokenSeek : Surface :=
  mkSurface 0 (fun c => match c with SeekTo _ _ => true | _ => false end).

Definition brokenPause : Surface :=
  mkSurface 0 (fun c => match c with PauseVideo => true | _ => false end).

Definition brokenTime : Surface :=
  mkSurface 0 (fun c => match c with GetCurrentTime => true | _ => false end).

(** A player whose [destroy] and whose constructor throw. *)
Definition brokenLifeCycle : Surface :=
  mkSurface 0 (fun c => negb (isPlayback c)).

Definition brokenSeekWorld : World := step (EvSurface brokenSeek) readyWorld.
Definition brokenPauseWorld : World := step (EvSurface brokenPause) readyWorld.
Definition brokenTimeWorld : World := step (EvSurface brokenTime) readyWorld.

(** A new video has been requested on a player whose [destroy] and whose
    constructor throw; the construction timer is pending. *)
Definition lifeCycleFails : World :=
  run [EvSurface brokenLifeCycle; EvSessionState switchV2; EvCommit] readyWorld.

(** * Vocabulary of the further properties *)

(** ** Which events can change what *)

Definition sameInteracted (w w' : World) : Prop := hasInteracted w' = hasInteracted w.

(** [hasInteracted] after one event: [handleSyncToSession] always raises
    it, [handlePlay] raises it past its guard, nothing else writes it. *)
Definition interactedAfter (e : Event) (w : World) : bool :=
  match e with
  | EvSyncToSession => true
  | EvPlay => hasInteracted w || negb (controlsUnavailable w)
  | _ => hasInteracted w
  end.

(** The highest version among [v] and the snapshots delivered by [es]. *)
Definition deliveredMax (es : list Event) (v : Z) : Z :=
  fold_left
    (fun acc e =>
       match e with
       | EvSessionState s => Z.max acc (version s)
       | _ => acc
       end)
    es v.

Definition keepsSocket (w w' : World) : Prop := isSome (socket w) = true -> isSome (socket w') = true.

Definition isSessionState (e : Event) : bool :=
  match e with EvSessionState _ => true | _ => false end.

(** ** Handlers that cannot fail *)

Definition sameSurface (w w' : World) : Prop := surface w' = surface w.

(** When the playback calls return normally, so does the computation,
    whatever [destroy] and the constructor do. *)
Definition returns {A : Type} (m : M A) : Prop :=
  forall w, playbackHealthy w -> exists a, fst (m w) = Ok a.

(** ** Outbound traffic *)

Definition isEmit (e : Effect) : bool :=
  match e with Emit _ => true | _ => false end.

(** The trace grows by effects none of which is an outbound intent. *)
Definition quiet (w w' : World) : Prop :=
  exists l, trace w' = trace w ++ l /\ filter isEmit l = [].

(** ** Expected effects of the remaining handlers *)

Definition submitNotice : Effect :=
  Note (ToastError "Not connected to server. Please wait...").

(** The effects of [initPlayer] when the container is there. *)
Definition initPlayerEffects (vid : string) (w : World) : list Effect :=
  match playerRef w with
  | Some _ =>
      Call Destroy ::
      (if sf_throws (surface w) Destroy
       then [Note (LogError "Error destroying old player:")] else [])
  | None => []
  end ++
  Call (Construct vid) ::
  (if sf_throws (surface w) (Construct vid)
   then [Note (LogError "Failed to create player:");
         Note (ToastError "Failed to initialize video player")]
   else []).

(** What [handleSyncToSession] sends before it looks at the queue. *)
Definition syncRequest (w : World) : list Effect :=
  if socketConnected w then [Emit IRequestSessionState] else [].

(** [handleSyncToSession] finds a queued snapshot and a ready player. *)
Definition canSyncNow (w : World) : bool :=
  isSome (latestSessionState w) && isSome (playerRef w) && isPlayerReady w.

(** The world after the unconditional part of [handleSyncToSession]. *)
Definition syncRequested (w : World) : World :=
  set_trace (trace w ++ syncRequest w)
    (set_isRequestingSync true
       (set_needsUserInteraction false (set_hasInteracted true w))).

(** ** The listener, step by step *)

(** Lines 268-278: what a video change writes. *)
Definition afterMediaChange (s : Snapshot) (w : World) : World :=
  if videoChanged s (handlerVideoId w) then
    let w1 := match videoId s with
              | Some v => set_currentVideoId v w
              | None => w
              end in
    if isPlaying s && negb (hasInteracted w1)
    then set_needsUserInteraction true w1 else w1
  else w.

(** The world once a fresh snapshot has passed the version filter and the
    video-change block. *)
Definition accepted (s : Snapshot) (w : World) : World :=
  afterMediaChange s (set_lastVersionRef (version s) w).

(** The autoplay case and the busy case of the disposition. *)
Definition gated (s : Snapshot) (w : World) : bool :=
  isPlaying s && negb (hasInteracted w).

Definition busy (w : World) : bool :=
  applyingServerUpdate w || isLocalAction w.

(** ** Commits *)

(** The pending timers once the cleanup of the player effect has run. *)
Definition cancelled (w : World) : list Timer :=
  match playerEffectTimer w with
  | Some id => filter (fun t => negb (Nat.eqb (t_id t) id)) (timers w)
  | None => timers w
  end.

(** No effect has anything left to do. *)
Definition settled (w : World) : Prop :=
  socketEffectDep w = isYouTubeAPIReady w /\
  playerEffectDep w = currentVideoId w /\
  playerDiv w = negb (String.eqb (currentVideoId w) "").

(** ** Invariants of the reachable worlds *)





(** A player, once there, stays; readiness is not gained. *)
Definition playerMono (w w' : World) : Prop :=
  (isSome (playerRef w) = true -> isSome (playerRef w') = true) /\
  (isPlayerReady w' = true -> isPlayerReady w = true).

Definition keepsPlayer (w w' : World) : Prop :=
  isSome (playerRef w) = true -> isSome (playerRef w') = true.

Definition readyHasPlayer (w : World) : Prop :=
  isPlayerReady w = true -> isSome (playerRef w) = true.

(** A manual sync request is not gained, an interaction is not lost. *)
Definition syncMono (w w' : World) : Prop :=
  (isRequestingSync w' = true -> isRequestingSync w = true) /\
  (hasInteracted w = true -> hasInteracted w' = true).

Definition syncAfterGesture (w : World) : Prop :=
  isRequestingSync w = true -> hasInteracted w = true.

(** The three kinds of timers and their delays. *)
Definition timerShape (t : Timer) : Prop :=
  match t_callback t with
  | ClearApplyingServerUpdate => t_delay t = 200
  | ClearLocalAction => t_delay t = 100
  | InitPlayer _ => t_delay t = 100 \/ t_delay t = 500
  end.

Definition timersShaped (w : World) : Prop := Forall timerShape (timers w).

Definition keepsShaped (w w' : World) : Prop := timersShaped w -> timersShaped w'.

(** The queued snapshot has passed the version filter. *)
Definition queueFiltered (w : World) : Prop :=
  forall s, latestSessionState w = Some s -> version s <= lastVersionRef w.

(** The queue and the version are as they were. *)
Definition sameQueue (w w' : World) : Prop :=
  latestSessionState w' = latestSessionState w /\ lastVersionRef w' = lastVersionRef w.

(** The version is as it was and the queue holds what it held, or [s]. *)
Definition queueOr (s : Snapshot) (w w' : World) : Prop :=
  lastVersionRef w' = lastVersionRef w /\
  forall q, latestSessionState w' = Some q -> q = s \/ latestSessionState w = Some q.

(** ** Display-only callbacks *)





Definition isQueueEvent (e : Event) : bool :=
  match e with
  | EvSessionState _ | EvPlayerReady | EvSyncToSession => true
  | _ => false
  end.

(** ** Further scenarios *)

(** A ready player, no interaction yet, and a playing snapshot held back by
    the autoplay case. *)
Definition gatedWorld : World := step (EvSessionState playingV2) readyWorld.

(** A manual sync was requested with nothing queued, then the user paused:
    the request and [isLocalAction] are both up. *)
Definition syncPendingWorld : World := run [EvSyncToSession; EvPause] readyWorld.

(** A new joiner of a playing session whose player throws on [playVideo]. *)
Definition joiningBroken : World := step (EvSurface brokenPlay) joiningPlaying.

(** A manual sync is pending on a player whose [playVideo] throws. *)
Definition syncPendingBroken : World := step (EvSurface brokenPlay) syncPendingWorld.

(** A ready player whose constructor throws. *)
Definition brokenConstructor : Surface :=
  mkSurface 0 (fun c => match c with Construct _ => true | _ => false end).

Definition constructorFails : World := step (EvSurface brokenConstructor) readyWorld.

(** The first construction attempt found no container and scheduled a
    retry; the container is back and version 2 has named another video. *)
Definition retryPending : World :=
  run [EvTimer 0; EvDom true; EvSessionState switchV2] containerMissing.

(** The user paused on a ready player: [isLocalAction] is up. *)
Definition pausing : World := step EvPause readyWorld.

(** * Reasoning principles *)

(** ** Relations every step of a handler respects

    A reflexive and transitive relation between the world a computation
    starts in and the world it ends in passes through [bind], [try_catch]
    and the branching combinators; it then only has to be checked on the
    primitive writes. *)
Section Respects.

Variable R : World -> World -> Prop.
Hypothesis R_refl : forall w, R w w.
Hypothesis R_trans : forall a b c, R a b -> R b c -> R a c.

Lemma respects_ret {A : Type} (a : A) : respects R (ret a).
Proof. intro w. apply R_refl. Qed.

Lemma respects_get {A : Type} (f : World -> A) : respects R (get f).
Proof. intro w. apply R_refl. Qed.

Lemma respects_throw {A : Type} : respects R (@throw A).
Proof. intro w. apply R_refl. Qed.

Lemma respects_modify (f : World -> World) :
  (forall w, R w (f w)) -> respects R (modify f).
Proof. intros H w. apply H. Qed.

Lemma respects_bind {A B : Type} (m : M A) (k : A -> M B) :
  respects R m -> (forall a, respects R (k a)) -> respects R (bind m k).
Proof.
  intros Hm Hk w. unfold bind.
  specialize (Hm w). destruct (m w) as [[a|] w1]; simpl in *.
  - apply R_trans with w1; [exact Hm | apply Hk].
  - exact Hm.
Qed.

Lemma respects_try_catch (body handler : M unit) :
  respects R body -> respects R handler -> respects R (try_catch body handler).
Proof.
  intros Hb Hh w. unfold try_catch.
  specialize (Hb w). destruct (body w) as [[a|] w1]; simpl in *.
  - exact Hb.
  - apply R_trans with w1; [exact Hb | apply Hh].
Qed.

Lemma respects_when (b : bool) (m : M unit) : respects R m -> respects R (when b m).
Proof. intros H. destruct b; simpl; [exact H | apply respects_ret]. Qed.

End Respects.

(** Walks through a handler; [leaf] closes the primitive writes. *)
Ltac respects_walk Rrefl Rtrans leaf :=
  repeat first
    [ apply (respects_ret _ Rrefl)
    | apply (respects_get _ Rrefl)
    | apply (respects_throw _ Rrefl)
    | apply (respects_when _ Rrefl)
    | apply (respects_try_catch _ Rtrans)
    | apply (respects_bind _ Rtrans); [ | intro ]
    | match goal with
      | |- respects _ (if ?b then _ else _) => destruct b
      | |- respects _ (match ?x with _ => _ end) => destruct x
      end
    | apply respects_modify; intro; leaf ].

(** Case analysis on every boolean or optional value a handler tests,
    simplifying with [tac] after each split. *)
Ltac branches tac :=
  tac;
  repeat (match goal with
          | |- context [match ?x with _ => _ end] =>
              match type of x with
              | bool => destruct x eqn:?
              | option _ => destruct x eqn:?
              end
          end; tac).

(** The handlers, unfolded down to the monad's combinators. *)
Create HintDb js discriminated.
#[local] Hint Unfold
  applySnapshot getCurrentTime seekTo playVideo pauseVideo call record emit
  logError toastError toastSuccess clearTimeout
  setCurrentVideoId setIsPlaying setIsLoading setPlayerReadyUI
  setNeedsUserInteraction setIsYouTubeAPIReady setSocket
  disposition handleFreshSnapshot onSessionState setConnected onConnect
  onConnectError onDisconnect construct initPlayer onReady onPlayerError
  onPlayerStateChange playerEffect playerEffectCleanup socketEffect
  onYouTubeIframeAPIReady commit handleVideoSubmit handlePlay
  handleSyncToSession handlePause handleSeek runCallback fireTimer handler : js.

(** ** Worlds and traces *)

Lemma world_eq (a b : World) :
  socket a = socket b -> currentVideoId a = currentVideoId b ->
  ui_isPlaying a = ui_isPlaying b -> isLoading a = isLoading b ->
  playerReadyUI a = playerReadyUI b ->
  needsUserInteraction a = needsUserInteraction b ->
  isYouTubeAPIReady a = isYouTubeAPIReady b -> YT a = YT b ->
  playerRef a = playerRef b -> isPlayerReady a = isPlayerReady b ->
  latestSessionState a = latestSessionState b -> lastVersionRef a = lastVersionRef b ->
  isLocalAction a = isLocalAction b ->
  applyingServerUpdate a = applyingServerUpdate b ->
  isRequestingSync a = isRequestingSync b -> hasInteracted a = hasInteracted b ->
  handlerVideoId a = handlerVideoId b -> socketEffectDep a = socketEffectDep b ->
  playerEffectDep a = playerEffectDep b -> playerEffectTimer a = playerEffectTimer b ->
  surface a = surface b -> playerDiv a = playerDiv b -> timers a = timers b ->
  nextTimerId a = nextTimerId b -> trace a = trace b -> a = b.
Proof. destruct a, b; simpl; intros; subst; reflexivity. Qed.

Ltac world_ext :=
  apply world_eq; simpl; try reflexivity;
  repeat rewrite <- app_assoc; simpl; try reflexivity.

Lemma skipn_length_app {A : Type} (l l' : list A) :
  skipn (List.length l) (l ++ l') = l'.
Proof. induction l as [|a l IH]; simpl; [reflexivity | exact IH]. Qed.

Lemma emitted_of {A : Type} (m : M A) (w w' : World) (o : Outcome A) (l : list Effect) :
  m w = (o, w') -> trace w' = trace w ++ l -> emitted m w = l.
Proof.
  intros Hm Ht. unfold emitted. rewrite Hm. simpl. rewrite Ht.
  apply skipn_length_app.
Qed.

Lemma run_cons (e : Event) (es : list Event) (w : World) :
  run (e :: es) w = run es (step e w).
Proof. reflexivity. Qed.

Lemma run_app (es es' : list Event) (w : World) :
  run (es ++ es') w = run es' (run es w).
Proof. unfold run. apply fold_left_app. Qed.

Lemma reachable_run (es : list Event) (w : World) :
  reachable w -> reachable (run es w).
Proof.
  intros [es0 H]. exists (es0 ++ es). rewrite run_app, H. reflexivity.
Qed.

Lemma reachable_init : reachable init.
Proof. exists []. reflexivity. Qed.

(** ** The applied version never goes down *)

Lemma versionGrows_refl (w : World) : versionGrows w w.
Proof. unfold versionGrows. lia. Qed.

Lemma versionGrows_trans (a b c : World) :
  versionGrows a b -> versionGrows b c -> versionGrows a c.
Proof. unfold versionGrows. lia. Qed.

Lemma setTimeout_versionGrows (cb : Callback) (d : Z) :
  respects versionGrows (setTimeout cb d).
Proof. intro w. unfold versionGrows. simpl. lia. Qed.

Ltac version_leaf :=
  unfold versionGrows; simpl;
  repeat match goal with |- context [match ?x with _ => _ end] => destruct x end;
  simpl; lia.

Ltac version_walk :=
  autounfold with js;
  respects_walk versionGrows_refl versionGrows_trans
    ltac:(first [ apply setTimeout_versionGrows | version_leaf ]).

(** A snapshot that is not newer than the applied version is dropped whole. *)
Lemma onSessionState_stale (s : Snapshot) (w : World) :
  version s <= lastVersionRef w -> onSessionState s w = (Ok tt, w).
Proof.
  intro H. unfold onSessionState, bind, get.
  apply Z.leb_le in H. rewrite H. reflexivity.
Qed.

Lemma onSessionState_fresh (s : Snapshot) (w : World) :
  lastVersionRef w < version s ->
  onSessionState s w = handleFreshSnapshot s (set_lastVersionRef (version s) w).
Proof.
  intro H. unfold onSessionState, bind at 1, get at 1.
  apply Z.leb_gt in H. rewrite H. reflexivity.
Qed.

Lemma handleFreshSnapshot_versionGrows (s : Snapshot) :
  respects versionGrows (handleFreshSnapshot s).
Proof. version_walk. Qed.

Lemma onSessionState_versionGrows (s : Snapshot) :
  respects versionGrows (onSessionState s).
Proof.
  intro w. destruct (Z.leb_spec (version s) (lastVersionRef w)) as [Hle|Hlt].
  - rewrite (onSessionState_stale s w Hle). apply versionGrows_refl.
  - rewrite (onSessionState_fresh s w Hlt).
    apply versionGrows_trans with (set_lastVersionRef (version s) w).
    + unfold versionGrows. simpl. lia.
    + apply handleFreshSnapshot_versionGrows.
Qed.

Lemma handler_versionGrows (e : Event) : respects versionGrows (handler e).
Proof.
  destruct e; simpl;
    try (apply (respects_bind _ versionGrows_trans);
         [ apply (respects_get _ versionGrows_refl)
         | intro; apply (respects_when _ versionGrows_refl) ]);
    try apply onSessionState_versionGrows;
    version_walk.
Qed.

Lemma run_versionGrows (es : list Event) (w : World) :
  lastVersionRef w <= lastVersionRef (run es w).
Proof.
  revert w. induction es as [|e es IH]; intro w.
  - simpl. lia.
  - rewrite run_cons. specialize (IH (step e w)).
    pose proof (handler_versionGrows e w) as H. unfold versionGrows in H.
    fold (step e w) in H. lia.
Qed.

(** Nothing after the version filter writes [lastVersionRef]. *)
Lemma sameVersion_refl (w : World) : sameVersion w w.
Proof. reflexivity. Qed.

Lemma sameVersion_trans (a b c : World) :
  sameVersion a b -> sameVersion b c -> sameVersion a c.
Proof. unfold sameVersion. congruence. Qed.

Lemma handleFreshSnapshot_sameVersion (s : Snapshot) :
  respects sameVersion (handleFreshSnapshot s).
Proof.
  autounfold with js.
  respects_walk sameVersion_refl sameVersion_trans
    ltac:(unfold sameVersion; reflexivity).
Qed.

(** ** Timer identifiers are never reused *)

Lemma keepsFresh_refl (w : World) : keepsFresh w w.
Proof. intro H. exact H. Qed.

Lemma keepsFresh_trans (a b c : World) :
  keepsFresh a b -> keepsFresh b c -> keepsFresh a c.
Proof. unfold keepsFresh. auto. Qed.

Lemma setTimeout_keepsFresh (cb : Callback) (d : Z) :
  respects keepsFresh (setTimeout cb d).
Proof.
  intros w H t Ht. simpl in *. apply in_app_or in Ht. destruct Ht as [Ht | [Ht | []]].
  - specialize (H t Ht). lia.
  - subst t. simpl. lia.
Qed.

Ltac fresh_leaf :=
  unfold keepsFresh, timersFresh; simpl;
  repeat match goal with |- context [match ?x with _ => _ end] => destruct x end;
  simpl;
  let H := fresh in let t := fresh in let Ht := fresh in
  intros H t Ht; try (apply filter_In in Ht; destruct Ht as [Ht _]); solve [auto].

Lemma handler_keepsFresh (e : Event) : respects keepsFresh (handler e).
Proof.
  destruct e; autounfold with js;
    respects_walk keepsFresh_refl keepsFresh_trans
      ltac:(first [ apply setTimeout_keepsFresh | fresh_leaf ]).
Qed.

Lemma run_timersFresh (es : list Event) (w : World) :
  timersFresh w -> timersFresh (run es w).
Proof.
  revert w. induction es as [|e es IH]; intros w H.
  - exact H.
  - rewrite run_cons. apply IH. apply (handler_keepsFresh e w H).
Qed.

Lemma reachable_timersFresh (w : World) : reachable w -> timersFresh w.
Proof.
  intros [es H]. subst w. apply run_timersFresh. intros t Ht. destruct Ht.
Qed.

(** ** [applySnapshot] *)

Lemma applySnapshot_healthy (s : Snapshot) (w : World) (p : Player) :
  playerRef w = Some p -> isPlayerReady w = true -> healthy w ->
  applySnapshot s w = (Ok tt, applied s w).
Proof.
  intros Hp Hr Hh.
  unfold applySnapshot, applied, applyCalls, getCurrentTime, seekTo, playVideo,
    pauseVideo, setIsPlaying, call, record, when, bind, get, modify, ret.
  repeat (progress (simpl; rewrite ?Hp, ?Hr, ?Hh)).
  destruct (0.35 <? abs (computeTargetTime s - sf_time (surface w)))%float;
    destruct (isPlaying s);
    repeat (progress (simpl; rewrite ?Hp, ?Hr, ?Hh));
    f_equal; world_ext.
Qed.

Lemma emitted_applySnapshot (s : Snapshot) (w : World) (p : Player) :
  playerRef w = Some p -> isPlayerReady w = true -> healthy w ->
  emitted (applySnapshot s) w = applyCalls s (sf_time (surface w)).
Proof.
  intros Hp Hr Hh.
  apply emitted_of with (w' := applied s w) (o := Ok tt).
  - apply applySnapshot_healthy with p; assumption.
  - reflexivity.
Qed.

(** Whatever the surface does, a completed call has scheduled the clearing
    timer and an interrupted one has not. *)
Lemma applySnapshot_outcome (s : Snapshot) (w : World) (p : Player) :
  playerRef w = Some p -> isPlayerReady w = true ->
  match fst (applySnapshot s w) with
  | Ok _ =>
      timers (snd (applySnapshot s w))
        = timers w ++ [mkTimer (nextTimerId w) 200 ClearApplyingServerUpdate]
  | Thrown =>
      timers (snd (applySnapshot s w)) = timers w /\
      applyingServerUpdate (snd (applySnapshot s w)) = true
  end.
Proof.
  intros Hp Hr.
  unfold applySnapshot, getCurrentTime, seekTo, playVideo, pauseVideo,
    setIsPlaying, call, record, when, bind, get, modify, ret, throw.
  branches ltac:(repeat (progress (simpl; rewrite ?Hp, ?Hr)));
    repeat split.
Qed.

(** ** The local controls *)

Lemma controlsAvailable (w : World) (p : Player) (sk : Socket) :
  playerRef w = Some p -> socket w = Some sk -> connected sk = true ->
  controlsUnavailable w = false.
Proof.
  intros Hp Hs Hc. unfold controlsUnavailable, socketConnected.
  rewrite Hp, Hs, Hc. reflexivity.
Qed.

Lemma handle_healthy (c : Control) (w : World) (p : Player) (sk : Socket) :
  playerRef w = Some p -> socket w = Some sk -> connected sk = true -> healthy w ->
  handle c w = (Ok tt, controlled c w).
Proof.
  intros Hp Hs Hc Hh.
  pose proof (controlsAvailable w p sk Hp Hs Hc) as Hb.
  destruct c; unfold handle, handlePlay, handlePause, handleSeek, controlled,
    controlEffects, controlState, getCurrentTime, seekTo, playVideo, pauseVideo,
    emit, setIsPlaying, setNeedsUserInteraction, call, record, when, bind, get,
    modify, ret;
    rewrite Hb;
    repeat (progress (simpl; rewrite ?Hp, ?Hh));
    f_equal; world_ext.
Qed.

Lemma emitted_handle (c : Control) (w : World) (p : Player) (sk : Socket) :
  playerRef w = Some p -> socket w = Some sk -> connected sk = true -> healthy w ->
  emitted (handle c) w = controlEffects c (sf_time (surface w)).
Proof.
  intros Hp Hs Hc Hh.
  apply emitted_of with (w' := controlled c w) (o := Ok tt).
  - apply handle_healthy with p sk; assumption.
  - destruct c; reflexivity.
Qed.

Lemma handle_outcome (c : Control) (w : World) (p : Player) (sk : Socket) :
  playerRef w = Some p -> socket w = Some sk -> connected sk = true ->
  match fst (handle c w) with
  | Ok _ =>
      timers (snd (handle c w))
        = timers w ++ [mkTimer (nextTimerId w) 100 ClearLocalAction]
  | Thrown =>
      timers (snd (handle c w)) = timers w /\
      isLocalAction (snd (handle c w)) = true
  end.
Proof.
  intros Hp Hs Hc.
  pose proof (controlsAvailable w p sk Hp Hs Hc) as Hb.
  destruct c; unfold handle, handlePlay, handlePause, handleSeek, getCurrentTime,
    seekTo, playVideo, pauseVideo, emit, setIsPlaying, setNeedsUserInteraction,
    call, record, when, bind, get, modify, ret, throw;
    rewrite Hb;
    branches ltac:(repeat (progress (simpl; rewrite ?Hp)));
    repeat split.
Qed.

(** ** The listener's disposition *)

(** With the in-flight flag up, the four-way choice is between the
    manual-sync branch, the autoplay branch and doing nothing. *)
Lemma disposition_localAction (s : Snapshot) (w : World) :
  isLocalAction w = true ->
  disposition s w =
    if isRequestingSync w && isSome (playerRef w) && isPlayerReady w then
      (applySnapshot s ;; modify (set_isRequestingSync false)) w
    else if isPlaying s && negb (hasInteracted w) then
      (setNeedsUserInteraction true ;; modify (set_latestSessionState (Some s))) w
    else (Ok tt, w).
Proof.
  intro Hl. unfold disposition, bind at 1 2 3 4 5 6, get. rewrite Hl.
  destruct (isRequestingSync w && isSome (playerRef w) && isPlayerReady w);
    [reflexivity|].
  destruct (isPlaying s && negb (hasInteracted w)); [reflexivity|].
  rewrite andb_false_r. reflexivity.
Qed.

Lemma onSessionState_localAction_silent (s : Snapshot) (w : World) :
  isLocalAction w = true -> isRequestingSync w = false ->
  trace (snd (onSessionState s w)) = trace w /\
  timers (snd (onSessionState s w)) = timers w /\
  applyingServerUpdate (snd (onSessionState s w)) = applyingServerUpdate w.
Proof.
  intros Hl Hs.
  unfold onSessionState, handleFreshSnapshot, disposition, setCurrentVideoId,
    setNeedsUserInteraction, when, bind, get, modify, ret.
  branches ltac:(repeat (progress (simpl; rewrite ?Hs, ?Hl, ?andb_false_r)));
    repeat split.
Qed.

(** On the listener's path the autoplay gate holds: a playing snapshot that
    arrives before any interaction and without a manual sync request issues
    no surface call and is queued; the banner is raised when the player is
    ready. *)
Lemma onSessionState_gate (s : Snapshot) (w : World) :
  isPlaying s = true -> hasInteracted w = false -> isRequestingSync w = false ->
  lastVersionRef w < version s ->
  trace (snd (onSessionState s w)) = trace w /\
  latestSessionState (snd (onSessionState s w)) = Some s /\
  (isPlayerReady w = true -> needsUserInteraction (snd (onSessionState s w)) = true).
Proof.
  intros Hplay Hi Hs Hv.
  rewrite (onSessionState_fresh s w Hv).
  unfold handleFreshSnapshot, disposition, setCurrentVideoId,
    setNeedsUserInteraction, when, bind, get, modify, ret.
  branches ltac:(repeat (progress (simpl; rewrite ?Hplay, ?Hi, ?Hs)));
    repeat split; try (intro Hr; rewrite Hr in *; simpl in *; congruence).
Qed.

(** While no player is ready a media change is queued: the new video id is
    set, the snapshot is stored, no surface call is made. *)
Lemma mediaChange_notReady (s : Snapshot) (w : World) (v : string) :
  videoId s = Some v -> videoChanged s (handlerVideoId w) = true ->
  isPlayerReady w = false -> lastVersionRef w < version s ->
  fst (onSessionState s w) = Ok tt /\
  currentVideoId (snd (onSessionState s w)) = v /\
  latestSessionState (snd (onSessionState s w)) = Some s /\
  trace (snd (onSessionState s w)) = trace w.
Proof.
  intros Hv Hc Hr Hlt.
  rewrite (onSessionState_fresh s w Hlt).
  unfold handleFreshSnapshot, setCurrentVideoId, setNeedsUserInteraction, when,
    bind, get, modify, ret.
  branches ltac:(repeat (progress (simpl; rewrite ?Hv, ?Hc, ?Hr)));
    repeat split.
Qed.

(** ** [onReady] *)

Lemma onReady_healthy (s : Snapshot) (w : World) (p : Player) :
  latestSessionState w = Some s -> playerRef w = Some p -> healthy w ->
  onReady w
  = (Ok tt,
     set_latestSessionState None
       (applied s (set_playerReadyUI true (set_isPlayerReady true w)))).
Proof.
  intros Hq Hp Hh.
  unfold onReady, setPlayerReadyUI, bind at 1 2 3, modify at 1 2, get at 1.
  cbn [latestSessionState set_playerReadyUI set_isPlayerReady]. rewrite Hq.
  unfold bind at 1.
  rewrite (applySnapshot_healthy s _ p); [reflexivity | exact Hp | reflexivity | exact Hh].
Qed.

(** ** The construction retry *)

Lemma find_unique (ts1 ts2 : list Timer) (t : Timer) :
  (forall t', In t' ts1 -> t_id t' <> t_id t) ->
  find (fun x => Nat.eqb (t_id x) (t_id t)) (ts1 ++ t :: ts2) = Some t.
Proof.
  induction ts1 as [|a ts1 IH]; intro H; simpl.
  - rewrite Nat.eqb_refl. reflexivity.
  - destruct (Nat.eqb_spec (t_id a) (t_id t)) as [E|_].
    + exfalso. apply (H a); [left; reflexivity | exact E].
    + apply IH. intros t' Ht'. apply H. right. exact Ht'.
Qed.

Lemma filter_others (ts : list Timer) (id : nat) :
  (forall t', In t' ts -> t_id t' <> id) ->
  filter (fun x => negb (Nat.eqb (t_id x) id)) ts = ts.
Proof.
  induction ts as [|a ts IH]; intro H; simpl.
  - reflexivity.
  - destruct (Nat.eqb_spec (t_id a) id) as [E|_].
    + exfalso. apply (H a); [left; reflexivity | exact E].
    + simpl. f_equal. apply IH. intros t' Ht'. apply H. right. exact Ht'.
Qed.

Lemma filter_unique (ts1 ts2 : list Timer) (t : Timer) :
  (forall t', In t' (ts1 ++ ts2) -> t_id t' <> t_id t) ->
  filter (fun x => negb (Nat.eqb (t_id x) (t_id t))) (ts1 ++ t :: ts2) = ts1 ++ ts2.
Proof.
  intro H. rewrite filter_app. simpl. rewrite Nat.eqb_refl. simpl.
  rewrite !filter_others; [reflexivity | |];
    intros t' Ht'; apply H; apply in_or_app; [right | left]; exact Ht'.
Qed.

Lemma initPlayer_missing (vid : string) (w : World) :
  playerDiv w = false ->
  initPlayer vid w = (Ok tt, retrying vid (timers w) (nextTimerId w) 0 w).
Proof.
  intro Hd.
  unfold initPlayer, logError, record, setTimeout, bind, get, modify, ret.
  rewrite Hd. simpl. unfold retrying. rewrite Nat.add_0_r.
  f_equal.
Qed.

(** A pending construction timer fires and finds no container. *)
Lemma fire_initPlayer_missing (vid : string) (id : nat) (d : Z)
      (ts1 ts2 : list Timer) (w : World) :
  timers w = ts1 ++ mkTimer id d (InitPlayer vid) :: ts2 ->
  (forall t, In t (ts1 ++ ts2) -> t_id t <> id) ->
  playerDiv w = false ->
  step (EvTimer id) w = retrying vid (ts1 ++ ts2) (nextTimerId w) 0 w.
Proof.
  intros Ht Hu Hd.
  assert (Hu1 : forall t', In t' ts1 -> t_id t' <> t_id (mkTimer id d (InitPlayer vid))).
  { intros t' Ht'. apply Hu. apply in_or_app. left. exact Ht'. }
  unfold step, handler, fireTimer, clearTimeout, bind at 1, get at 1.
  rewrite Ht.
  change id with (t_id (mkTimer id d (InitPlayer vid))) at 1.
  rewrite (find_unique ts1 ts2 _ Hu1).
  unfold bind at 1, modify at 1. rewrite Ht.
  change (Nat.eqb (t_id ?x) id) with (Nat.eqb (t_id x) (t_id (mkTimer id d (InitPlayer vid)))).
  rewrite (filter_unique ts1 ts2 (mkTimer id d (InitPlayer vid)) Hu).
  cbn [t_callback runCallback].
  rewrite initPlayer_missing by exact Hd.
  unfold retrying. simpl. apply world_eq; reflexivity.
Qed.

Lemma retry_fires (vid : string) (ts : list Timer) (n k : nat) (w : World) :
  playerDiv w = false ->
  (forall t, In t ts -> (t_id t < n)%nat) ->
  step (EvTimer (n + k)) (retrying vid ts n k w) = retrying vid ts n (S k) w.
Proof.
  intros Hd Hts.
  rewrite (fire_initPlayer_missing vid (n + k) 500 ts [] (retrying vid ts n k w)).
  - unfold retrying. rewrite app_nil_r.
    apply world_eq; simpl; rewrite ?Nat.add_0_r, ?Nat.add_succ_r; try reflexivity.
    rewrite <- app_assoc. f_equal.
    change ((retryNotice :: repeat retryNotice k) ++ [retryNotice])
      with (repeat retryNotice (S k) ++ [retryNotice]).
    rewrite <- repeat_cons. reflexivity.
  - reflexivity.
  - intros t Ht. rewrite app_nil_r in Ht. specialize (Hts t Ht). lia.
  - exact Hd.
Qed.

Lemma retry_run (vid : string) (ts : list Timer) (n : nat) (w : World) (k j : nat) :
  playerDiv w = false ->
  (forall t, In t ts -> (t_id t < n)%nat) ->
  run (map EvTimer (seq (n + j) k)) (retrying vid ts n j w) = retrying vid ts n (j + k) w.
Proof.
  intros Hd Hts. revert j. induction k as [|k IH]; intro j.
  - simpl. rewrite Nat.add_0_r. reflexivity.
  - change (run (map EvTimer (seq (n + j) (S k))) (retrying vid ts n j w))
      with (run (map EvTimer (seq (S (n + j)) k))
              (step (EvTimer (n + j)) (retrying vid ts n j w))).
    rewrite (retry_fires vid ts n j w Hd Hts).
    replace (S (n + j)) with (n + S j)%nat by lia.
    rewrite IH. f_equal. lia.
Qed.

(** The pending timer and [k] retries: [k + 1] attempts, one timer left. *)
Lemma retries_eq (vid : string) (id : nat) (d : Z) (ts1 ts2 : list Timer)
      (k : nat) (w : World) :
  timers w = ts1 ++ mkTimer id d (InitPlayer vid) :: ts2 ->
  (forall t, In t (ts1 ++ ts2) -> t_id t <> id) ->
  timersFresh w -> playerDiv w = false ->
  retries id k w = retrying vid (ts1 ++ ts2) (nextTimerId w) k w.
Proof.
  intros Ht Hu Hf Hd. unfold retries. rewrite run_cons.
  rewrite (fire_initPlayer_missing vid id d ts1 ts2 w Ht Hu Hd).
  assert (Hlt : forall t, In t (ts1 ++ ts2) -> (t_id t < nextTimerId w)%nat).
  { intros t Hin. apply Hf. rewrite Ht.
    apply in_app_or in Hin. apply in_or_app.
    destruct Hin as [Hin|Hin]; [left | right; right]; exact Hin. }
  pose proof (retry_run vid (ts1 ++ ts2) (nextTimerId w) w k 0 Hd Hlt) as H.
  rewrite Nat.add_0_r in H. exact H.
Qed.

(** ** The scenarios are reachable *)

Lemma joiningPaused_reachable : reachable joiningPaused.
Proof. apply reachable_run. apply reachable_init. Qed.

Lemma joiningPlaying_reachable : reachable joiningPlaying.
Proof. apply reachable_run. apply reachable_init. Qed.

Lemma readyWorld_reachable : reachable readyWorld.
Proof. apply reachable_run. apply joiningPaused_reachable. Qed.

Lemma offlineWorld_reachable : reachable offlineWorld.
Proof. apply reachable_run. apply reachable_init. Qed.

Lemma switching_reachable : reachable switching.
Proof. apply reachable_run. apply readyWorld_reachable. Qed.

Lemma brokenWorld_reachable : reachable brokenWorld.
Proof. apply (reachable_run [EvSurface brokenPlay]). apply readyWorld_reachable. Qed.

Lemma containerMissing_reachable : reachable containerMissing.
Proof. apply reachable_run. apply reachable_init. Qed.

(** ** A raised [isLocalAction] without its timer stays up *)

Lemma keepsStuck_refl (w : World) : keepsStuck w w.
Proof. intro H. exact H. Qed.

Lemma keepsStuck_trans (a b c : World) :
  keepsStuck a b -> keepsStuck b c -> keepsStuck a c.
Proof. unfold keepsStuck. auto. Qed.

Lemma setTimeout_keepsStuck (cb : Callback) (d : Z) :
  cb <> ClearLocalAction -> respects keepsStuck (setTimeout cb d).
Proof.
  intros Hcb w [Hl Ht]. split; [exact Hl|].
  intros t Hin. simpl in Hin. apply in_app_or in Hin.
  destruct Hin as [Hin | [Hin | []]].
  - apply Ht. exact Hin.
  - subst t. exact Hcb.
Qed.

Ltac stuck_leaf :=
  unfold keepsStuck, localStuck; simpl;
  repeat match goal with |- context [match ?x with _ => _ end] => destruct x end;
  simpl;
  let H := fresh in let Hl := fresh in let Ht := fresh in
  let t := fresh in let Hin := fresh in
  intros [Hl Ht]; split; [exact Hl|];
  intros t Hin; try (apply filter_In in Hin; destruct Hin as [Hin _]);
  solve [auto].

Ltac stuck_walk :=
  autounfold with js;
  respects_walk keepsStuck_refl keepsStuck_trans
    ltac:(first [ apply setTimeout_keepsStuck; discriminate | stuck_leaf ]).

Lemma initPlayer_keepsStuck (vid : string) : respects keepsStuck (initPlayer vid).
Proof. stuck_walk. Qed.

Lemma fireTimer_keepsStuck (id : nat) : respects keepsStuck (fireTimer id).
Proof.
  intros w [Hl Ht]. unfold fireTimer, bind at 1, get at 1.
  destruct (find (fun t => Nat.eqb (t_id t) id) (timers w)) as [t|] eqn:Hfind;
    [| split; assumption].
  apply find_some in Hfind. destruct Hfind as [Hin _].
  specialize (Ht t Hin) as Hcb.
  assert (Hclear : localStuck (snd (clearTimeout id w))).
  { split; [exact Hl|]. intros t' Hin'. simpl in Hin'.
    apply filter_In in Hin'. apply Ht. apply Hin'. }
  unfold bind. destruct (clearTimeout id w) as [[[]|] w1] eqn:E; simpl in Hclear.
  - destruct (t_callback t) as [| |vid]; simpl.
    + destruct Hclear as [Hl1 Ht1]. split; [exact Hl1 | exact Ht1].
    + exfalso. apply Hcb. reflexivity.
    + apply (initPlayer_keepsStuck vid w1 Hclear).
  - exact Hclear.
Qed.

Lemma handler_keepsStuck (e : Event) :
  isControl e = false -> respects keepsStuck (handler e).
Proof.
  destruct e; simpl; intro Hc; try discriminate Hc;
    try apply fireTimer_keepsStuck; stuck_walk.
Qed.

Lemma run_keepsStuck (es : list Event) (w : World) :
  forallb (fun e => negb (isControl e)) es = true ->
  localStuck w -> localStuck (run es w).
Proof.
  revert w. induction es as [|e es IH]; intros w Hes Hw.
  - exact Hw.
  - simpl in Hes. apply andb_true_iff in Hes. destruct Hes as [He Hes].
    rewrite run_cons. apply IH; [exact Hes|].
    apply (handler_keepsStuck e); [| exact Hw].
    destruct (isControl e); [discriminate He | reflexivity].
Qed.
(** ** Surface calls that throw *)

Lemma healthy_anyThrows (w : World) (es : list Effect) :
  healthy w -> anyThrows w es = false.
Proof.
  intro Hh. unfold anyThrows. induction es as [|e es IH]; [reflexivity|].
  simpl. rewrite IH. destruct e; simpl; rewrite ?Hh; reflexivity.
Qed.

Lemma attempted_all (w : World) (es : list Effect) :
  anyThrows w es = false -> attempted w es = es.
Proof.
  unfold anyThrows. induction es as [|e es IH]; [reflexivity|].
  simpl. intro H. apply orb_false_iff in H. destruct H as [He Hes].
  rewrite He, (IH Hes). reflexivity.
Qed.

Lemma attempted_surface (w w' : World) (es : list Effect) :
  surface w' = surface w -> attempted w' es = attempted w es.
Proof.
  intro H. induction es as [|e es IH]; [reflexivity|].
  simpl. rewrite IH. unfold throwsOn. rewrite H. reflexivity.
Qed.

Lemma anyThrows_surface (w w' : World) (es : list Effect) :
  surface w' = surface w -> anyThrows w' es = anyThrows w es.
Proof.
  intro H. unfold anyThrows. induction es as [|e es IH]; [reflexivity|].
  simpl. rewrite IH. unfold throwsOn. rewrite H. reflexivity.
Qed.

Lemma interrupted_trace (s : Snapshot) (w : World) :
  trace (interrupted s w)
  = trace w ++ attempted w (applyCalls s (sf_time (surface w))).
Proof. reflexivity. Qed.

Lemma healthy_playbackHealthy (w : World) : healthy w -> playbackHealthy w.
Proof. intros Hh c _. apply Hh. Qed.

Lemma playbackHealthy_applyCalls (s : Snapshot) (now : float) (w : World) :
  playbackHealthy w -> anyThrows w (applyCalls s now) = false.
Proof.
  intro Hh. unfold anyThrows, applyCalls.
  destruct (0.35 <? abs (computeTargetTime s - now))%float; destruct (isPlaying s);
    simpl; rewrite ?Hh; reflexivity.
Qed.

Lemma playbackHealthy_controlEffects (c : Control) (now : float) (w : World) :
  playbackHealthy w -> anyThrows w (controlEffects c now) = false.
Proof.
  intro Hh. unfold anyThrows. destruct c; simpl; rewrite ?Hh; reflexivity.
Qed.

(** [applySnapshot] on a ready player, whatever the surface does: the first
    call that throws ends it. *)
Lemma applySnapshot_any (s : Snapshot) (w : World) (p : Player) :
  playerRef w = Some p -> isPlayerReady w = true ->
  applySnapshot s w
    = if anyThrows w (applyCalls s (sf_time (surface w)))
      then (Thrown, interrupted s w)
      else (Ok tt, applied s w).
Proof.
  intros Hp Hr.
  unfold applySnapshot, applied, interrupted, anyThrows, applyCalls, getCurrentTime,
    seekTo, playVideo, pauseVideo, setIsPlaying, call, record, when, bind, get,
    modify, ret, throw.
  repeat (progress (simpl; rewrite ?Hp, ?Hr)).
  destruct (sf_throws (surface w) GetCurrentTime) eqn:Ht;
    repeat (progress (simpl; rewrite ?Hp, ?Hr, ?Ht));
    [f_equal; world_ext|].
  destruct (0.35 <? abs (computeTargetTime s - sf_time (surface w)))%float;
    [destruct (sf_throws (surface w) (SeekTo (computeTargetTime s) true)) eqn:Hk|];
    destruct (isPlaying s);
    repeat (progress (simpl; rewrite ?Hp, ?Hr, ?Ht, ?Hk));
    try solve [f_equal; world_ext];
    match goal with
    | |- context [sf_throws (surface w) PlayVideo] =>
        destruct (sf_throws (surface w) PlayVideo) eqn:Hv
    | |- context [sf_throws (surface w) PauseVideo] =>
        destruct (sf_throws (surface w) PauseVideo) eqn:Hv
    end;
    repeat (progress (simpl; rewrite ?Hp, ?Hr, ?Ht, ?Hk, ?Hv));
    f_equal; world_ext.
Qed.

Lemma emitted_applySnapshot_any (s : Snapshot) (w : World) (p : Player) :
  playerRef w = Some p -> isPlayerReady w = true ->
  emitted (applySnapshot s) w = attempted w (applyCalls s (sf_time (surface w))).
Proof.
  intros Hp Hr. pose proof (applySnapshot_any s w p Hp Hr) as E.
  destruct (anyThrows w (applyCalls s (sf_time (surface w)))) eqn:Ha.
  - apply emitted_of with (1 := E). reflexivity.
  - apply emitted_of with (1 := E). rewrite (attempted_all _ _ Ha). reflexivity.
Qed.

(** A control past its guard, whatever the surface does. *)
Lemma handle_any (c : Control) (w : World) (p : Player) (sk : Socket) :
  playerRef w = Some p -> socket w = Some sk -> connected sk = true ->
  handle c w
    = if anyThrows w (controlEffects c (sf_time (surface w)))
      then (Thrown, controlInterrupted c w)
      else (Ok tt, controlled c w).
Proof.
  intros Hp Hs Hc.
  pose proof (controlsAvailable w p sk Hp Hs Hc) as Hb.
  destruct c; unfold handle, handlePlay, handlePause, handleSeek, controlled,
    controlInterrupted, controlRaised, anyThrows, controlEffects, controlState,
    getCurrentTime, seekTo, playVideo, pauseVideo, emit, setIsPlaying,
    setNeedsUserInteraction, call, record, when, bind, get, modify, ret, throw;
    rewrite Hb;
    repeat (progress (simpl; rewrite ?Hp));
    (destruct (sf_throws (surface w) GetCurrentTime) eqn:Ht;
       repeat (progress (simpl; rewrite ?Hp, ?Ht));
       [f_equal; world_ext|]);
    match goal with
    | |- context [sf_throws (surface w) ?c] =>
        lazymatch c with
        | GetCurrentTime => fail
        | _ => destruct (sf_throws (surface w) c) eqn:Hv
        end
    end;
    repeat (progress (simpl; rewrite ?Hp, ?Ht, ?Hv));
    f_equal; world_ext.
Qed.

Lemma emitted_handle_any (c : Control) (w : World) (p : Player) (sk : Socket) :
  playerRef w = Some p -> socket w = Some sk -> connected sk = true ->
  emitted (handle c) w = attempted w (controlEffects c (sf_time (surface w))).
Proof.
  intros Hp Hs Hc. pose proof (handle_any c w p sk Hp Hs Hc) as E.
  destruct (anyThrows w (controlEffects c (sf_time (surface w)))) eqn:Ha.
  - apply emitted_of with (1 := E). destruct c; reflexivity.
  - apply emitted_of with (1 := E). rewrite (attempted_all _ _ Ha).
    destruct c; reflexivity.
Qed.

Lemma brokenSeekWorld_reachable : reachable brokenSeekWorld.
Proof. apply (reachable_run [EvSurface brokenSeek]). exact readyWorld_reachable. Qed.

Lemma brokenPauseWorld_reachable : reachable brokenPauseWorld.
Proof. apply (reachable_run [EvSurface brokenPause]). exact readyWorld_reachable. Qed.

Lemma brokenTimeWorld_reachable : reachable brokenTimeWorld.
Proof. apply (reachable_run [EvSurface brokenTime]). exact readyWorld_reachable. Qed.

(** * The claims *)

(** Closed statements about the scenarios are settled by evaluation. *)
Ltac by_evaluation :=
  repeat match goal with
         | |- _ /\ _ => split
         | |- _ = _ => vm_compute; reflexivity
         end.

(** A general statement [H], instantiated at a scenario, read off after
    evaluation. *)
Ltac read_off H := vm_compute in H; vm_compute; exact H.

(** C1. An inbound snapshot whose version is not above [lastVersionRef] is
    discarded: the listener returns normally and the world, the trace of
    surface commands included, is left as it was.  Otherwise
    [lastVersionRef] is set to the snapshot's version before anything else
    runs, and it has that value at the end of the call however the call
    ends.  Hence, whatever events happen after a snapshot was delivered,
    delivering a snapshot with the same version again changes nothing and
    issues no surface command. *)
Theorem C1_staleness_filter (s : Snapshot) (w : World) :
  (version s <= lastVersionRef w -> onSessionState s w = (Ok tt, w)) /\
  (lastVersionRef w < version s ->
     onSessionState s w = handleFreshSnapshot s (set_lastVersionRef (version s) w) /\
     lastVersionRef (snd (onSessionState s w)) = version s) /\
  (forall (es : list Event) (s' : Snapshot),
     version s' = version s ->
     let w' := run es (snd (onSessionState s w)) in
     onSessionState s' w' = (Ok tt, w')).
Proof.
  split; [apply onSessionState_stale|]. split.
  - intro H. split; [apply onSessionState_fresh; exact H|].
    rewrite (onSessionState_fresh _ _ H).
    apply (handleFreshSnapshot_sameVersion s (set_lastVersionRef (version s) w)).
  - intros es s' Hv w'. apply onSessionState_stale. rewrite Hv.
    apply Z.le_trans with (lastVersionRef (snd (onSessionState s w))).
    + destruct (Z.leb_spec (version s) (lastVersionRef w)) as [Hle|Hlt].
      * rewrite (onSessionState_stale _ _ Hle). exact Hle.
      * rewrite (onSessionState_fresh _ _ Hlt).
        rewrite (handleFreshSnapshot_sameVersion s (set_lastVersionRef (version s) w)).
        simpl. lia.
    + apply run_versionGrows.
Qed.

Lemma C1_staleness_filter_witness :
  onSessionState pausedV1 readyWorld = (Ok tt, readyWorld) /\
  lastVersionRef (snd (onSessionState playingV2 readyWorld)) = 2 /\
  onSessionState playingV2
    (run [EvTimer 2; EvPause; EvSessionState pausedV3]
       (snd (onSessionState playingV2 readyWorld)))
  = (Ok tt,
     run [EvTimer 2; EvPause; EvSessionState pausedV3]
       (snd (onSessionState playingV2 readyWorld))).
Proof.
  split; [| split].
  - apply (proj1 (C1_staleness_filter pausedV1 readyWorld)).
    apply Z.leb_le. vm_compute. reflexivity.
  - apply (proj1 (proj2 (C1_staleness_filter playingV2 readyWorld))).
    apply Z.ltb_lt. vm_compute. reflexivity.
  - apply (proj2 (proj2 (C1_staleness_filter playingV2 readyWorld))
             [EvTimer 2; EvPause; EvSessionState pausedV3] playingV2).
    reflexivity.
Defined.

(** C2. The target time of a paused snapshot is its
    [playbackTimeAtLastEvent], whatever [lastEventAt] and [serverTime] are;
    the target time of a playing snapshot is
    [playbackTimeAtLastEvent + (serverTime - lastEventAt) / 1000], computed
    in binary64 arithmetic; for a playing snapshot at 10.0 with
    [lastEventAt = 1000] and [serverTime = 1200] it is 10.2. *)
Theorem C2_target_time :
  (forall v vid p le st, computeTargetTime (mkSnapshot v vid false p le st) = p) /\
  (forall v vid p le st,
     computeTargetTime (mkSnapshot v vid true p le st) = (p + (st - le) / 1000)%float) /\
  (forall v vid, computeTargetTime (mkSnapshot v vid true 10.0 1000 1200) = 10.2%float).
Proof.
  split; [| split]; intros; reflexivity.
Qed.

(** C3, as the code has it.  When a snapshot is applied to a ready player
    the calls are issued in the order position read, seek, play or pause,
    and nothing is caught: a call that throws is the last one.  Hence a
    seek, to the computed target, is issued exactly when the position read
    returned and [|target - currentTime| > 0.35]; and one of play and
    pause, play when the snapshot is playing and pause when it is not, is
    issued exactly when the position read and the seek, if there was one,
    returned, and none otherwise.  In particular, on a surface whose calls
    all return, the seeks are as the drift says and exactly one of play and
    pause is issued. *)
Theorem C3_drift_correction (s : Snapshot) (w : World) (p : Player) :
  playerRef w = Some p -> isPlayerReady w = true ->
  let target := computeTargetTime s in
  let drift := abs (target - sf_time (surface w))%float in
  let calls := emitted (applySnapshot s) w in
  let throws := sf_throws (surface w) in
  calls = attempted w (applyCalls s (sf_time (surface w))) /\
  filter isSeek calls
    = (if negb (throws GetCurrentTime) && (0.35 <? drift)%float
       then [Call (SeekTo target true)] else []) /\
  filter isPlayOrPause calls
    = (if throws GetCurrentTime || (0.35 <? drift)%float && throws (SeekTo target true)
       then [] else [Call (if isPlaying s then PlayVideo else PauseVideo)]) /\
  (healthy w ->
   filter isSeek calls
     = (if (0.35 <? drift)%float then [Call (SeekTo target true)] else []) /\
   filter isPlayOrPause calls
     = [Call (if isPlaying s then PlayVideo else PauseVideo)]).
Proof.
  intros Hp Hr target drift calls throws. subst calls throws.
  rewrite (emitted_applySnapshot_any s w p Hp Hr).
  split; [reflexivity|].
  assert (G : forall A B C : Prop, A /\ B -> C -> A /\ B /\ C) by tauto.
  apply G; clear G.
  - unfold applyCalls. fold target. fold drift.
    destruct (0.35 <? drift)%float; destruct (isPlaying s); simpl;
      repeat match goal with
             | |- context [sf_throws (surface w) ?c] =>
                 destruct (sf_throws (surface w) c); simpl
             end;
      split; reflexivity.
  - intro Hh.
    rewrite (attempted_all w _ (healthy_anyThrows w _ Hh)).
    unfold applyCalls. fold target. fold drift.
    destruct (0.35 <? drift)%float; destruct (isPlaying s); simpl; split; reflexivity.
Qed.

(** Drift 0.34 s: no seek.  Drift 0.36 s: a seek to the target. *)
Lemma C3_drift_correction_witness :
  (abs (0.34 - sf_time (surface readyWorld)) = 0.34 /\
   abs (0.36 - sf_time (surface readyWorld)) = 0.36)%float /\
  (filter isSeek (emitted (applySnapshot (mkSnapshot 2 None false 0.34 0 0)) readyWorld)
     = [] /\
   filter isPlayOrPause (emitted (applySnapshot (mkSnapshot 2 None false 0.34 0 0)) readyWorld)
     = [Call PauseVideo]) /\
  (filter isSeek (emitted (applySnapshot (mkSnapshot 2 None true 0.36 0 0)) readyWorld)
     = [Call (SeekTo 0.36 true)] /\
   filter isPlayOrPause (emitted (applySnapshot (mkSnapshot 2 None true 0.36 0 0)) readyWorld)
     = [Call PlayVideo]) /\
  (filter isSeek (emitted (applySnapshot (mkSnapshot 2 None true 0.36 0 0)) brokenTimeWorld)
     = [] /\
   filter isPlayOrPause (emitted (applySnapshot (mkSnapshot 2 None true 0.36 0 0)) brokenTimeWorld)
     = []).
Proof.
  assert (Hp : playerRef readyWorld = Some (mkPlayer "dQw4w9WgXcQ"))
    by (vm_compute; reflexivity).
  assert (Hr : isPlayerReady readyWorld = true) by (vm_compute; reflexivity).
  assert (Hh : healthy readyWorld) by (intro c; vm_compute; reflexivity).
  assert (Hp' : playerRef brokenTimeWorld = Some (mkPlayer "dQw4w9WgXcQ"))
    by (vm_compute; reflexivity).
  assert (Hr' : isPlayerReady brokenTimeWorld = true) by (vm_compute; reflexivity).
  split; [split; vm_compute; reflexivity|]. split; [| split].
  - pose proof (proj2 (proj2 (proj2
                  (C3_drift_correction (mkSnapshot 2 None false 0.34 0 0) readyWorld
                     (mkPlayer "dQw4w9WgXcQ") Hp Hr))) Hh) as H.
    read_off H.
  - pose proof (proj2 (proj2 (proj2
                  (C3_drift_correction (mkSnapshot 2 None true 0.36 0 0) readyWorld
                     (mkPlayer "dQw4w9WgXcQ") Hp Hr))) Hh) as H.
    read_off H.
  - pose proof (C3_drift_correction (mkSnapshot 2 None true 0.36 0 0) brokenTimeWorld
                  (mkPlayer "dQw4w9WgXcQ") Hp' Hr') as H.
    destruct H as [_ [H1 [H2 _]]]. split; [read_off H1 | read_off H2].
Defined.

(** C3, as the claim words it, fails: version 3 is applied to a ready
    player whose [seekTo] throws; the position is read, the seek to 60 is
    issued and throws, and neither play nor pause is issued. *)
Lemma C3_counterexample :
  reachable brokenSeekWorld /\
  playerRef brokenSeekWorld = Some (mkPlayer "dQw4w9WgXcQ") /\
  isPlayerReady brokenSeekWorld = true /\
  emitted (applySnapshot pausedV3) brokenSeekWorld
    = [Call GetCurrentTime; Call (SeekTo 60 true)] /\
  filter isPlayOrPause (emitted (applySnapshot pausedV3) brokenSeekWorld) = [] /\
  emitted (handler (EvSessionState pausedV3)) brokenSeekWorld
    = [Call GetCurrentTime; Call (SeekTo 60 true)] /\
  fst (handler (EvSessionState pausedV3) brokenSeekWorld) = Thrown.
Proof. split; [exact brokenSeekWorld_reachable | by_evaluation]. Qed.

(** C4, at the failing input.  A client joins a playing session: the
    snapshot arrives before the player exists, is queued, and the banner is
    raised.  When the player signals readiness, with no interaction and no
    manual sync request ever made, the flush seeks and calls [playVideo]. *)
Theorem C4_ready_flush_plays_ungated :
  reachable joiningPlaying /\
  hasInteracted joiningPlaying = false /\
  isRequestingSync joiningPlaying = false /\
  latestSessionState joiningPlaying = Some snapshotV1 /\
  needsUserInteraction joiningPlaying = true /\
  emitted (handler EvPlayerReady) joiningPlaying
    = [Call GetCurrentTime; Call (SeekTo 10.2 true); Call PlayVideo] /\
  hasInteracted (step EvPlayerReady joiningPlaying) = false /\
  latestSessionState (step EvPlayerReady joiningPlaying) = None.
Proof. split; [exact joiningPlaying_reachable | by_evaluation]. Qed.

(** C5, at the failing input.  The player of the first video is ready and
    version 2 names another video: the listener requests the new video and
    then goes on to apply the snapshot to the old player (position read,
    seek to 50, pause) without queueing it; the old player is destroyed at
    the next [initPlayer] and the new one, finding nothing queued, receives
    no command when it becomes ready. *)
Theorem C5_media_change_hits_old_surface :
  reachable readyWorld /\
  playerRef readyWorld = Some (mkPlayer "dQw4w9WgXcQ") /\
  isPlayerReady readyWorld = true /\
  currentVideoId readyWorld = "dQw4w9WgXcQ" /\
  emitted (onSessionState switchV2) readyWorld
    = [Call GetCurrentTime; Call (SeekTo 50 true); Call PauseVideo] /\
  currentVideoId (snd (onSessionState switchV2 readyWorld)) = "9bZkp7q19f0" /\
  playerRef (snd (onSessionState switchV2 readyWorld)) = Some (mkPlayer "dQw4w9WgXcQ") /\
  latestSessionState (snd (onSessionState switchV2 readyWorld)) = None /\
  trace (run [EvCommit; EvTimer 2; EvTimer 3; EvPlayerReady]
           (snd (onSessionState switchV2 readyWorld)))
    = trace (snd (onSessionState switchV2 readyWorld))
      ++ [Call Destroy; Call (Construct "9bZkp7q19f0")].
Proof. split; [exact readyWorld_reachable | by_evaluation]. Qed.

(** C6, as the code has it.  When a newly constructed player signals
    readiness and a snapshot is queued, [onReady] hands it straight to
    [applySnapshot]: with a surface whose calls succeed the snapshot is
    applied to the new player (position read, seek when the drift exceeds
    0.35 s, play or pause, [applyingServerUpdate] raised with its 200 ms
    timer) whatever [lastVersionRef], [applyingServerUpdate] and
    [isLocalAction] are, and the queue is then cleared.  Stated for a
    snapshot that is paused or a user who has interacted. *)
Theorem C6_ready_flush (s : Snapshot) (w : World) (p : Player) :
  latestSessionState w = Some s -> playerRef w = Some p -> healthy w ->
  isPlaying s = false \/ hasInteracted w = true ->
  onReady w
    = (Ok tt,
       set_latestSessionState None
         (applied s (set_playerReadyUI true (set_isPlayerReady true w)))) /\
  emitted onReady w = applyCalls s (sf_time (surface w)) /\
  latestSessionState (snd (onReady w)) = None /\
  applyingServerUpdate (snd (onReady w)) = true /\
  timers (snd (onReady w))
    = timers w ++ [mkTimer (nextTimerId w) 200 ClearApplyingServerUpdate].
Proof.
  intros Hq Hp Hh _.
  pose proof (onReady_healthy s w p Hq Hp Hh) as E.
  split; [exact E|]. split.
  - apply emitted_of with (1 := E). reflexivity.
  - rewrite E. repeat split.
Qed.

Lemma C6_ready_flush_witness :
  emitted onReady switching
    = [Call GetCurrentTime; Call (SeekTo 60 true); Call PauseVideo] /\
  latestSessionState (snd (onReady switching)) = None /\
  applyingServerUpdate (snd (onReady switching)) = true /\
  timers (snd (onReady switching))
    = [mkTimer 2 200 ClearApplyingServerUpdate; mkTimer 4 200 ClearApplyingServerUpdate].
Proof.
  assert (Hq : latestSessionState switching = Some pausedV3)
    by (vm_compute; reflexivity).
  assert (Hp : playerRef switching = Some (mkPlayer "9bZkp7q19f0"))
    by (vm_compute; reflexivity).
  assert (Hh : healthy switching) by (intro c; vm_compute; reflexivity).
  pose proof (proj2 (C6_ready_flush pausedV3 switching (mkPlayer "9bZkp7q19f0")
                       Hq Hp Hh (or_introl eq_refl))) as H.
  read_off H.
Defined.

(** C6, as the claim words it, fails.  For a new joiner the queued snapshot
    carries the version already recorded in [lastVersionRef]: the listener
    would drop it as stale, [onReady] applies it.  After a media switch,
    with [applyingServerUpdate] still up, the disposition would do nothing,
    [onReady] seeks and pauses. *)
Lemma C6_counterexample :
  (reachable joiningPaused /\
   latestSessionState joiningPaused = Some pausedV1 /\
   emitted onReady joiningPaused = [Call GetCurrentTime; Call PauseVideo] /\
   emitted onReady_spec_listener joiningPaused = [] /\
   onReady joiningPaused <> onReady_spec_listener joiningPaused) /\
  (reachable switching /\
   latestSessionState switching = Some pausedV3 /\
   applyingServerUpdate switching = true /\
   emitted onReady switching
     = [Call GetCurrentTime; Call (SeekTo 60 true); Call PauseVideo] /\
   emitted onReady_spec_disposition switching = [] /\
   onReady switching <> onReady_spec_disposition switching).
Proof.
  split; (split; [first [exact joiningPaused_reachable | exact switching_reachable]|]);
    repeat (split; [vm_compute; reflexivity|]);
    intro H; apply (f_equal (fun r => List.length (trace (snd r)))) in H;
    vm_compute in H; discriminate H.
Qed.

(** C7, as the code has it.  On a ready player [applySnapshot], and past
    its guard each local control, issues its surface calls in order and
    catches nothing.  When none of them throws, the invocation completes
    and has scheduled the timer that clears its flag (200 ms for
    [applyingServerUpdate], 100 ms for [isLocalAction]); the callbacks of
    these timers clear the flags.  When one of them throws - the position
    read, the seek, play or pause - the exception leaves the handler with
    that call as the last effect: the invocation has scheduled no timer and
    the flag it raised is still up. *)
Theorem C7_flag_timers (w : World) (p : Player) :
  playerRef w = Some p ->
  (forall s, isPlayerReady w = true ->
     let calls := applyCalls s (sf_time (surface w)) in
     emitted (applySnapshot s) w = attempted w calls /\
     (if anyThrows w calls then
        fst (applySnapshot s w) = Thrown /\
        timers (snd (applySnapshot s w)) = timers w /\
        applyingServerUpdate (snd (applySnapshot s w)) = true
      else
        fst (applySnapshot s w) = Ok tt /\
        timers (snd (applySnapshot s w))
          = timers w ++ [mkTimer (nextTimerId w) 200 ClearApplyingServerUpdate]) /\
     (healthy w -> fst (applySnapshot s w) = Ok tt)) /\
  (forall c sk, socket w = Some sk -> connected sk = true ->
     let effects := controlEffects c (sf_time (surface w)) in
     emitted (handle c) w = attempted w effects /\
     (if anyThrows w effects then
        fst (handle c w) = Thrown /\
        timers (snd (handle c w)) = timers w /\
        isLocalAction (snd (handle c w)) = true
      else
        fst (handle c w) = Ok tt /\
        timers (snd (handle c w))
          = timers w ++ [mkTimer (nextTimerId w) 100 ClearLocalAction]) /\
     (healthy w -> fst (handle c w) = Ok tt)) /\
  (forall w0,
     applyingServerUpdate (snd (runCallback ClearApplyingServerUpdate w0)) = false /\
     isLocalAction (snd (runCallback ClearLocalAction w0)) = false).
Proof.
  intro Hp. split; [| split].
  - intros s Hr calls. subst calls.
    split; [apply emitted_applySnapshot_any with p; assumption|].
    split; [| intro Hh; rewrite (applySnapshot_healthy s w p Hp Hr Hh); reflexivity].
    rewrite (applySnapshot_any s w p Hp Hr).
    destruct (anyThrows w (applyCalls s (sf_time (surface w)))); repeat split.
  - intros c sk Hs Hc effects. subst effects.
    split; [apply emitted_handle_any with p sk; assumption|].
    split; [| intro Hh; rewrite (handle_healthy c w p sk Hp Hs Hc Hh); reflexivity].
    rewrite (handle_any c w p sk Hp Hs Hc).
    destruct (anyThrows w (controlEffects c (sf_time (surface w))));
      destruct c; repeat split.
  - intro w0. split; reflexivity.
Qed.

(** On the healthy player the timers are scheduled; with a failing
    [playVideo], [seekTo], [pauseVideo] or [getCurrentTime] they are not and
    the flags stay up. *)
Lemma C7_flag_timers_witness :
  (timers (snd (applySnapshot playingV2 readyWorld))
     = [mkTimer 2 200 ClearApplyingServerUpdate] /\
   timers (snd (handle CPlay readyWorld)) = [mkTimer 2 100 ClearLocalAction]) /\
  (fst (applySnapshot playingV2 brokenWorld) = Thrown /\
   timers (snd (applySnapshot playingV2 brokenWorld)) = [] /\
   applyingServerUpdate (snd (applySnapshot playingV2 brokenWorld)) = true) /\
  (fst (handle CPlay brokenWorld) = Thrown /\
   timers (snd (handle CPlay brokenWorld)) = [] /\
   isLocalAction (snd (handle CPlay brokenWorld)) = true) /\
  (fst (applySnapshot pausedV3 brokenSeekWorld) = Thrown /\
   timers (snd (applySnapshot pausedV3 brokenSeekWorld)) = [] /\
   applyingServerUpdate (snd (applySnapshot pausedV3 brokenSeekWorld)) = true) /\
  (fst (handle CPause brokenPauseWorld) = Thrown /\
   timers (snd (handle CPause brokenPauseWorld)) = [] /\
   isLocalAction (snd (handle CPause brokenPauseWorld)) = true) /\
  (fst (handle (CSeek 10) brokenTimeWorld) = Thrown /\
   timers (snd (handle (CSeek 10) brokenTimeWorld)) = [] /\
   isLocalAction (snd (handle (CSeek 10) brokenTimeWorld)) = true).
Proof.
  assert (Hp : forall sf, playerRef (step (EvSurface sf) readyWorld)
                          = Some (mkPlayer "dQw4w9WgXcQ"))
    by (intro sf; vm_compute; reflexivity).
  assert (Hr : forall sf, isPlayerReady (step (EvSurface sf) readyWorld) = true)
    by (intro sf; vm_compute; reflexivity).
  assert (Hs : forall sf, socket (step (EvSurface sf) readyWorld) = Some (mkSocket true))
    by (intro sf; vm_compute; reflexivity).
  assert (Hp0 : playerRef readyWorld = Some (mkPlayer "dQw4w9WgXcQ"))
    by (vm_compute; reflexivity).
  assert (Hr0 : isPlayerReady readyWorld = true) by (vm_compute; reflexivity).
  assert (Hs0 : socket readyWorld = Some (mkSocket true)) by (vm_compute; reflexivity).
  pose proof (C7_flag_timers readyWorld (mkPlayer "dQw4w9WgXcQ") Hp0) as Hok.
  pose proof (C7_flag_timers brokenWorld (mkPlayer "dQw4w9WgXcQ") (Hp brokenPlay)) as Hplay.
  pose proof (C7_flag_timers brokenSeekWorld (mkPlayer "dQw4w9WgXcQ") (Hp brokenSeek))
    as Hseek.
  pose proof (C7_flag_timers brokenPauseWorld (mkPlayer "dQw4w9WgXcQ") (Hp brokenPause))
    as Hpause.
  pose proof (C7_flag_timers brokenTimeWorld (mkPlayer "dQw4w9WgXcQ") (Hp brokenTime))
    as Htime.
  split; [split |].
  - pose proof (proj2 (proj1 (proj2 (proj1 Hok playingV2 Hr0)))) as H. read_off H.
  - pose proof (proj2 (proj1 (proj2
                  (proj1 (proj2 Hok) CPlay (mkSocket true) Hs0 eq_refl)))) as H.
    read_off H.
  - split; [| split; [| split; [| split]]].
    + pose proof (proj1 (proj2 (proj1 Hplay playingV2 (Hr brokenPlay)))) as H.
      read_off H.
    + pose proof (proj1 (proj2
                    (proj1 (proj2 Hplay) CPlay (mkSocket true) (Hs brokenPlay) eq_refl)))
        as H.
      read_off H.
    + pose proof (proj1 (proj2 (proj1 Hseek pausedV3 (Hr brokenSeek)))) as H.
      read_off H.
    + pose proof (proj1 (proj2
                    (proj1 (proj2 Hpause) CPause (mkSocket true) (Hs brokenPause) eq_refl)))
        as H.
      read_off H.
    + pose proof (proj1 (proj2
                    (proj1 (proj2 Htime) (CSeek 10) (mkSocket true) (Hs brokenTime) eq_refl)))
        as H.
      read_off H.
Defined.

(** C7, as the claim words it, fails: when [playVideo] throws, the
    exception escapes [handlePlay] and [applySnapshot], no timer has been
    scheduled, and the flag is up with nothing pending to lower it:
    [isLocalAction] then stays up through every run of events that holds no
    further local control. *)
Lemma C7_counterexample :
  reachable brokenWorld /\
  fst (handlePlay brokenWorld) = Thrown /\
  isLocalAction (step EvPlay brokenWorld) = true /\
  timers (step EvPlay brokenWorld) = [] /\
  (forall es, forallb (fun e => negb (isControl e)) es = true ->
     isLocalAction (run es (step EvPlay brokenWorld)) = true) /\
  fst (applySnapshot playingV2 brokenWorld) = Thrown /\
  applyingServerUpdate (snd (applySnapshot playingV2 brokenWorld)) = true /\
  timers (snd (applySnapshot playingV2 brokenWorld)) = [].
Proof.
  split; [exact brokenWorld_reachable|].
  do 3 (split; [vm_compute; reflexivity|]).
  split; [| by_evaluation].
  intros es Hes. apply (run_keepsStuck es (step EvPlay brokenWorld) Hes).
  split; [vm_compute; reflexivity|].
  intros t Hin. vm_compute in Hin. destruct Hin.
Qed.

(** C8, as the code has it.  With a ready player and a connected socket,
    each of play, pause and relative seek raises [isLocalAction] and issues
    its calls to the surface at once.  When they return, it then emits its
    intent and schedules a 100 ms timer whose callback lowers the flag.
    When one of them throws, the exception leaves the handler: no intent is
    emitted, no timer is scheduled, and the flag stays up.  While
    [isLocalAction] is up the listener's choice is between the manual-sync
    branch, the autoplay branch and doing nothing, never the normal-sync
    branch; so, unless a manual sync was requested, an inbound snapshot
    issues no surface command, schedules no timer and leaves
    [applyingServerUpdate] alone. *)
Theorem C8_local_action_tracker (c : Control) (w : World) (p : Player) (sk : Socket) :
  playerRef w = Some p -> isPlayerReady w = true ->
  socket w = Some sk -> connected sk = true ->
  let effects := controlEffects c (sf_time (surface w)) in
  (isLocalAction (snd (handle c w)) = true /\
   emitted (handle c) w = attempted w effects /\
   (if anyThrows w effects then
      fst (handle c w) = Thrown /\
      filter isEmit (emitted (handle c) w) = [] /\
      timers (snd (handle c w)) = timers w
    else
      fst (handle c w) = Ok tt /\
      emitted (handle c) w = effects /\
      timers (snd (handle c w))
        = timers w ++ [mkTimer (nextTimerId w) 100 ClearLocalAction]) /\
   (forall w0, isLocalAction (snd (runCallback ClearLocalAction w0)) = false)) /\
  (healthy w ->
   fst (handle c w) = Ok tt /\
   isLocalAction (snd (handle c w)) = true /\
   emitted (handle c) w = effects /\
   timers (snd (handle c w))
     = timers w ++ [mkTimer (nextTimerId w) 100 ClearLocalAction]) /\
  (forall s w0,
     isLocalAction w0 = true ->
     disposition s w0 =
       if isRequestingSync w0 && isSome (playerRef w0) && isPlayerReady w0 then
         (applySnapshot s ;; modify (set_isRequestingSync false)) w0
       else if isPlaying s && negb (hasInteracted w0) then
         (setNeedsUserInteraction true ;; modify (set_latestSessionState (Some s))) w0
       else (Ok tt, w0)) /\
  (forall s w0,
     isLocalAction w0 = true -> isRequestingSync w0 = false ->
     trace (snd (onSessionState s w0)) = trace w0 /\
     timers (snd (onSessionState s w0)) = timers w0 /\
     applyingServerUpdate (snd (onSessionState s w0)) = applyingServerUpdate w0).
Proof.
  intros Hp _ Hs Hc effects. subst effects.
  pose proof (handle_any c w p sk Hp Hs Hc) as E.
  pose proof (emitted_handle_any c w p sk Hp Hs Hc) as Em.
  split; [| split; [| split]].
  - split; [| split; [exact Em | split; [| intro w0; reflexivity]]].
    + rewrite E. destruct (anyThrows w (controlEffects c (sf_time (surface w))));
        destruct c; reflexivity.
    + rewrite Em, E.
      destruct (anyThrows w (controlEffects c (sf_time (surface w)))) eqn:Ha.
      * split; [reflexivity|]. split; [| destruct c; reflexivity].
        unfold anyThrows in Ha.
        destruct c; simpl in Ha |- *;
          destruct (sf_throws (surface w) GetCurrentTime); simpl in Ha |- *;
          try reflexivity;
          match goal with
          | |- context [sf_throws (surface w) ?k] =>
              destruct (sf_throws (surface w) k)
          end; simpl in Ha |- *; first [reflexivity | discriminate Ha].
      * split; [reflexivity|].
        split; [apply attempted_all; exact Ha | destruct c; reflexivity].
  - intro Hh.
    pose proof (handle_healthy c w p sk Hp Hs Hc Hh) as Eh.
    split; [rewrite Eh; reflexivity|].
    split; [rewrite Eh; destruct c; reflexivity|].
    split; [apply emitted_handle with p sk; assumption|].
    rewrite Eh; destruct c; reflexivity.
  - intros s w0. apply disposition_localAction.
  - intros s w0. apply onSessionState_localAction_silent.
Qed.

Lemma C8_local_action_tracker_witness :
  (fst (handle (CSeek 10) readyWorld) = Ok tt /\
   isLocalAction (snd (handle (CSeek 10) readyWorld)) = true /\
   emitted (handle (CSeek 10)) readyWorld
     = [Call GetCurrentTime; Call (SeekTo 10 true); Emit (ISeek 10)] /\
   timers (snd (handle (CSeek 10) readyWorld)) = [mkTimer 2 100 ClearLocalAction]) /\
  (isLocalAction (snd (handle CPause brokenPauseWorld)) = true /\
   emitted (handle CPause) brokenPauseWorld = [Call GetCurrentTime; Call PauseVideo]) /\
  trace (snd (onSessionState (mkSnapshot 2 None false 30 0 0)
                (snd (handle (CSeek 10) readyWorld))))
    = trace (snd (handle (CSeek 10) readyWorld)).
Proof.
  assert (Hp : playerRef readyWorld = Some (mkPlayer "dQw4w9WgXcQ"))
    by (vm_compute; reflexivity).
  assert (Hr : isPlayerReady readyWorld = true) by (vm_compute; reflexivity).
  assert (Hs : socket readyWorld = Some (mkSocket true)) by (vm_compute; reflexivity).
  assert (Hh : healthy readyWorld) by (intro c; vm_compute; reflexivity).
  assert (Hp' : playerRef brokenPauseWorld = Some (mkPlayer "dQw4w9WgXcQ"))
    by (vm_compute; reflexivity).
  assert (Hr' : isPlayerReady brokenPauseWorld = true) by (vm_compute; reflexivity).
  assert (Hs' : socket brokenPauseWorld = Some (mkSocket true))
    by (vm_compute; reflexivity).
  pose proof (C8_local_action_tracker (CSeek 10) readyWorld
                (mkPlayer "dQw4w9WgXcQ") (mkSocket true) Hp Hr Hs eq_refl) as H.
  pose proof (C8_local_action_tracker CPause brokenPauseWorld
                (mkPlayer "dQw4w9WgXcQ") (mkSocket true) Hp' Hr' Hs' eq_refl) as H'.
  split; [| split].
  - pose proof (proj1 (proj2 H) Hh) as H1. read_off H1.
  - destruct (proj1 H') as [H1 [H2 _]]. split; [read_off H1 | read_off H2].
  - apply (proj2 (proj2 (proj2 H)) (mkSnapshot 2 None false 30 0 0)
             (snd (handle (CSeek 10) readyWorld))); vm_compute; reflexivity.
Defined.

(** C8, as the claim words it, fails: with a ready player and a connected
    socket, a relative seek on a player whose [seekTo] throws raises
    [isLocalAction], reads the position and issues the seek, and ends
    there: no intent is emitted and no timer is scheduled, so the flag
    stays up through every run of events that holds no further local
    control. *)
Lemma C8_counterexample :
  reachable brokenSeekWorld /\
  playerRef brokenSeekWorld = Some (mkPlayer "dQw4w9WgXcQ") /\
  isPlayerReady brokenSeekWorld = true /\
  socketConnected brokenSeekWorld = true /\
  fst (handleSeek 10 brokenSeekWorld) = Thrown /\
  emitted (handleSeek 10) brokenSeekWorld
    = [Call GetCurrentTime; Call (SeekTo 10 true)] /\
  isLocalAction (step (EvSeek 10) brokenSeekWorld) = true /\
  timers (step (EvSeek 10) brokenSeekWorld) = [] /\
  (forall es, forallb (fun e => negb (isControl e)) es = true ->
     isLocalAction (run es (step (EvSeek 10) brokenSeekWorld)) = true).
Proof.
  split; [exact brokenSeekWorld_reachable|].
  do 7 (split; [vm_compute; reflexivity|]).
  intros es Hes. apply (run_keepsStuck es (step (EvSeek 10) brokenSeekWorld) Hes).
  split; [vm_compute; reflexivity|].
  intros t Hin. vm_compute in Hin. destruct Hin.
Qed.

(** C9, as the code has it.  When the container is missing, [initPlayer]
    logs the failure and schedules one retry 500 ms later, and nothing
    bounds the number of attempts: when a pending construction timer fires
    and it and any number [k] of retries after it find the container
    missing, one more retry is pending with delay 500 ms, the only effects
    are the [k + 1] log lines (no fatal error is reported), and no player
    has been constructed. *)
Theorem C9_container_retry (vid : string) (id : nat) (d : Z) (ts1 ts2 : list Timer)
        (k : nat) (w : World) :
  timers w = ts1 ++ mkTimer id d (InitPlayer vid) :: ts2 ->
  (forall t, In t (ts1 ++ ts2) -> t_id t <> id) ->
  timersFresh w -> playerDiv w = false ->
  timers (retries id k w)
    = (ts1 ++ ts2) ++ [mkTimer (nextTimerId w + k) 500 (InitPlayer vid)] /\
  trace (retries id k w) = trace w ++ repeat retryNotice (S k) /\
  playerRef (retries id k w) = playerRef w.
Proof.
  intros Ht Hu Hf Hd.
  rewrite (retries_eq vid id d ts1 ts2 k w Ht Hu Hf Hd). repeat split.
Qed.

Lemma C9_container_retry_witness :
  timers (retries 0 3 containerMissing) = [mkTimer 4 500 (InitPlayer "dQw4w9WgXcQ")] /\
  trace (retries 0 3 containerMissing)
    = trace containerMissing ++ [retryNotice; retryNotice; retryNotice; retryNotice] /\
  playerRef (retries 0 3 containerMissing) = None.
Proof.
  assert (Ht : timers containerMissing
               = [] ++ mkTimer 0 100 (InitPlayer "dQw4w9WgXcQ") :: [])
    by (vm_compute; reflexivity).
  assert (Hu : forall t : Timer, In t ([] ++ []) -> t_id t <> 0%nat)
    by (intros t Hin; destruct Hin).
  assert (Hf : timersFresh containerMissing).
  { intros t Hin. rewrite Ht in Hin. destruct Hin as [Hin | []]. subst t.
    apply Nat.ltb_lt. vm_compute. reflexivity. }
  assert (Hd : playerDiv containerMissing = false) by (vm_compute; reflexivity).
  pose proof (C9_container_retry "dQw4w9WgXcQ" 0 100 [] [] 3 containerMissing
                Ht Hu Hf Hd) as H.
  read_off H.
Defined.

(** C9, as the claim words it, fails: no attempt count ends the retries.
    Whatever the bound, after that many retries with the container still
    missing the next retry is pending. *)
Lemma C9_counterexample :
  reachable containerMissing /\
  ~ exists bound : nat,
      forall t, In t (timers (retries 0 bound containerMissing)) ->
                t_callback t <> InitPlayer "dQw4w9WgXcQ".
Proof.
  split; [exact containerMissing_reachable|].
  intros [bound H].
  assert (E : retries 0 bound containerMissing
              = retrying "dQw4w9WgXcQ" [] 1 bound containerMissing).
  { assert (Hn : nextTimerId containerMissing = 1%nat) by (vm_compute; reflexivity).
    rewrite <- Hn.
    apply (retries_eq "dQw4w9WgXcQ" 0 100 [] [] bound containerMissing).
    - vm_compute. reflexivity.
    - intros t Ht. destruct Ht.
    - apply reachable_timersFresh. exact containerMissing_reachable.
    - vm_compute. reflexivity. }
  rewrite E in H.
  apply (H (mkTimer (1 + bound) 500 (InitPlayer "dQw4w9WgXcQ"))).
  - unfold retrying. cbn [timers set_nextTimerId set_timers set_trace app].
    left. reflexivity.
  - reflexivity.
Qed.

(** C10. When there is no player instance, no socket, or the socket is not
    connected, [handlePlay], [handlePause] and [handleSeek] return at their
    guard: the world, with its trace of surface commands and emitted
    intents, its timers and its flags, is unchanged. *)
Theorem C10_guarded_controls_are_noops (w : World) :
  playerRef w = None \/ socket w = None \/
    (exists s, socket w = Some s /\ connected s = false) ->
  handlePlay w = (Ok tt, w) /\
  handlePause w = (Ok tt, w) /\
  (forall seconds, handleSeek seconds w = (Ok tt, w)).
Proof.
  intro H.
  assert (Hb : controlsUnavailable w = true).
  { unfold controlsUnavailable, socketConnected.
    destruct H as [H | [H | [s [H Hc]]]]; rewrite H; simpl.
    - reflexivity.
    - apply orb_true_r.
    - rewrite Hc. apply orb_true_r. }
  unfold handlePlay, handlePause, handleSeek, bind, get. rewrite Hb.
  repeat split.
Qed.

Lemma C10_guarded_controls_are_noops_witness :
  (handlePlay init = (Ok tt, init) /\
   handlePause init = (Ok tt, init) /\
   (forall seconds, handleSeek seconds init = (Ok tt, init))) /\
  (handlePlay offlineWorld = (Ok tt, offlineWorld) /\
   handlePause offlineWorld = (Ok tt, offlineWorld) /\
   (forall seconds, handleSeek seconds offlineWorld = (Ok tt, offlineWorld))).
Proof.
  split.
  - apply (C10_guarded_controls_are_noops init). left. reflexivity.
  - apply (C10_guarded_controls_are_noops offlineWorld). right. right.
    exists (mkSocket false). split; vm_compute; reflexivity.
Defined.

(** * Further properties of the engine *)

(** ** Who writes [hasInteracted] *)

Lemma sameInteracted_refl (w : World) : sameInteracted w w.
Proof. reflexivity. Qed.

Lemma sameInteracted_trans (a b c : World) :
  sameInteracted a b -> sameInteracted b c -> sameInteracted a c.
Proof. unfold sameInteracted. congruence. Qed.

Ltac interacted_walk :=
  autounfold with js;
  respects_walk sameInteracted_refl sameInteracted_trans
    ltac:(unfold sameInteracted; simpl;
          repeat match goal with |- context [match ?x with _ => _ end] => destruct x end;
          reflexivity).

Lemma setTimeout_sameInteracted (cb : Callback) (d : Z) :
  respects sameInteracted (setTimeout cb d).
Proof. intro w. reflexivity. Qed.

Lemma applySnapshot_sameInteracted (s : Snapshot) :
  respects sameInteracted (applySnapshot s).
Proof. interacted_walk. Qed.

Lemma handler_sameInteracted (e : Event) :
  e <> EvSyncToSession -> e <> EvPlay -> respects sameInteracted (handler e).
Proof.
  intros Hs Hp. destruct e; try congruence; simpl; interacted_walk.
Qed.

(** What follows the two writes at the head of a handler keeps the flag. *)
Ltac interacted_tail :=
  match goal with
  | |- hasInteracted (snd (?m ?w0)) = _ =>
      let H := fresh in
      assert (H : respects sameInteracted m) by interacted_walk;
      rewrite (H w0); reflexivity
  end.

Lemma handleSyncToSession_interacted (w : World) :
  hasInteracted (snd (handleSyncToSession w)) = true.
Proof.
  unfold handleSyncToSession. unfold bind at 1, modify at 1. cbv beta iota.
  interacted_tail.
Qed.

Lemma handlePlay_interacted (w : World) :
  hasInteracted (snd (handlePlay w))
  = hasInteracted w || negb (controlsUnavailable w).
Proof.
  unfold handlePlay. unfold bind at 1, get at 1.
  destruct (controlsUnavailable w); cbv beta iota.
  - simpl. rewrite orb_false_r. reflexivity.
  - unfold bind at 1 2, modify at 1 2. cbv beta iota. rewrite orb_true_r.
    interacted_tail.
Qed.

Lemma step_interacted (e : Event) (w : World) :
  hasInteracted (step e w) = interactedAfter e w.
Proof.
  destruct e; try (refine (handler_sameInteracted _ _ _ w); discriminate).
  - apply handlePlay_interacted.
  - apply handleSyncToSession_interacted.
Qed.

Lemma run_interacted (es : list Event) (w : World) :
  hasInteracted w = true -> hasInteracted (run es w) = true.
Proof.
  revert w. induction es as [|e es IH]; intros w H.
  - exact H.
  - rewrite run_cons. apply IH. rewrite step_interacted.
    destruct e; simpl; rewrite ?H; reflexivity.
Qed.

(** ** The applied version is the highest one delivered *)

Lemma handler_sameVersion (e : Event) :
  isSessionState e = false -> respects sameVersion (handler e).
Proof.
  intro H. destruct e; try discriminate H; simpl;
    autounfold with js;
    respects_walk sameVersion_refl sameVersion_trans
      ltac:(unfold sameVersion; simpl;
            repeat match goal with |- context [match ?x with _ => _ end] => destruct x end;
            reflexivity).
Qed.

Lemma keepsSocket_refl (w : World) : keepsSocket w w.
Proof. intro H. exact H. Qed.

Lemma keepsSocket_trans (a b c : World) :
  keepsSocket a b -> keepsSocket b c -> keepsSocket a c.
Proof. unfold keepsSocket. auto. Qed.

Lemma handler_keepsSocket (e : Event) : respects keepsSocket (handler e).
Proof.
  destruct e; simpl; autounfold with js;
    respects_walk keepsSocket_refl keepsSocket_trans
      ltac:(unfold keepsSocket; simpl;
            repeat match goal with
                   | |- context [match ?x with _ => _ end] => destruct x eqn:?
                   end;
            simpl; intros; solve [discriminate | auto]).
Qed.

Lemma onSessionState_version (s : Snapshot) (w : World) :
  lastVersionRef (snd (onSessionState s w)) = Z.max (lastVersionRef w) (version s).
Proof.
  destruct (Z.leb_spec (version s) (lastVersionRef w)) as [Hle|Hlt].
  - rewrite (onSessionState_stale s w Hle). simpl. lia.
  - rewrite (onSessionState_fresh s w Hlt).
    rewrite (handleFreshSnapshot_sameVersion s (set_lastVersionRef (version s) w)).
    simpl. lia.
Qed.

Lemma run_deliveredMax (es : list Event) (w : World) :
  isSome (socket w) = true ->
  lastVersionRef (run es w) = deliveredMax es (lastVersionRef w).
Proof.
  revert w. induction es as [|e es IH]; intros w Hs.
  - reflexivity.
  - rewrite run_cons.
    rewrite (IH (step e w) (handler_keepsSocket e w Hs)).
    unfold deliveredMax. simpl. f_equal.
    destruct e; try (refine (handler_sameVersion _ _ w); reflexivity).
    unfold step, handler. unfold bind at 1, get at 1. cbv beta iota.
    rewrite Hs. apply onSessionState_version.
Qed.

(** ** No handler fails when the playback calls return *)

Lemma sameSurface_refl (w : World) : sameSurface w w.
Proof. reflexivity. Qed.

Lemma sameSurface_trans (a b c : World) :
  sameSurface a b -> sameSurface b c -> sameSurface a c.
Proof. unfold sameSurface. congruence. Qed.

Ltac surface_walk :=
  autounfold with js;
  respects_walk sameSurface_refl sameSurface_trans
    ltac:(unfold sameSurface; simpl;
          repeat match goal with |- context [match ?x with _ => _ end] => destruct x end;
          reflexivity).

Lemma applySnapshot_sameSurface (s : Snapshot) : respects sameSurface (applySnapshot s).
Proof. surface_walk. Qed.

Lemma sameSurface_healthy {A : Type} (m : M A) (w : World) :
  respects sameSurface m -> playbackHealthy w -> playbackHealthy (snd (m w)).
Proof. intros H Hh c Hc. rewrite (H w). apply Hh. exact Hc. Qed.

Lemma returns_ret {A : Type} (a : A) : returns (ret a).
Proof. intros w _. exists a. reflexivity. Qed.

Lemma returns_get {A : Type} (f : World -> A) : returns (get f).
Proof. intros w _. exists (f w). reflexivity. Qed.

Lemma returns_modify (f : World -> World) : returns (modify f).
Proof. intros w _. exists tt. reflexivity. Qed.

Lemma returns_setTimeout (cb : Callback) (d : Z) : returns (setTimeout cb d).
Proof. intros w _. exists (nextTimerId w). reflexivity. Qed.

Lemma returns_bind {A B : Type} (m : M A) (k : A -> M B) :
  respects sameSurface m -> returns m -> (forall a, returns (k a)) ->
  returns (bind m k).
Proof.
  intros Hs Hm Hk w Hh. unfold bind.
  destruct (Hm w Hh) as [a Ha].
  pose proof (sameSurface_healthy m w Hs Hh) as Hh'.
  destruct (m w) as [[a'|] w1]; simpl in *; [| discriminate Ha].
  apply (Hk a' w1 Hh').
Qed.

Lemma returns_try_catch (body handler : M unit) :
  respects sameSurface body -> returns handler -> returns (try_catch body handler).
Proof.
  intros Hs Hh w Hw. unfold try_catch.
  pose proof (sameSurface_healthy body w Hs Hw) as Hw'.
  destruct (body w) as [[a|] w1]; simpl in *.
  - exists a. reflexivity.
  - apply (Hh w1 Hw').
Qed.

Lemma returns_when (b : bool) (m : M unit) : returns m -> returns (when b m).
Proof. intro H. destruct b; simpl; [exact H | apply returns_ret]. Qed.

Lemma returns_applySnapshot (s : Snapshot) : returns (applySnapshot s).
Proof.
  intros w Hh. exists tt.
  destruct (playerRef w) as [p|] eqn:Hp; [destruct (isPlayerReady w) eqn:Hr|].
  - rewrite (applySnapshot_any s w p Hp Hr), (playbackHealthy_applyCalls s _ w Hh).
    reflexivity.
  - unfold applySnapshot, bind, get. rewrite Hp, Hr. reflexivity.
  - unfold applySnapshot, bind, get. rewrite Hp. reflexivity.
Qed.

Lemma returns_handle (c : Control) : returns (handle c).
Proof.
  intros w Hh. exists tt.
  destruct (controlsUnavailable w) eqn:Hb.
  - destruct c; unfold handle, handlePlay, handlePause, handleSeek, bind, get;
      rewrite Hb; reflexivity.
  - unfold controlsUnavailable, socketConnected in Hb.
    destruct (playerRef w) as [p|] eqn:Hp; [| discriminate Hb].
    destruct (socket w) as [sk|] eqn:Hs; [| discriminate Hb].
    destruct (connected sk) eqn:Hc; [| discriminate Hb].
    rewrite (handle_any c w p sk Hp Hs Hc), (playbackHealthy_controlEffects c _ w Hh).
    reflexivity.
Qed.

Lemma returns_handleVideoSubmit (url : string) : returns (handleVideoSubmit url).
Proof.
  intros w Hh. exists tt.
  unfold handleVideoSubmit, getCurrentTime, emit, toastError, call, record, bind,
    get, modify, ret, throw.
  pose proof (Hh GetCurrentTime eq_refl) as Ht.
  branches ltac:(repeat (progress (simpl; rewrite ?Ht)));
    first [congruence | reflexivity].
Qed.

(** Walks through a handler whose surface calls sit inside [applySnapshot]
    or a [try_catch]. *)
Ltac returns_walk :=
  repeat first
    [ apply returns_ret
    | apply returns_get
    | apply returns_modify
    | apply returns_setTimeout
    | apply returns_applySnapshot
    | apply returns_when
    | apply returns_try_catch; [ solve [surface_walk] | ]
    | apply returns_bind; [ solve [surface_walk] | | intro ]
    | match goal with
      | |- returns (if ?b then _ else _) => destruct b
      | |- returns (match ?x with _ => _ end) => destruct x
      end ].

Lemma returns_initPlayer (vid : string) : returns (initPlayer vid).
Proof.
  unfold initPlayer, logError, toastError, record. returns_walk.
Qed.

Lemma returns_handler (e : Event) : returns (handler e).
Proof.
  destruct e; simpl;
    try apply (returns_handle CPlay);
    try apply (returns_handle CPause);
    try apply (returns_handle (CSeek _));
    try apply returns_handleVideoSubmit;
    unfold onYouTubeIframeAPIReady, commit, socketEffect, playerEffect,
      playerEffectCleanup, clearTimeout, onConnect, onConnectError, onDisconnect,
      setConnected, onSessionState, handleFreshSnapshot, disposition, onReady,
      onPlayerError, onPlayerStateChange, fireTimer, runCallback,
      handleSyncToSession, emit, logError, toastError, toastSuccess, record,
      setCurrentVideoId, setIsPlaying, setIsLoading, setPlayerReadyUI,
      setNeedsUserInteraction, setIsYouTubeAPIReady, setSocket;
    returns_walk; try apply returns_initPlayer.
Qed.

(** ** Nothing is emitted on a socket that is not connected *)

Lemma quiet_refl (w : World) : quiet w w.
Proof. exists []. split; [rewrite app_nil_r; reflexivity | reflexivity]. Qed.

Lemma quiet_trans (a b c : World) : quiet a b -> quiet b c -> quiet a c.
Proof.
  intros [l1 [H1 F1]] [l2 [H2 F2]]. exists (l1 ++ l2). split.
  - rewrite H2, H1, app_assoc. reflexivity.
  - rewrite filter_app, F1, F2. reflexivity.
Qed.

Lemma setTimeout_quiet (cb : Callback) (d : Z) : respects quiet (setTimeout cb d).
Proof.
  intro w. exists []. split; [simpl; rewrite app_nil_r; reflexivity | reflexivity].
Qed.

Ltac quiet_leaf :=
  unfold quiet; simpl;
  repeat match goal with |- context [match ?x with _ => _ end] => destruct x end;
  simpl;
  first [ exists []; split; [rewrite app_nil_r; reflexivity | reflexivity]
        | eexists; split; [reflexivity | reflexivity] ].

Ltac quiet_walk :=
  autounfold with js;
  respects_walk quiet_refl quiet_trans
    ltac:(first [ apply setTimeout_quiet | quiet_leaf ]).

Lemma skipn_length_all {A : Type} (l : list A) : skipn (List.length l) l = [].
Proof. induction l as [|a l IH]; simpl; [reflexivity | exact IH]. Qed.

Lemma emitted_quiet {A : Type} (m : M A) (w : World) :
  quiet w (snd (m w)) -> filter isEmit (emitted m w) = [].
Proof.
  intros [l [Ht Hf]]. unfold emitted. rewrite Ht, skipn_length_app. exact Hf.
Qed.

Lemma disconnected_unavailable (w : World) :
  socketConnected w = false -> controlsUnavailable w = true.
Proof.
  unfold controlsUnavailable, socketConnected.
  destruct (socket w) as [sk|]; simpl; intro H.
  - rewrite H. apply orb_true_r.
  - apply orb_true_r.
Qed.

Lemma handleSyncToSession_quiet (w : World) :
  socketConnected w = false -> quiet w (snd (handleSyncToSession w)).
Proof.
  intro Hoff. unfold handleSyncToSession, setNeedsUserInteraction.
  unfold bind at 1 2 3, modify at 1 2 3. cbv beta iota.
  unfold bind at 1 2, get at 1. cbv beta iota.
  change (socketConnected
            (set_isRequestingSync true
               (set_needsUserInteraction false (set_hasInteracted true w))))
    with (socketConnected w).
  rewrite Hoff. unfold when, ret at 1. cbv beta iota.
  match goal with
  | |- quiet _ (snd (?m ?w0)) =>
      apply quiet_trans with w0;
      [ exists []; split; [rewrite app_nil_r; reflexivity | reflexivity]
      | let H := fresh in
        assert (H : respects quiet m) by quiet_walk; apply (H w0) ]
  end.
Qed.

Lemma handler_quiet (e : Event) (w : World) :
  socketConnected w = false -> quiet w (snd (handler e w)).
Proof.
  intro Hoff.
  pose proof (disconnected_unavailable w Hoff) as Hb.
  destruct e; simpl handler;
    try (match goal with
         | |- quiet _ (snd (?m _)) =>
             let H := fresh in
             assert (H : respects quiet m) by quiet_walk; apply (H w)
         end).
  - (* video submit *)
    unfold handleVideoSubmit, bind at 1, get at 1. cbv beta iota.
    rewrite Hoff. simpl. exists [Note (ToastError "Not connected to server. Please wait...")].
    split; reflexivity.
  - unfold handlePlay, bind, get. rewrite Hb. apply quiet_refl.
  - unfold handlePause, bind, get. rewrite Hb. apply quiet_refl.
  - unfold handleSeek, bind, get. rewrite Hb. apply quiet_refl.
  - apply handleSyncToSession_quiet. exact Hoff.
Qed.

(** ** [handleVideoSubmit] *)

Lemma orZero_not_nan (x : float) : is_nan (orZero x) = false.
Proof.
  unfold orZero. destruct (is_zero x || is_nan x) eqn:E.
  - reflexivity.
  - apply orb_false_elim in E. apply E.
Qed.

Lemma handleVideoSubmit_offline (url : string) (w : World) :
  socketConnected w = false ->
  handleVideoSubmit url w = (Ok tt, set_trace (trace w ++ [submitNotice]) w).
Proof.
  intro H. unfold handleVideoSubmit, bind at 1, get at 1. cbv beta iota.
  rewrite H. reflexivity.
Qed.

Lemma handleVideoSubmit_empty (w : World) :
  socketConnected w = true -> handleVideoSubmit "" w = (Ok tt, w).
Proof.
  intro H. unfold handleVideoSubmit, bind at 1, get at 1. cbv beta iota.
  rewrite H. reflexivity.
Qed.

Lemma handleVideoSubmit_noPlayer (url : string) (w : World) :
  socketConnected w = true -> url <> "" -> playerRef w = None ->
  handleVideoSubmit url w
  = (Ok tt, set_trace (trace w ++ [Emit (IChangeVideo url 0 (ui_isPlaying w))]) w).
Proof.
  intros H Hu Hp. apply String.eqb_neq in Hu.
  unfold handleVideoSubmit, emit, record, bind, get, modify, ret.
  repeat (progress (simpl; rewrite ?H, ?Hu, ?Hp)). reflexivity.
Qed.

Lemma handleVideoSubmit_player (url : string) (w : World) (p : Player) :
  socketConnected w = true -> url <> "" -> playerRef w = Some p -> healthy w ->
  handleVideoSubmit url w
  = (Ok tt,
     set_trace
       (trace w ++ [Call GetCurrentTime;
                    Emit (IChangeVideo url (orZero (sf_time (surface w))) (ui_isPlaying w))])
       w).
Proof.
  intros H Hu Hp Hh. apply String.eqb_neq in Hu.
  unfold handleVideoSubmit, getCurrentTime, emit, call, record, bind, get, modify, ret.
  repeat (progress (simpl; rewrite ?H, ?Hu, ?Hp, ?Hh)).
  f_equal. world_ext.
Qed.

(** ** [initPlayer] with the container in place *)

Lemma initPlayer_present (vid : string) (w : World) :
  playerDiv w = true ->
  initPlayer vid w
  = (Ok tt,
     set_playerRef
       (if sf_throws (surface w) (Construct vid) then playerRef w
        else Some (mkPlayer vid))
       (set_trace (trace w ++ initPlayerEffects vid w) w)).
Proof.
  intro Hd.
  unfold initPlayer, initPlayerEffects, construct, logError, toastError, call,
    record, try_catch, when, bind, get, modify, ret, throw.
  rewrite Hd.
  destruct (playerRef w) as [p|] eqn:Hp;
    destruct (sf_throws (surface w) Destroy) eqn:Hx;
    destruct (sf_throws (surface w) (Construct vid)) eqn:Hc;
    repeat (progress (simpl; rewrite ?Hp, ?Hx, ?Hc));
    f_equal; world_ext; assumption.
Qed.

Lemma initPlayer_returns_always (vid : string) (w : World) :
  fst (initPlayer vid w) = Ok tt.
Proof.
  destruct (playerDiv w) eqn:Hd.
  - rewrite (initPlayer_present vid w Hd). reflexivity.
  - rewrite (initPlayer_missing vid w Hd). reflexivity.
Qed.

(** ** [handleSyncToSession] *)

Lemma handleSyncToSession_head (w : World) :
  handleSyncToSession w
  = (queued <- get latestSessionState ;;
     p <- get playerRef ;;
     r <- get isPlayerReady ;;
     match queued with
     | Some snapshot =>
         if isSome p && r then
           applySnapshot snapshot ;;
           modify (set_isRequestingSync false)
         else ret tt
     | None => ret tt
     end) (syncRequested w).
Proof.
  unfold handleSyncToSession, setNeedsUserInteraction, syncRequested, syncRequest.
  unfold bind at 1 2 3, modify at 1 2 3. cbv beta iota.
  unfold bind at 1 2, get at 1. cbv beta iota.
  change (socketConnected
            (set_isRequestingSync true
               (set_needsUserInteraction false (set_hasInteracted true w))))
    with (socketConnected w).
  destruct (socketConnected w).
  - reflexivity.
  - unfold when, ret at 1. cbv beta iota. f_equal.
    apply world_eq; simpl; try reflexivity. rewrite app_nil_r. reflexivity.
Qed.

Lemma syncRequested_healthy (w : World) : healthy w -> healthy (syncRequested w).
Proof. intros H c. apply H. Qed.

Lemma handleSyncToSession_now (s : Snapshot) (w : World) (p : Player) :
  latestSessionState w = Some s -> playerRef w = Some p -> isPlayerReady w = true ->
  healthy w ->
  handleSyncToSession w
  = (Ok tt, set_isRequestingSync false (applied s (syncRequested w))).
Proof.
  intros Hq Hp Hr Hh. rewrite handleSyncToSession_head.
  unfold bind at 1 2 3, get at 1 2 3. cbv beta iota.
  change (latestSessionState (syncRequested w)) with (latestSessionState w).
  change (playerRef (syncRequested w)) with (playerRef w).
  change (isPlayerReady (syncRequested w)) with (isPlayerReady w).
  rewrite Hq, Hp, Hr. cbn [isSome andb]. cbv beta iota.
  unfold bind at 1.
  rewrite (applySnapshot_healthy s (syncRequested w) p Hp Hr
             (syncRequested_healthy w Hh)).
  reflexivity.
Qed.

Lemma handleSyncToSession_later (w : World) :
  canSyncNow w = false ->
  handleSyncToSession w = (Ok tt, syncRequested w).
Proof.
  intro Hc. rewrite handleSyncToSession_head.
  unfold bind at 1 2 3, get at 1 2 3. cbv beta iota.
  change (latestSessionState (syncRequested w)) with (latestSessionState w).
  change (playerRef (syncRequested w)) with (playerRef w).
  change (isPlayerReady (syncRequested w)) with (isPlayerReady w).
  unfold canSyncNow in Hc.
  destruct (latestSessionState w) as [s|]; [| reflexivity].
  simpl isSome in Hc. rewrite andb_true_l in Hc. rewrite Hc. reflexivity.
Qed.

(** ** The listener, case by case *)

Lemma handleFreshSnapshot_split (s : Snapshot) (w : World) :
  handleFreshSnapshot s w
  = (r <- get isPlayerReady ;;
     if negb r then modify (set_latestSessionState (Some s))
     else disposition s) (afterMediaChange s w).
Proof.
  unfold handleFreshSnapshot, afterMediaChange, setCurrentVideoId,
    setNeedsUserInteraction.
  unfold bind at 1 2, get at 1. cbv beta iota.
  destruct (videoChanged s (handlerVideoId w)); [| reflexivity].
  destruct (videoId s) as [v|].
  - unfold bind at 1 2 3, modify at 1, get at 1. cbv beta iota zeta.
    destruct (isPlaying s && negb (hasInteracted (set_currentVideoId v w)));
      reflexivity.
  - unfold bind at 1 2 3, ret at 1, get at 1. cbv beta iota zeta.
    destruct (isPlaying s && negb (hasInteracted w)); reflexivity.
Qed.

Ltac accepted_frame :=
  unfold accepted, afterMediaChange;
  repeat match goal with
         | |- context [if ?b then _ else _] => destruct b
         | |- context [match ?x with _ => _ end] => destruct x
         end; reflexivity.

Lemma accepted_playerRef s w : playerRef (accepted s w) = playerRef w.
Proof. accepted_frame. Qed.
Lemma accepted_isPlayerReady s w : isPlayerReady (accepted s w) = isPlayerReady w.
Proof. accepted_frame. Qed.
Lemma accepted_isRequestingSync s w : isRequestingSync (accepted s w) = isRequestingSync w.
Proof. accepted_frame. Qed.
Lemma accepted_hasInteracted s w : hasInteracted (accepted s w) = hasInteracted w.
Proof. accepted_frame. Qed.
Lemma accepted_applyingServerUpdate s w :
  applyingServerUpdate (accepted s w) = applyingServerUpdate w.
Proof. accepted_frame. Qed.
Lemma accepted_isLocalAction s w : isLocalAction (accepted s w) = isLocalAction w.
Proof. accepted_frame. Qed.
Lemma accepted_latestSessionState s w :
  latestSessionState (accepted s w) = latestSessionState w.
Proof. accepted_frame. Qed.
Lemma accepted_lastVersionRef s w : lastVersionRef (accepted s w) = version s.
Proof. accepted_frame. Qed.
Lemma accepted_trace s w : trace (accepted s w) = trace w.
Proof. accepted_frame. Qed.
Lemma accepted_timers s w : timers (accepted s w) = timers w.
Proof. accepted_frame. Qed.
Lemma accepted_nextTimerId s w : nextTimerId (accepted s w) = nextTimerId w.
Proof. accepted_frame. Qed.
Lemma accepted_surface s w : surface (accepted s w) = surface w.
Proof. accepted_frame. Qed.

Lemma accepted_healthy s w : healthy w -> healthy (accepted s w).
Proof. intros H c. rewrite accepted_surface. apply H. Qed.

Lemma onSessionState_accepted (s : Snapshot) (w : World) :
  lastVersionRef w < version s ->
  onSessionState s w
  = (if negb (isPlayerReady w) then modify (set_latestSessionState (Some s))
     else disposition s) (accepted s w).
Proof.
  intro Hv. rewrite (onSessionState_fresh s w Hv), handleFreshSnapshot_split.
  unfold bind at 1, get at 1. cbv beta iota.
  fold (accepted s w). rewrite accepted_isPlayerReady. reflexivity.
Qed.

(** The four cases of the disposition on a ready player. *)
Lemma disposition_sync (s : Snapshot) (w : World) (p : Player) :
  isRequestingSync w = true -> playerRef w = Some p -> isPlayerReady w = true ->
  healthy w ->
  disposition s w = (Ok tt, set_isRequestingSync false (applied s w)).
Proof.
  intros Hs Hp Hr Hh. unfold disposition, bind at 1 2 3 4 5 6, get.
  cbv beta iota. rewrite Hs, Hp, Hr. cbn [isSome andb]. cbv beta iota.
  unfold bind at 1. rewrite (applySnapshot_healthy s w p Hp Hr Hh). reflexivity.
Qed.

(** The manual-sync case whatever the surface does: the request is taken
    back only when [applySnapshot] returns. *)
Lemma disposition_sync_any (s : Snapshot) (w : World) (p : Player) :
  isRequestingSync w = true -> playerRef w = Some p -> isPlayerReady w = true ->
  disposition s w
  = if anyThrows w (applyCalls s (sf_time (surface w)))
    then (Thrown, interrupted s w)
    else (Ok tt, set_isRequestingSync false (applied s w)).
Proof.
  intros Hs Hp Hr. unfold disposition, bind at 1 2 3 4 5 6, get.
  cbv beta iota. rewrite Hs, Hp, Hr. cbn [isSome andb]. cbv beta iota.
  unfold bind at 1. rewrite (applySnapshot_any s w p Hp Hr).
  destruct (anyThrows w (applyCalls s (sf_time (surface w)))); reflexivity.
Qed.

Lemma disposition_gated (s : Snapshot) (w : World) :
  isRequestingSync w = false -> gated s w = true ->
  disposition s w
  = (Ok tt, set_latestSessionState (Some s) (set_needsUserInteraction true w)).
Proof.
  intros Hs Hg. unfold gated in Hg.
  unfold disposition, bind at 1 2 3 4 5 6, get.
  cbv beta iota. rewrite Hs, Hg. reflexivity.
Qed.

Lemma disposition_busy (s : Snapshot) (w : World) :
  isRequestingSync w = false -> gated s w = false -> busy w = true ->
  disposition s w = (Ok tt, w).
Proof.
  intros Hs Hg Hb. unfold gated in Hg. unfold busy in Hb.
  unfold disposition, bind at 1 2 3 4 5 6, get.
  cbv beta iota. rewrite Hs, Hg. cbn [andb]. cbv beta iota.
  destruct (applyingServerUpdate w); destruct (isLocalAction w);
    try discriminate Hb; rewrite ?andb_false_r; reflexivity.
Qed.

Lemma disposition_normal (s : Snapshot) (w : World) (p : Player) :
  isRequestingSync w = false -> gated s w = false -> busy w = false ->
  playerRef w = Some p -> isPlayerReady w = true -> healthy w ->
  disposition s w = (Ok tt, applied s w).
Proof.
  intros Hs Hg Hb Hp Hr Hh. unfold gated in Hg. unfold busy in Hb.
  apply orb_false_elim in Hb. destruct Hb as [Ha Hl].
  unfold disposition, bind at 1 2 3 4 5 6, get.
  cbv beta iota. rewrite Hs, Hg, Hp, Hr, Ha, Hl. cbn [isSome andb negb]. cbv beta iota.
  apply (applySnapshot_healthy s w p Hp Hr Hh).
Qed.

(** ** Commits *)

Ltac commit_unfold :=
  unfold commit, socketEffect, playerEffect, playerEffectCleanup, clearTimeout,
    setTimeout, setSocket, setPlayerReadyUI, when, bind, get, modify, ret.

Lemma commit_settled (w : World) : settled w -> commit w = (Ok tt, w).
Proof.
  intros [Ha [Hv Hd]]. commit_unfold.
  repeat (progress (simpl; rewrite ?Ha, ?Hv, ?Bool.eqb_reflx, ?String.eqb_refl)).
  f_equal. apply world_eq; simpl; try reflexivity. symmetry. exact Hd.
Qed.

Lemma commit_settles (w : World) :
  fst (commit w) = Ok tt /\ settled (snd (commit w)).
Proof.
  unfold settled. commit_unfold.
  destruct (isYouTubeAPIReady w) eqn:Ha; destruct (socketEffectDep w) eqn:Hs;
    destruct (String.eqb (currentVideoId w) (playerEffectDep w)) eqn:Hv;
    try (apply String.eqb_eq in Hv);
    branches ltac:(repeat (progress (simpl; rewrite ?Ha, ?Hs, ?Hv, ?String.eqb_refl)));
    repeat split; simpl; auto.
Qed.

Lemma commit_sameVideo (w : World) :
  currentVideoId w = playerEffectDep w ->
  timers (snd (commit w)) = timers w /\
  isPlayerReady (snd (commit w)) = isPlayerReady w /\
  playerEffectTimer (snd (commit w)) = playerEffectTimer w.
Proof.
  intro Hv. commit_unfold.
  branches ltac:(repeat (progress (simpl; rewrite ?Hv, ?String.eqb_refl)));
    repeat split.
Qed.

Lemma commit_videoChange (w : World) :
  currentVideoId w <> playerEffectDep w ->
  currentVideoId w <> "" -> YT w = true ->
  timers (snd (commit w))
    = cancelled w ++ [mkTimer (nextTimerId w) 100 (InitPlayer (currentVideoId w))] /\
  isPlayerReady (snd (commit w)) = false /\
  playerReadyUI (snd (commit w)) = false /\
  playerEffectTimer (snd (commit w)) = Some (nextTimerId w) /\
  playerRef (snd (commit w)) = playerRef w /\
  latestSessionState (snd (commit w)) = latestSessionState w /\
  trace (snd (commit w)) = trace w.
Proof.
  intros Hv He Hy. apply String.eqb_neq in Hv. apply String.eqb_neq in He.
  unfold cancelled. commit_unfold.
  destruct (playerEffectTimer w) as [id|] eqn:Ht;
    branches ltac:(repeat (progress (simpl; rewrite ?Hv, ?He, ?Hy, ?Ht)));
    repeat split.
Qed.

Lemma cancelled_keeps (w : World) (t : Timer) :
  In t (timers w) -> playerEffectTimer w <> Some (t_id t) -> In t (cancelled w).
Proof.
  intros Hin Hne. unfold cancelled.
  destruct (playerEffectTimer w) as [id|]; [| exact Hin].
  apply filter_In. split; [exact Hin|].
  destruct (Nat.eqb_spec (t_id t) id) as [E|_]; [| reflexivity].
  exfalso. apply Hne. rewrite E. reflexivity.
Qed.

(** ** [onReady] and its queue *)

Lemma onReady_empty (w : World) :
  latestSessionState w = None ->
  onReady w = (Ok tt, set_playerReadyUI true (set_isPlayerReady true w)).
Proof.
  intro Hq. unfold onReady, setPlayerReadyUI, bind, get, modify. simpl.
  rewrite Hq. reflexivity.
Qed.

Lemma onReady_queue (s : Snapshot) (w : World) :
  latestSessionState w = Some s ->
  match fst (onReady w) with
  | Ok _ => latestSessionState (snd (onReady w)) = None
  | Thrown =>
      latestSessionState (snd (onReady w)) = Some s /\
      applyingServerUpdate (snd (onReady w)) = true /\
      timers (snd (onReady w)) = timers w
  end /\
  isPlayerReady (snd (onReady w)) = true /\
  playerReadyUI (snd (onReady w)) = true.
Proof.
  intro Hq.
  unfold onReady, applySnapshot, getCurrentTime, seekTo, playVideo, pauseVideo,
    setIsPlaying, setPlayerReadyUI, setTimeout, call, record, when, bind, get,
    modify, ret, throw.
  branches ltac:(repeat (progress (simpl; rewrite ?Hq)));
    repeat split; assumption.
Qed.

(** The flush whatever the surface does: the queue is cleared only when
    [applySnapshot] returns. *)
Lemma onReady_any (s : Snapshot) (w : World) (p : Player) :
  latestSessionState w = Some s -> playerRef w = Some p ->
  let w1 := set_playerReadyUI true (set_isPlayerReady true w) in
  onReady w
  = if anyThrows w (applyCalls s (sf_time (surface w)))
    then (Thrown, interrupted s w1)
    else (Ok tt, set_latestSessionState None (applied s w1)).
Proof.
  intros Hq Hp w1. unfold onReady, setPlayerReadyUI.
  unfold bind at 1 2 3, modify at 1 2, get at 1. cbv beta iota.
  change (latestSessionState (set_playerReadyUI true (set_isPlayerReady true w)))
    with (latestSessionState w).
  rewrite Hq. unfold bind at 1. fold w1.
  rewrite (applySnapshot_any s w1 p Hp eq_refl).
  change (surface w1) with (surface w).
  change (anyThrows w1) with (anyThrows w).
  destruct (anyThrows w (applyCalls s (sf_time (surface w)))); reflexivity.
Qed.

(** ** Display-only callbacks leave the engine alone *)




(** ** The listener's closure is stale *)















(** ** A ready flag means a player *)

Lemma playerMono_refl (w : World) : playerMono w w.
Proof. split; auto. Qed.

Lemma playerMono_trans (a b c : World) :
  playerMono a b -> playerMono b c -> playerMono a c.
Proof. intros [H1 H2] [G1 G2]. split; auto. Qed.

Ltac mono_leaf R :=
  unfold R; simpl;
  repeat match goal with
         | |- context [match ?x with _ => _ end] => destruct x eqn:?
         end;
  simpl; split; intros; solve [assumption | discriminate | reflexivity].

Lemma setTimeout_playerMono (cb : Callback) (d : Z) :
  respects playerMono (setTimeout cb d).
Proof. intro w. split; auto. Qed.

Lemma handler_playerMono (e : Event) :
  e <> EvPlayerReady -> respects playerMono (handler e).
Proof.
  intro H. destruct e; try congruence; simpl; autounfold with js;
    respects_walk playerMono_refl playerMono_trans
      ltac:(first [ apply setTimeout_playerMono | mono_leaf playerMono ]).
Qed.

Lemma keepsPlayer_refl (w : World) : keepsPlayer w w.
Proof. intro H. exact H. Qed.

Lemma keepsPlayer_trans (a b c : World) :
  keepsPlayer a b -> keepsPlayer b c -> keepsPlayer a c.
Proof. unfold keepsPlayer. auto. Qed.

Lemma onReady_keepsPlayer : respects keepsPlayer onReady.
Proof.
  autounfold with js.
  respects_walk keepsPlayer_refl keepsPlayer_trans
    ltac:(unfold keepsPlayer; simpl; intros; solve [assumption | reflexivity]).
Qed.

Lemma step_readyHasPlayer (e : Event) (w : World) :
  readyHasPlayer w -> readyHasPlayer (step e w).
Proof.
  intros I. destruct e;
    try (match goal with
         | |- readyHasPlayer (step ?e0 _) =>
             let H := fresh in
             pose proof (handler_playerMono e0 ltac:(discriminate) w) as H;
             destruct H as [H1 H2]; intro Hr; apply H1, I, H2, Hr
         end).
  (* the readiness callback *)
  unfold step, handler. unfold bind at 1, get at 1. cbv beta iota.
  destruct (playerRef w) as [p|] eqn:Hp; [| exact I].
  intros _. cbn [isSome when].
  apply (onReady_keepsPlayer w). rewrite Hp. reflexivity.
Qed.

Lemma reachable_readyHasPlayer (w : World) : reachable w -> readyHasPlayer w.
Proof.
  intros [es H]. subst w.
  assert (I : readyHasPlayer init) by (intro H; discriminate H).
  revert I. generalize init.
  induction es as [|e es IH]; intros w0 I.
  - exact I.
  - rewrite run_cons. apply IH. apply step_readyHasPlayer. exact I.
Qed.

(** ** A manual sync is requested by a gesture *)

Lemma syncMono_refl (w : World) : syncMono w w.
Proof. split; auto. Qed.

Lemma syncMono_trans (a b c : World) :
  syncMono a b -> syncMono b c -> syncMono a c.
Proof. intros [H1 H2] [G1 G2]. split; auto. Qed.

Lemma setTimeout_syncMono (cb : Callback) (d : Z) :
  respects syncMono (setTimeout cb d).
Proof. intro w. split; auto. Qed.

Lemma handler_syncMono (e : Event) :
  e <> EvSyncToSession -> respects syncMono (handler e).
Proof.
  intro H. destruct e; try congruence; simpl; autounfold with js;
    respects_walk syncMono_refl syncMono_trans
      ltac:(first [ apply setTimeout_syncMono | mono_leaf syncMono ]).
Qed.

Lemma step_syncAfterGesture (e : Event) (w : World) :
  syncAfterGesture w -> syncAfterGesture (step e w).
Proof.
  intros I. destruct e;
    try (match goal with
         | |- syncAfterGesture (step ?e0 _) =>
             let H := fresh in
             pose proof (handler_syncMono e0 ltac:(discriminate) w) as H;
             destruct H as [H1 H2]; intro Hr; apply H2, I, H1, Hr
         end).
  intros _. apply handleSyncToSession_interacted.
Qed.

Lemma reachable_syncAfterGesture (w : World) : reachable w -> syncAfterGesture w.
Proof.
  intros [es H]. subst w.
  assert (I : syncAfterGesture init) by (intro H; discriminate H).
  revert I. generalize init.
  induction es as [|e es IH]; intros w0 I.
  - exact I.
  - rewrite run_cons. apply IH. apply step_syncAfterGesture. exact I.
Qed.

(** ** Every pending timer has its fixed delay *)

Lemma keepsShaped_refl (w : World) : keepsShaped w w.
Proof. intro H. exact H. Qed.

Lemma keepsShaped_trans (a b c : World) :
  keepsShaped a b -> keepsShaped b c -> keepsShaped a c.
Proof. unfold keepsShaped. auto. Qed.

Lemma setTimeout_keepsShaped (cb : Callback) (d : Z) :
  timerShape (mkTimer 0 d cb) -> respects keepsShaped (setTimeout cb d).
Proof.
  intros Hs w H. unfold timersShaped in *. simpl.
  apply Forall_app. split; [exact H|]. constructor; [| constructor].
  exact Hs.
Qed.

Ltac shaped_leaf :=
  unfold keepsShaped, timersShaped; simpl;
  repeat match goal with |- context [match ?x with _ => _ end] => destruct x end;
  simpl;
  let H := fresh in
  intro H;
  first [ exact H
        | apply Forall_forall; intros ? Hin; apply filter_In in Hin;
          destruct Hin as [Hin _]; revert Hin; apply Forall_forall; exact H ].

Ltac shaped_walk :=
  autounfold with js;
  respects_walk keepsShaped_refl keepsShaped_trans
    ltac:(first [ apply setTimeout_keepsShaped; unfold timerShape; simpl;
                  solve [reflexivity | left; reflexivity | right; reflexivity]
                | shaped_leaf ]).

Lemma handler_keepsShaped (e : Event) : respects keepsShaped (handler e).
Proof. destruct e; simpl; shaped_walk. Qed.

Lemma reachable_timersShaped (w : World) : reachable w -> timersShaped w.
Proof.
  intros [es H]. subst w.
  assert (I : timersShaped init) by constructor.
  revert I. generalize init.
  induction es as [|e es IH]; intros w0 I.
  - exact I.
  - rewrite run_cons. apply IH. apply (handler_keepsShaped e w0 I).
Qed.

(** ** The queued snapshot has passed the version filter *)

Lemma sameQueue_refl (w : World) : sameQueue w w.
Proof. split; reflexivity. Qed.

Lemma sameQueue_trans (a b c : World) :
  sameQueue a b -> sameQueue b c -> sameQueue a c.
Proof. intros [H1 H2] [G1 G2]. split; congruence. Qed.

Lemma setTimeout_sameQueue (cb : Callback) (d : Z) :
  respects sameQueue (setTimeout cb d).
Proof. intro w. split; reflexivity. Qed.

Lemma handler_sameQueue (e : Event) :
  isQueueEvent e = false -> respects sameQueue (handler e).
Proof.
  intro H. destruct e; try discriminate H; simpl; autounfold with js;
    respects_walk sameQueue_refl sameQueue_trans
      ltac:(first [ apply setTimeout_sameQueue
                  | unfold sameQueue; simpl;
                    repeat match goal with
                           | |- context [match ?x with _ => _ end] => destruct x
                           end;
                    split; reflexivity ]).
Qed.

Lemma queueOr_refl (s : Snapshot) (w : World) : queueOr s w w.
Proof. split; [reflexivity | intros q H; right; exact H]. Qed.

Lemma queueOr_trans (s : Snapshot) (a b c : World) :
  queueOr s a b -> queueOr s b c -> queueOr s a c.
Proof.
  intros [H1 H2] [G1 G2]. split; [congruence|].
  intros q Hq. destruct (G2 q Hq) as [E|Hb]; [left; exact E | apply H2; exact Hb].
Qed.

Lemma setTimeout_queueOr (s : Snapshot) (cb : Callback) (d : Z) :
  respects (queueOr s) (setTimeout cb d).
Proof. intro w. split; [reflexivity | intros q H; right; exact H]. Qed.

Ltac queueOr_leaf :=
  unfold queueOr; simpl; split; [reflexivity|];
  let q := fresh in let H := fresh in
  intros q H;
  first [ right; exact H | left; congruence | discriminate H ].

Lemma applySnapshot_queueOr (s : Snapshot) : respects (queueOr s) (applySnapshot s).
Proof.
  autounfold with js.
  respects_walk (queueOr_refl s) (queueOr_trans s)
    ltac:(first [ apply setTimeout_queueOr | queueOr_leaf ]).
Qed.

Lemma disposition_queueOr (s : Snapshot) : respects (queueOr s) (disposition s).
Proof.
  autounfold with js.
  respects_walk (queueOr_refl s) (queueOr_trans s)
    ltac:(first [ apply setTimeout_queueOr | queueOr_leaf ]).
Qed.

Lemma queueOr_filtered (s : Snapshot) (w w' : World) :
  queueOr s w w' -> version s <= lastVersionRef w ->
  queueFiltered w -> queueFiltered w'.
Proof.
  intros [Hv Hq] Hs I q H. rewrite Hv.
  destruct (Hq q H) as [E|Hw]; [subst q; exact Hs | apply I; exact Hw].
Qed.

Lemma accepted_queueFiltered (s : Snapshot) (w : World) :
  lastVersionRef w < version s -> queueFiltered w -> queueFiltered (accepted s w).
Proof.
  intros Hv I q H. rewrite accepted_latestSessionState in H.
  rewrite accepted_lastVersionRef. specialize (I q H). lia.
Qed.

Lemma onSessionState_queueFiltered (s : Snapshot) (w : World) :
  queueFiltered w -> queueFiltered (snd (onSessionState s w)).
Proof.
  intro I. destruct (Z.leb_spec (version s) (lastVersionRef w)) as [Hle|Hlt].
  - rewrite (onSessionState_stale s w Hle). exact I.
  - rewrite (onSessionState_accepted s w Hlt).
    pose proof (accepted_queueFiltered s w Hlt I) as Ia.
    destruct (isPlayerReady w); cbn [negb].
    + apply (queueOr_filtered s (accepted s w)).
      * apply disposition_queueOr.
      * rewrite accepted_lastVersionRef. lia.
      * exact Ia.
    + intros q H. simpl in H. injection H as <-.
      simpl. rewrite accepted_lastVersionRef. lia.
Qed.

(** A queued snapshot is handed to [applySnapshot] and the queue is left
    alone or emptied. *)
Lemma flush_queueFiltered (q : Snapshot) (k : M unit) (w : World) :
  respects sameQueue k \/ k = modify (set_latestSessionState None) ->
  latestSessionState w = Some q -> queueFiltered w ->
  queueFiltered (snd ((applySnapshot q ;; k) w)).
Proof.
  intros Hk Hq I.
  assert (Ia : queueFiltered (snd (applySnapshot q w))).
  { apply (queueOr_filtered q w); [apply applySnapshot_queueOr | apply I; exact Hq | exact I]. }
  unfold bind. destruct (applySnapshot q w) as [[[]|] w1]; simpl in *; [| exact Ia].
  destruct Hk as [Hk|Hk].
  - destruct (Hk w1) as [E1 E2]. intros s H. rewrite E1 in H. rewrite E2.
    apply Ia. exact H.
  - subst k. intros s H. discriminate H.
Qed.

Lemma onReady_queueFiltered (w : World) :
  queueFiltered w -> queueFiltered (snd (onReady w)).
Proof.
  intro I. unfold onReady, setPlayerReadyUI.
  unfold bind at 1 2 3, modify at 1 2, get at 1. cbv beta iota.
  change (latestSessionState
            (set_playerReadyUI true (set_isPlayerReady true w)))
    with (latestSessionState w).
  destruct (latestSessionState w) as [q|] eqn:Hq; [| exact I].
  apply flush_queueFiltered; [right; reflexivity | exact Hq | exact I].
Qed.

Lemma handleSyncToSession_queueFiltered (w : World) :
  queueFiltered w -> queueFiltered (snd (handleSyncToSession w)).
Proof.
  intro I. rewrite handleSyncToSession_head.
  unfold bind at 1 2 3, get at 1 2 3. cbv beta iota.
  change (latestSessionState (syncRequested w)) with (latestSessionState w).
  assert (Is : queueFiltered (syncRequested w)) by exact I.
  destruct (latestSessionState w) as [q|] eqn:Hq; [| exact Is].
  destruct (isSome (playerRef (syncRequested w)) && isPlayerReady (syncRequested w));
    [| exact Is].
  apply flush_queueFiltered; [| exact Hq | exact Is].
  left. intro w0. split; reflexivity.
Qed.

Lemma step_queueFiltered (e : Event) (w : World) :
  queueFiltered w -> queueFiltered (step e w).
Proof.
  intro I. destruct (isQueueEvent e) eqn:He.
  - destruct e; try discriminate He; unfold step, handler.
    + unfold bind at 1, get at 1. cbv beta iota.
      destruct (socket w); [| exact I]. apply onSessionState_queueFiltered. exact I.
    + unfold bind at 1, get at 1. cbv beta iota.
      destruct (playerRef w); [| exact I]. apply onReady_queueFiltered. exact I.
    + apply handleSyncToSession_queueFiltered. exact I.
  - destruct (handler_sameQueue e He w) as [E1 E2].
    intros s H. unfold step in *. rewrite E1 in H. rewrite E2. apply I. exact H.
Qed.

Lemma reachable_queueFiltered (w : World) : reachable w -> queueFiltered w.
Proof.
  intros [es H]. subst w.
  assert (I : queueFiltered init) by (intros s H; discriminate H).
  revert I. generalize init.
  induction es as [|e es IH]; intros w0 I.
  - exact I.
  - rewrite run_cons. apply IH. apply step_queueFiltered. exact I.
Qed.

(** * Further properties, stated *)

(** X1. [hasInteracted] is written by two handlers only:
    [handleSyncToSession] always sets it, [handlePlay] sets it as soon as it
    is past its guard; pause, seek, URL submission, snapshots, timers and
    player callbacks leave it as it is.  Once set it stays set. *)
Theorem X1_hasInteracted_writers :
  (forall e w, hasInteracted (step e w) = interactedAfter e w) /\
  (forall es w, hasInteracted w = true -> hasInteracted (run es w) = true).
Proof. split; [exact step_interacted | exact run_interacted]. Qed.

Lemma X1_hasInteracted_writers_witness :
  hasInteracted (run [EvPause; EvSeek 10; EvSessionState playingV2] readyWorld) = false /\
  hasInteracted
    (run [EvPause; EvSessionState playingV2; EvTimer 2] (step EvPlay readyWorld)) = true.
Proof.
  split.
  - vm_compute. reflexivity.
  - apply (proj2 X1_hasInteracted_writers). vm_compute. reflexivity.
Defined.

(** X2. Once the socket exists, the applied version after any run of events
    is the highest among the version before the run and the versions of
    the snapshots delivered during it, whatever their order and whatever
    else happens in between. *)
Theorem X2_applied_version_is_max (es : list Event) (w : World) :
  isSome (socket w) = true ->
  lastVersionRef (run es w) = deliveredMax es (lastVersionRef w).
Proof. apply run_deliveredMax. Qed.

Lemma X2_applied_version_is_max_witness :
  lastVersionRef
    (run [EvSessionState pausedV3; EvPlay; EvSessionState playingV2; EvCommit;
          EvSessionState pausedV1] readyWorld) = 3.
Proof.
  pose proof (X2_applied_version_is_max
                [EvSessionState pausedV3; EvPlay; EvSessionState playingV2; EvCommit;
                 EvSessionState pausedV1] readyWorld
                ltac:(vm_compute; reflexivity)) as H.
  read_off H.
Defined.

(** X3. When the playback calls (position read, seek, play, pause) return
    normally, no handler lets an exception escape, whatever [destroy] and
    the constructor do: every playback call is behind a check that the
    player exists, and [destroy] and the constructor are called inside a
    [try]. *)
Theorem X3_no_exception_on_healthy_surface (e : Event) (w : World) :
  playbackHealthy w -> fst (handler e w) = Ok tt.
Proof.
  intro Hh. destruct (returns_handler e w Hh) as [[] H]. exact H.
Qed.

(** A new video is requested on a player whose [destroy] and whose
    constructor throw; the construction timer fires. *)
Lemma X3_no_exception_on_healthy_surface_witness :
  sf_throws (surface lifeCycleFails) Destroy = true /\
  sf_throws (surface lifeCycleFails) (Construct "9bZkp7q19f0") = true /\
  emitted (handler (EvTimer 3)) lifeCycleFails
    = [Call Destroy; Note (LogError "Error destroying old player:");
       Call (Construct "9bZkp7q19f0"); Note (LogError "Failed to create player:");
       Note (ToastError "Failed to initialize video player")] /\
  fst (handler (EvTimer 3) lifeCycleFails) = Ok tt /\
  fst (handler EvPlay lifeCycleFails) = Ok tt.
Proof.
  assert (Hh : playbackHealthy lifeCycleFails)
    by (intros c Hc; destruct c; first [discriminate Hc | vm_compute; reflexivity]).
  do 3 (split; [vm_compute; reflexivity|]). split.
  - apply (X3_no_exception_on_healthy_surface (EvTimer 3) lifeCycleFails Hh).
  - apply (X3_no_exception_on_healthy_surface EvPlay lifeCycleFails Hh).
Defined.

(** X4. While the socket is missing or not connected no event makes the
    component emit an outbound intent. *)
Theorem X4_nothing_emitted_offline (e : Event) (w : World) :
  socketConnected w = false -> filter isEmit (emitted (handler e) w) = [].
Proof.
  intro H. apply emitted_quiet. apply handler_quiet. exact H.
Qed.

Lemma X4_nothing_emitted_offline_witness :
  filter isEmit (emitted (handler EvSyncToSession) offlineWorld) = [] /\
  filter isEmit (emitted (handler (EvVideoSubmit "https://youtu.be/9bZkp7q19f0"))
                   offlineWorld) = [].
Proof.
  split.
  - apply (X4_nothing_emitted_offline EvSyncToSession offlineWorld).
    vm_compute. reflexivity.
  - apply (X4_nothing_emitted_offline (EvVideoSubmit "https://youtu.be/9bZkp7q19f0")
             offlineWorld).
    vm_compute. reflexivity.
Defined.

(** X5. [handleVideoSubmit]: without a connected socket it only shows the
    "Not connected" toast; with an empty URL it does nothing; otherwise it
    emits one [change-video] with the URL, the play state of the UI and the
    player's position, where a missing player, a zero and a NaN position
    all give 0, so the position sent is never NaN.  No field of the engine
    is written. *)
Theorem X5_handleVideoSubmit (url : string) (w : World) :
  (socketConnected w = false ->
     handleVideoSubmit url w = (Ok tt, set_trace (trace w ++ [submitNotice]) w)) /\
  (socketConnected w = true -> handleVideoSubmit "" w = (Ok tt, w)) /\
  (socketConnected w = true -> url <> "" -> playerRef w = None ->
     handleVideoSubmit url w
     = (Ok tt, set_trace (trace w ++ [Emit (IChangeVideo url 0 (ui_isPlaying w))]) w)) /\
  (forall p,
     socketConnected w = true -> url <> "" -> playerRef w = Some p -> healthy w ->
     handleVideoSubmit url w
     = (Ok tt,
        set_trace
          (trace w ++
           [Call GetCurrentTime;
            Emit (IChangeVideo url (orZero (sf_time (surface w))) (ui_isPlaying w))])
          w) /\
     is_nan (orZero (sf_time (surface w))) = false).
Proof.
  split; [apply handleVideoSubmit_offline|].
  split; [apply handleVideoSubmit_empty|].
  split; [apply handleVideoSubmit_noPlayer|].
  intros p H Hu Hp Hh. split.
  - apply handleVideoSubmit_player with p; assumption.
  - apply orZero_not_nan.
Qed.

Lemma X5_handleVideoSubmit_witness :
  emitted (handleVideoSubmit "https://youtu.be/9bZkp7q19f0") offlineWorld
    = [submitNotice] /\
  emitted (handleVideoSubmit "https://youtu.be/9bZkp7q19f0") readyWorld
    = [Call GetCurrentTime;
       Emit (IChangeVideo "https://youtu.be/9bZkp7q19f0" 0 false)].
Proof.
  pose proof (X5_handleVideoSubmit "https://youtu.be/9bZkp7q19f0" offlineWorld) as Hoff.
  pose proof (X5_handleVideoSubmit "https://youtu.be/9bZkp7q19f0" readyWorld) as Hon.
  split.
  - pose proof (proj1 Hoff ltac:(vm_compute; reflexivity)) as H.
    unfold emitted. rewrite H. vm_compute. reflexivity.
  - pose proof (proj1 (proj2 (proj2 (proj2 Hon)) (mkPlayer "dQw4w9WgXcQ")
                          ltac:(vm_compute; reflexivity) ltac:(discriminate)
                          ltac:(vm_compute; reflexivity)
                          ltac:(intro c; vm_compute; reflexivity))) as H.
    unfold emitted. rewrite H. vm_compute. reflexivity.
Defined.

(** X6. [initPlayer] never lets an exception escape.  With the container in
    place it destroys the previous player when there is one (a failing
    [destroy] is logged and construction goes on), then constructs a player
    for its video; when the constructor throws, the error is logged and
    shown and [playerRef] keeps the previous, destroyed, player.  It
    schedules no timer and leaves [isPlayerReady] and the queued snapshot
    as they were. *)
Theorem X6_initPlayer_container_present (vid : string) (w : World) :
  fst (initPlayer vid w) = Ok tt /\
  (playerDiv w = true ->
   emitted (initPlayer vid) w = initPlayerEffects vid w /\
   playerRef (snd (initPlayer vid w))
     = (if sf_throws (surface w) (Construct vid) then playerRef w
        else Some (mkPlayer vid)) /\
   timers (snd (initPlayer vid w)) = timers w /\
   isPlayerReady (snd (initPlayer vid w)) = isPlayerReady w /\
   latestSessionState (snd (initPlayer vid w)) = latestSessionState w).
Proof.
  split; [apply initPlayer_returns_always|].
  intro Hd. pose proof (initPlayer_present vid w Hd) as E. split.
  - apply emitted_of with (1 := E). reflexivity.
  - rewrite E. repeat split.
Qed.

Lemma X6_initPlayer_container_present_witness :
  emitted (initPlayer "9bZkp7q19f0") constructorFails
    = [Call Destroy; Call (Construct "9bZkp7q19f0");
       Note (LogError "Failed to create player:");
       Note (ToastError "Failed to initialize video player")] /\
  playerRef (snd (initPlayer "9bZkp7q19f0" constructorFails))
    = Some (mkPlayer "dQw4w9WgXcQ") /\
  timers (snd (initPlayer "9bZkp7q19f0" constructorFails)) = [] /\
  isPlayerReady (snd (initPlayer "9bZkp7q19f0" constructorFails)) = true /\
  latestSessionState (snd (initPlayer "9bZkp7q19f0" constructorFails)) = None.
Proof.
  pose proof (proj2 (X6_initPlayer_container_present "9bZkp7q19f0" constructorFails)
                ltac:(vm_compute; reflexivity)) as H.
  read_off H.
Defined.

(** X7. [handleSyncToSession] on a surface whose calls return normally:
    it always records the interaction, lowers the banner and, when
    connected, asks the server for the session state.  With a queued
    snapshot and a ready player it applies the queued snapshot at once,
    whatever [applyingServerUpdate] and [isLocalAction] are, and takes the
    request back; otherwise the request stays up for the listener.  In both
    cases the queued snapshot stays queued. *)
Theorem X7_handleSyncToSession (w : World) :
  healthy w ->
  fst (handleSyncToSession w) = Ok tt /\
  hasInteracted (snd (handleSyncToSession w)) = true /\
  needsUserInteraction (snd (handleSyncToSession w)) = false /\
  isRequestingSync (snd (handleSyncToSession w)) = negb (canSyncNow w) /\
  latestSessionState (snd (handleSyncToSession w)) = latestSessionState w /\
  emitted handleSyncToSession w
    = syncRequest w ++
      match latestSessionState w with
      | Some s => if canSyncNow w then applyCalls s (sf_time (surface w)) else []
      | None => []
      end.
Proof.
  intro Hh. destruct (canSyncNow w) eqn:Hc.
  - unfold canSyncNow in Hc.
    destruct (latestSessionState w) as [s|] eqn:Hq; [| discriminate Hc].
    destruct (playerRef w) as [p|] eqn:Hp; [| discriminate Hc].
    destruct (isPlayerReady w) eqn:Hr; [| discriminate Hc].
    pose proof (handleSyncToSession_now s w p Hq Hp Hr Hh) as E.
    split; [rewrite E; reflexivity|].
    split; [rewrite E; reflexivity|].
    split; [rewrite E; reflexivity|].
    split; [rewrite E; reflexivity|].
    split; [rewrite E; simpl; exact Hq|].
    apply emitted_of with (1 := E). simpl. rewrite app_assoc. reflexivity.
  - pose proof (handleSyncToSession_later w Hc) as E.
    split; [rewrite E; reflexivity|].
    split; [rewrite E; reflexivity|].
    split; [rewrite E; reflexivity|].
    split; [rewrite E; reflexivity|].
    split; [rewrite E; reflexivity|].
    apply emitted_of with (1 := E).
    destruct (latestSessionState w); rewrite app_nil_r; reflexivity.
Qed.

Lemma X7_handleSyncToSession_witness :
  (latestSessionState gatedWorld = Some playingV2 /\
   hasInteracted gatedWorld = false) /\
  fst (handleSyncToSession gatedWorld) = Ok tt /\
  hasInteracted (snd (handleSyncToSession gatedWorld)) = true /\
  needsUserInteraction (snd (handleSyncToSession gatedWorld)) = false /\
  isRequestingSync (snd (handleSyncToSession gatedWorld)) = false /\
  latestSessionState (snd (handleSyncToSession gatedWorld)) = Some playingV2 /\
  emitted handleSyncToSession gatedWorld
    = [Emit IRequestSessionState; Call GetCurrentTime; Call PlayVideo].
Proof.
  split; [split; vm_compute; reflexivity|].
  pose proof (X7_handleSyncToSession gatedWorld
                ltac:(intro c; vm_compute; reflexivity)) as H.
  read_off H.
Defined.

(** X8. A pending manual sync request is served by the next fresh snapshot
    that finds the player ready: the snapshot is applied whatever
    [applyingServerUpdate], [isLocalAction] and [hasInteracted] are and
    whether it is playing or not.  The request is taken back exactly when
    that application returns, so that one snapshot only is applied this
    way; when one of its surface calls throws, the exception leaves the
    listener and the request stays pending for the next fresh snapshot. *)
Theorem X8_manual_sync_served_once (s : Snapshot) (w : World) (p : Player) :
  isRequestingSync w = true -> playerRef w = Some p -> isPlayerReady w = true ->
  lastVersionRef w < version s ->
  let calls := applyCalls s (sf_time (surface w)) in
  emitted (onSessionState s) w = attempted w calls /\
  lastVersionRef (snd (onSessionState s w)) = version s /\
  isRequestingSync (snd (onSessionState s w)) = anyThrows w calls /\
  onSessionState s w
    = (if anyThrows w calls
       then (Thrown, interrupted s (accepted s w))
       else (Ok tt, set_isRequestingSync false (applied s (accepted s w)))) /\
  (healthy w ->
   onSessionState s w = (Ok tt, set_isRequestingSync false (applied s (accepted s w))) /\
   emitted (onSessionState s) w = calls /\
   isRequestingSync (snd (onSessionState s w)) = false).
Proof.
  intros Hs Hp Hr Hv calls. subst calls.
  assert (E : onSessionState s w
              = (if anyThrows w (applyCalls s (sf_time (surface w)))
                 then (Thrown, interrupted s (accepted s w))
                 else (Ok tt, set_isRequestingSync false (applied s (accepted s w))))).
  { rewrite (onSessionState_accepted s w Hv), Hr. cbn [negb].
    rewrite (disposition_sync_any s (accepted s w) p).
    - rewrite accepted_surface, (anyThrows_surface w (accepted s w));
        [reflexivity | apply accepted_surface].
    - rewrite accepted_isRequestingSync. exact Hs.
    - rewrite accepted_playerRef. exact Hp.
    - rewrite accepted_isPlayerReady. exact Hr. }
  assert (Em : emitted (onSessionState s) w
               = attempted w (applyCalls s (sf_time (surface w)))).
  { destruct (anyThrows w (applyCalls s (sf_time (surface w)))) eqn:Ha;
      apply emitted_of with (1 := E).
    - rewrite interrupted_trace, accepted_trace, accepted_surface.
      rewrite (attempted_surface w (accepted s w)); [reflexivity|].
      apply accepted_surface.
    - rewrite (attempted_all _ _ Ha). simpl.
      rewrite accepted_trace, accepted_surface. reflexivity. }
  split; [exact Em|]. split; [| split; [| split; [exact E|]]].
  - rewrite E. destruct (anyThrows w (applyCalls s (sf_time (surface w))));
      simpl; apply accepted_lastVersionRef.
  - rewrite E. destruct (anyThrows w (applyCalls s (sf_time (surface w))));
      simpl; [rewrite accepted_isRequestingSync; exact Hs | reflexivity].
  - intro Hh. pose proof (healthy_anyThrows w (applyCalls s (sf_time (surface w))) Hh) as Ha.
    rewrite Em, E, Ha. split; [reflexivity|].
    split; [apply attempted_all; exact Ha | reflexivity].
Qed.

(** The request made while a pause was in flight is served by version 2;
    on a player whose [playVideo] throws it stays pending and version 3 is
    served the same way. *)
Lemma X8_manual_sync_served_once_witness :
  (isRequestingSync syncPendingWorld = true /\
   isLocalAction syncPendingWorld = true) /\
  (emitted (onSessionState playingV2) syncPendingWorld
     = [Call GetCurrentTime; Call PlayVideo] /\
   lastVersionRef (snd (onSessionState playingV2 syncPendingWorld)) = 2 /\
   isRequestingSync (snd (onSessionState playingV2 syncPendingWorld)) = false) /\
  (emitted (onSessionState playingV2) syncPendingBroken
     = [Call GetCurrentTime; Call PlayVideo] /\
   lastVersionRef (snd (onSessionState playingV2 syncPendingBroken)) = 2 /\
   isRequestingSync (snd (onSessionState playingV2 syncPendingBroken)) = true) /\
  emitted (onSessionState pausedV3) (snd (onSessionState playingV2 syncPendingBroken))
    = [Call GetCurrentTime; Call (SeekTo 60 true); Call PauseVideo].
Proof.
  split; [split; vm_compute; reflexivity|].
  pose proof (X8_manual_sync_served_once playingV2 syncPendingWorld
                (mkPlayer "dQw4w9WgXcQ")
                ltac:(vm_compute; reflexivity) ltac:(vm_compute; reflexivity)
                ltac:(vm_compute; reflexivity)
                ltac:(apply Z.ltb_lt; vm_compute; reflexivity)) as H.
  pose proof (X8_manual_sync_served_once playingV2 syncPendingBroken
                (mkPlayer "dQw4w9WgXcQ")
                ltac:(vm_compute; reflexivity) ltac:(vm_compute; reflexivity)
                ltac:(vm_compute; reflexivity)
                ltac:(apply Z.ltb_lt; vm_compute; reflexivity)) as H'.
  pose proof (X8_manual_sync_served_once pausedV3
                (snd (onSessionState playingV2 syncPendingBroken))
                (mkPlayer "dQw4w9WgXcQ")
                ltac:(vm_compute; reflexivity) ltac:(vm_compute; reflexivity)
                ltac:(vm_compute; reflexivity)
                ltac:(apply Z.ltb_lt; vm_compute; reflexivity)) as H''.
  split; [| split].
  - destruct H as [H1 [H2 [H3 _]]].
    split; [read_off H1 | split; [read_off H2 | read_off H3]].
  - destruct H' as [H1 [H2 [H3 _]]].
    split; [read_off H1 | split; [read_off H2 | read_off H3]].
  - pose proof (proj1 H'') as H1. read_off H1.
Defined.

(** X9. A fresh snapshot that finds the player ready, its calls returning
    normally and no manual sync requested is handled in one of three ways.
    Playing before any interaction: it is queued and the banner is raised,
    without a surface call.  Otherwise, with [applyingServerUpdate] or
    [isLocalAction] up: it is neither applied nor queued, and since its
    version has been recorded a redelivery is dropped too.  Otherwise it is
    applied. *)
Theorem X9_listener_decision (s : Snapshot) (w : World) (p : Player) :
  isRequestingSync w = false -> playerRef w = Some p -> isPlayerReady w = true ->
  healthy w -> lastVersionRef w < version s ->
  fst (onSessionState s w) = Ok tt /\
  emitted (onSessionState s) w
    = (if gated s w || busy w then [] else applyCalls s (sf_time (surface w))) /\
  latestSessionState (snd (onSessionState s w))
    = (if gated s w then Some s else latestSessionState w) /\
  needsUserInteraction (snd (onSessionState s w))
    = (if gated s w then true else needsUserInteraction (accepted s w)) /\
  lastVersionRef (snd (onSessionState s w)) = version s /\
  onSessionState s (snd (onSessionState s w))
    = (Ok tt, snd (onSessionState s w)).
Proof.
  intros Hs Hp Hr Hh Hv.
  assert (Hs' : isRequestingSync (accepted s w) = false)
    by (rewrite accepted_isRequestingSync; exact Hs).
  assert (Hg' : gated s (accepted s w) = gated s w)
    by (unfold gated; rewrite accepted_hasInteracted; reflexivity).
  assert (Hb' : busy (accepted s w) = busy w)
    by (unfold busy; rewrite accepted_applyingServerUpdate, accepted_isLocalAction;
        reflexivity).
  assert (E : onSessionState s w
              = (Ok tt,
                 if gated s w
                 then set_latestSessionState (Some s)
                        (set_needsUserInteraction true (accepted s w))
                 else if busy w then accepted s w
                 else applied s (accepted s w))).
  { rewrite (onSessionState_accepted s w Hv), Hr. cbn [negb].
    destruct (gated s w) eqn:Hg; [| destruct (busy w) eqn:Hb].
    - apply disposition_gated; [exact Hs' | rewrite Hg'; reflexivity].
    - apply disposition_busy; [exact Hs' | rewrite Hg'; reflexivity
                              | rewrite Hb'; reflexivity].
    - apply disposition_normal with p;
        [ exact Hs' | rewrite Hg'; reflexivity | rewrite Hb'; reflexivity
        | rewrite accepted_playerRef; exact Hp
        | rewrite accepted_isPlayerReady; exact Hr
        | apply accepted_healthy; exact Hh ]. }
  assert (Hl : lastVersionRef (snd (onSessionState s w)) = version s).
  { rewrite E. destruct (gated s w); [| destruct (busy w)]; simpl;
      apply accepted_lastVersionRef. }
  split; [rewrite E; reflexivity|]. split.
  - apply emitted_of with (1 := E).
    destruct (gated s w); [| destruct (busy w)]; simpl;
      rewrite accepted_trace, ?accepted_surface, ?app_nil_r; reflexivity.
  - split; [| split; [| split]].
    + rewrite E. destruct (gated s w); [| destruct (busy w)]; simpl;
        try reflexivity; apply accepted_latestSessionState.
    + rewrite E. destruct (gated s w); [| destruct (busy w)]; reflexivity.
    + exact Hl.
    + apply onSessionState_stale. rewrite Hl. lia.
Qed.

Lemma X9_listener_decision_witness :
  (isLocalAction pausing = true /\ latestSessionState pausing = None) /\
  fst (onSessionState pausedV3 pausing) = Ok tt /\
  emitted (onSessionState pausedV3) pausing = [] /\
  latestSessionState (snd (onSessionState pausedV3 pausing)) = None /\
  lastVersionRef (snd (onSessionState pausedV3 pausing)) = 3.
Proof.
  split; [split; vm_compute; reflexivity|].
  pose proof (X9_listener_decision pausedV3 pausing (mkPlayer "dQw4w9WgXcQ")
                ltac:(vm_compute; reflexivity) ltac:(vm_compute; reflexivity)
                ltac:(vm_compute; reflexivity)
                ltac:(intro c; vm_compute; reflexivity)
                ltac:(apply Z.ltb_lt; vm_compute; reflexivity)) as H.
  destruct H as [H1 [H2 [H3 [_ [H5 _]]]]].
  split; [exact H1|]. split; [read_off H2|]. split; [read_off H3 | read_off H5].
Defined.

(** X10. While the player is not ready the queue is a single slot where the
    latest version wins: a fresh snapshot replaces whatever was queued
    without any surface call, so of two snapshots delivered in either
    order the one with the higher version is the one left in the queue. *)
Theorem X10_queue_latest_wins (s1 s2 : Snapshot) (w : World) :
  isPlayerReady w = false ->
  lastVersionRef w < version s1 -> version s1 < version s2 ->
  let older_first := snd (onSessionState s2 (snd (onSessionState s1 w))) in
  let newer_first := snd (onSessionState s1 (snd (onSessionState s2 w))) in
  latestSessionState older_first = Some s2 /\
  latestSessionState newer_first = Some s2 /\
  trace older_first = trace w /\ trace newer_first = trace w /\
  lastVersionRef older_first = version s2 /\ lastVersionRef newer_first = version s2.
Proof.
  intros Hr H1 H2.
  assert (Q : forall s w0, isPlayerReady w0 = false -> lastVersionRef w0 < version s ->
              onSessionState s w0 = (Ok tt, set_latestSessionState (Some s) (accepted s w0))).
  { intros s w0 Hr0 Hv0. rewrite (onSessionState_accepted s w0 Hv0), Hr0. reflexivity. }
  cbv zeta.
  rewrite (Q s1 w Hr H1), (Q s2 w Hr (Z.lt_trans _ _ _ H1 H2)). simpl snd.
  rewrite (Q s2 (set_latestSessionState (Some s1) (accepted s1 w))).
  - rewrite (onSessionState_stale s1 (set_latestSessionState (Some s2) (accepted s2 w))).
    + repeat (progress (simpl; rewrite ?accepted_trace, ?accepted_lastVersionRef)).
      repeat split.
    + simpl. rewrite accepted_lastVersionRef. lia.
  - simpl. rewrite accepted_isPlayerReady. exact Hr.
  - simpl. rewrite accepted_lastVersionRef. exact H2.
Qed.

Lemma X10_queue_latest_wins_witness :
  latestSessionState
    (snd (onSessionState pausedV3 (snd (onSessionState playingV2 joiningPaused))))
    = Some pausedV3 /\
  latestSessionState
    (snd (onSessionState playingV2 (snd (onSessionState pausedV3 joiningPaused))))
    = Some pausedV3.
Proof.
  pose proof (X10_queue_latest_wins playingV2 pausedV3 joiningPaused
                ltac:(vm_compute; reflexivity)
                ltac:(apply Z.ltb_lt; vm_compute; reflexivity)
                ltac:(apply Z.ltb_lt; vm_compute; reflexivity)) as H.
  cbv zeta in H. destruct H as [H1 [H2 _]]. split; [exact H1 | exact H2].
Defined.

(** X11. A commit leaves nothing to do: a second commit right after it
    changes nothing.  In particular re-rendering does not reset the ready
    flag or schedule another construction. *)
Theorem X11_commit_idempotent (w : World) :
  step EvCommit (step EvCommit w) = step EvCommit w.
Proof.
  unfold step. simpl handler.
  destruct (commit_settles w) as [_ Hs].
  rewrite (commit_settled (snd (commit w)) Hs). reflexivity.
Qed.

(** X12. The player effect.  A commit in which [currentVideoId] is the one
    of the previous commit schedules nothing and keeps the ready flag.  A
    commit with a new, non-empty video id (the API being loaded) resets the
    ready flags and schedules [initPlayer] for that id 100 ms later; its
    cleanup cancels the 100 ms timer of the previous effect and only that
    one: every other pending timer, a 500 ms retry for the previous video
    included, is still pending.  The player and the queued snapshot are
    not touched. *)
Theorem X12_player_effect (w : World) :
  (currentVideoId w = playerEffectDep w ->
     timers (snd (commit w)) = timers w /\
     isPlayerReady (snd (commit w)) = isPlayerReady w /\
     playerEffectTimer (snd (commit w)) = playerEffectTimer w) /\
  (currentVideoId w <> playerEffectDep w ->
   currentVideoId w <> "" -> YT w = true ->
     (timers (snd (commit w))
        = cancelled w ++ [mkTimer (nextTimerId w) 100 (InitPlayer (currentVideoId w))] /\
      isPlayerReady (snd (commit w)) = false /\
      playerReadyUI (snd (commit w)) = false /\
      playerEffectTimer (snd (commit w)) = Some (nextTimerId w) /\
      playerRef (snd (commit w)) = playerRef w /\
      latestSessionState (snd (commit w)) = latestSessionState w /\
      trace (snd (commit w)) = trace w) /\
     (forall t, In t (timers w) -> playerEffectTimer w <> Some (t_id t) ->
                In t (timers (snd (commit w))))).
Proof.
  split; [apply commit_sameVideo|].
  intros Hv He Hy. pose proof (commit_videoChange w Hv He Hy) as H.
  split; [exact H|].
  intros t Hin Hne. destruct H as [Ht _]. rewrite Ht.
  apply in_or_app. left. apply cancelled_keeps; assumption.
Qed.

Lemma X12_player_effect_witness :
  timers retryPending = [mkTimer 1 500 (InitPlayer "dQw4w9WgXcQ")] /\
  timers (snd (commit retryPending))
    = [mkTimer 1 500 (InitPlayer "dQw4w9WgXcQ");
       mkTimer 2 100 (InitPlayer "9bZkp7q19f0")] /\
  isPlayerReady (snd (commit retryPending)) = false /\
  timers (snd (commit readyWorld)) = timers readyWorld /\
  isPlayerReady (snd (commit readyWorld)) = true.
Proof.
  split; [vm_compute; reflexivity|].
  pose proof (proj1 (proj2 (X12_player_effect retryPending)
                       ltac:(vm_compute; discriminate) ltac:(vm_compute; discriminate)
                       ltac:(vm_compute; reflexivity))) as Hc.
  pose proof (proj1 (X12_player_effect readyWorld) ltac:(vm_compute; reflexivity)) as Hs.
  destruct Hc as [Hc1 [Hc2 _]]. destruct Hs as [Hs1 [Hs2 _]].
  split; [read_off Hc1|]. split; [exact Hc2|]. split; [exact Hs1|].
  rewrite Hs2. vm_compute. reflexivity.
Defined.

(** X13. [onReady] always raises the ready flags.  With nothing queued it
    does nothing else.  With a snapshot queued it applies it to the player
    and catches nothing: when every surface call of the flush returns, the
    queue is emptied and the 200 ms timer is scheduled; when one of them
    throws - the position read, the seek, play or pause - the exception
    leaves [onReady], the snapshot stays queued, [applyingServerUpdate] is
    left up and no timer has been scheduled to clear it. *)
Theorem X13_onReady_queue (w : World) :
  (latestSessionState w = None ->
     onReady w = (Ok tt, set_playerReadyUI true (set_isPlayerReady true w))) /\
  (forall s p, latestSessionState w = Some s -> playerRef w = Some p ->
     let calls := applyCalls s (sf_time (surface w)) in
     isPlayerReady (snd (onReady w)) = true /\
     playerReadyUI (snd (onReady w)) = true /\
     emitted onReady w = attempted w calls /\
     if anyThrows w calls then
       fst (onReady w) = Thrown /\
       latestSessionState (snd (onReady w)) = Some s /\
       applyingServerUpdate (snd (onReady w)) = true /\
       timers (snd (onReady w)) = timers w
     else
       fst (onReady w) = Ok tt /\
       latestSessionState (snd (onReady w)) = None /\
       timers (snd (onReady w))
         = timers w ++ [mkTimer (nextTimerId w) 200 ClearApplyingServerUpdate]).
Proof.
  split; [apply onReady_empty|].
  intros s p Hq Hp calls. subst calls.
  pose proof (onReady_any s w p Hq Hp) as E. cbv zeta in E.
  assert (Em : emitted onReady w = attempted w (applyCalls s (sf_time (surface w)))).
  { destruct (anyThrows w (applyCalls s (sf_time (surface w)))) eqn:Ha;
      apply emitted_of with (1 := E).
    - rewrite interrupted_trace.
      rewrite (attempted_surface w (set_playerReadyUI true (set_isPlayerReady true w)));
        reflexivity.
    - rewrite (attempted_all _ _ Ha). reflexivity. }
  rewrite E.
  destruct (anyThrows w (applyCalls s (sf_time (surface w)))) eqn:Ha;
    (split; [reflexivity|]); (split; [reflexivity|]);
    (split; [rewrite Em; reflexivity|]); repeat split.
  exact Hq.
Qed.

(** The flush on players whose [playVideo], whose [pauseVideo] and whose
    position read throw. *)
Lemma X13_onReady_queue_witness :
  (fst (onReady joiningBroken) = Thrown /\
   latestSessionState (snd (onReady joiningBroken)) = Some snapshotV1 /\
   applyingServerUpdate (snd (onReady joiningBroken)) = true /\
   timers (snd (onReady joiningBroken)) = []) /\
  (fst (onReady (step (EvSurface brokenPause) joiningPaused)) = Thrown /\
   latestSessionState (snd (onReady (step (EvSurface brokenPause) joiningPaused)))
     = Some pausedV1) /\
  (fst (onReady (step (EvSurface brokenTime) joiningPaused)) = Thrown /\
   latestSessionState (snd (onReady (step (EvSurface brokenTime) joiningPaused)))
     = Some pausedV1) /\
  (fst (onReady joiningPaused) = Ok tt /\
   latestSessionState (snd (onReady joiningPaused)) = None).
Proof.
  pose proof (proj2 (X13_onReady_queue joiningBroken) snapshotV1
                (mkPlayer "dQw4w9WgXcQ")
                ltac:(vm_compute; reflexivity) ltac:(vm_compute; reflexivity)) as H1.
  pose proof (proj2 (X13_onReady_queue (step (EvSurface brokenPause) joiningPaused))
                pausedV1 (mkPlayer "dQw4w9WgXcQ")
                ltac:(vm_compute; reflexivity) ltac:(vm_compute; reflexivity)) as H2.
  pose proof (proj2 (X13_onReady_queue (step (EvSurface brokenTime) joiningPaused))
                pausedV1 (mkPlayer "dQw4w9WgXcQ")
                ltac:(vm_compute; reflexivity) ltac:(vm_compute; reflexivity)) as H3.
  pose proof (proj2 (X13_onReady_queue joiningPaused)
                pausedV1 (mkPlayer "dQw4w9WgXcQ")
                ltac:(vm_compute; reflexivity) ltac:(vm_compute; reflexivity)) as H4.
  cbv zeta in H1, H2, H3, H4.
  destruct H1 as [_ [_ [_ H1]]]. destruct H2 as [_ [_ [_ H2]]].
  destruct H3 as [_ [_ [_ H3]]]. destruct H4 as [_ [_ [_ H4]]].
  split; [| split; [| split]].
  - read_off H1.
  - vm_compute in H2. vm_compute. split; [exact (proj1 H2) | exact (proj1 (proj2 H2))].
  - vm_compute in H3. vm_compute. split; [exact (proj1 H3) | exact (proj1 (proj2 H3))].
  - vm_compute in H4. vm_compute. split; [exact (proj1 H4) | exact (proj1 (proj2 H4))].
Defined.



(** X15. In every reachable state a raised ready flag comes with a player
    instance: [isPlayerReady] is only raised by the callback of a
    constructed player and [playerRef] is never cleared. *)
Theorem X15_ready_implies_player (w : World) :
  reachable w -> isPlayerReady w = true -> playerRef w <> None.
Proof.
  intros Hr Hp E. pose proof (reachable_readyHasPlayer w Hr Hp) as H.
  rewrite E in H. discriminate H.
Qed.

Lemma X15_ready_implies_player_witness :
  playerRef readyWorld <> None.
Proof.
  apply (X15_ready_implies_player readyWorld readyWorld_reachable).
  vm_compute. reflexivity.
Defined.

(** X16. In every reachable state a pending manual sync request was made by
    a user gesture: [isRequestingSync] is only raised by
    [handleSyncToSession], which records the interaction first, so the
    branch of the listener that bypasses the autoplay case is only taken
    after an interaction. *)
Theorem X16_sync_request_after_gesture (w : World) :
  reachable w -> isRequestingSync w = true -> hasInteracted w = true.
Proof. intro Hr. apply (reachable_syncAfterGesture w Hr). Qed.

Lemma X16_sync_request_after_gesture_witness :
  hasInteracted syncPendingWorld = true.
Proof.
  apply (X16_sync_request_after_gesture syncPendingWorld).
  - apply reachable_run. exact readyWorld_reachable.
  - vm_compute. reflexivity.
Defined.

(** X17. In every reachable state each pending timer is of one of three
    kinds with its own delay: the clearing of [applyingServerUpdate] after
    200 ms, the clearing of [isLocalAction] after 100 ms, and the
    construction of a player after 100 ms or, as a retry, 500 ms. *)
Theorem X17_timer_delays (w : World) (t : Timer) :
  reachable w -> In t (timers w) ->
  match t_callback t with
  | ClearApplyingServerUpdate => t_delay t = 200
  | ClearLocalAction => t_delay t = 100
  | InitPlayer _ => t_delay t = 100 \/ t_delay t = 500
  end.
Proof.
  intros Hr Hin. pose proof (reachable_timersShaped w Hr) as H.
  unfold timersShaped in H. rewrite Forall_forall in H. apply (H t Hin).
Qed.

Lemma X17_timer_delays_witness :
  t_delay (mkTimer 2 200 ClearApplyingServerUpdate) = 200.
Proof.
  apply (X17_timer_delays switching (mkTimer 2 200 ClearApplyingServerUpdate)
           switching_reachable).
  vm_compute. left. reflexivity.
Defined.

(** X18. In every reachable state the queued snapshot is not newer than the
    applied version: it went through the version filter when it arrived.
    Handing it to the listener again would therefore drop it as stale. *)
Theorem X18_queue_is_filtered (w : World) (s : Snapshot) :
  reachable w -> latestSessionState w = Some s ->
  version s <= lastVersionRef w /\ onSessionState s w = (Ok tt, w).
Proof.
  intros Hr Hq. pose proof (reachable_queueFiltered w Hr s Hq) as H.
  split; [exact H | apply onSessionState_stale; exact H].
Qed.

Lemma X18_queue_is_filtered_witness :
  version snapshotV1 <= lastVersionRef joiningPlaying /\
  onSessionState snapshotV1 joiningPlaying = (Ok tt, joiningPlaying).
Proof.
  apply (X18_queue_is_filtered joiningPlaying snapshotV1 joiningPlaying_reachable).
  vm_compute. reflexivity.
Defined.


